(** * Base-ML-Platform: the parameter engine and the execution engine

    A shallow embedding of [utils/parameter_parser.py] and
    [utils/code_executor.py], with the properties that the specification
    states about them.

    Conventions of the model.
    - A Python [str] is a [text], a list of characters.  Characters are the
      code points U+0000 to U+00FF; scripts that use other characters are
      outside the model.
    - A Python number is a [pynum]: an [int] is an integer of [Z], a [float]
      is the rational number it denotes.  Binary rounding of floats is not
      modelled, and neither is infinity: a numeral that [float] reads as
      infinity, and one with more digits than [int] takes, are outside the
      model, and the statements that depend on it assume that the script
      has none ([numerals_in_range]).
    - A Python [dict] is an association list in insertion order.
    - The executed script is any program.  The model follows what it does
      to the objects that [execute_code] hands to it or lets it reach: the
      namespace, the two captured streams, the exceptions it raises and the
      frame of its caller.  A script that replaces a function which
      [execute_code] itself goes on to call ([set], [str],
      [traceback.format_exc], a method of the streams or of [contextlib])
      rewrites the executor and is outside the model. *)

From Stdlib Require Import Ascii String ZArith QArith Qabs Lia Lqa Bool Arith
  Sorted List.
Import ListNotations.

Close Scope Q_scope.
Open Scope string_scope.
Open Scope nat_scope.
Open Scope list_scope.

(* ================================================================== *)
(** * Texts *)
(* ================================================================== *)

Definition text := list ascii.

(** [T "abc"] is the text of a string literal. *)
Definition T (s : string) : text := list_ascii_of_string s.

Definition code_of (c : ascii) : nat := nat_of_ascii c.

Definition ch (n : nat) : ascii := ascii_of_nat n.

Definition newline : ascii := ch 10.
Definition quote : ascii := ch 34.

(** [str.isspace] on one character, which is also what [\s] accepts:
    TAB, LF, VT, FF, CR, FS, GS, RS, US, SPACE, NEL and NBSP. *)
Definition is_space (c : ascii) : bool :=
  let n := code_of c in
  ((9 <=? n) && (n <=? 13)) || ((28 <=? n) && (n <=? 32))
  || (n =? 133) || (n =? 160).

(** [[0-9]] *)
Definition is_digit (c : ascii) : bool :=
  let n := code_of c in (48 <=? n) && (n <=? 57).

Definition is_upper (c : ascii) : bool :=
  let n := code_of c in
  ((65 <=? n) && (n <=? 90))
  || ((192 <=? n) && (n <=? 222) && negb (n =? 215)).

(** [str.lower] on one character. *)
Definition lower (c : ascii) : ascii :=
  if is_upper c then ch (code_of c + 32) else c.

(** [[a-z_]] under [re.IGNORECASE], on the characters of the model.  (Of
    the other characters it also takes U+017F and U+212A, which lower to
    [s] and [k].) *)
Definition is_name_char (c : ascii) : bool :=
  let n := code_of (lower c) in
  ((97 <=? n) && (n <=? 122)) || (n =? 95).

Definition ascii_eqb (a b : ascii) : bool := Ascii.eqb a b.

Fixpoint text_eqb (a b : text) : bool :=
  match a, b with
  | [], [] => true
  | x :: a', y :: b' => ascii_eqb x y && text_eqb a' b'
  | _, _ => false
  end.

(** [s.lower()] *)
Definition lower_text (s : text) : text := map lower s.

(** [s.startswith(p)]: the rest of [s] after [p], when [p] is a prefix. *)
Fixpoint strip_prefix (p s : text) : option text :=
  match p, s with
  | [], _ => Some s
  | x :: p', y :: s' => if ascii_eqb x y then strip_prefix p' s' else None
  | _ :: _, [] => None
  end.

Definition startswith (s p : text) : bool :=
  match strip_prefix p s with Some _ => true | None => false end.

(** [x in s] for strings: [x] occurs in [s] as a substring. *)
Fixpoint contains (s x : text) : bool :=
  startswith s x ||
  match s with
  | [] => false
  | _ :: s' => contains s' x
  end.

(** [x in xs] for a list of strings. *)
Definition text_in (x : text) (xs : list text) : bool :=
  existsb (text_eqb x) xs.

Fixpoint drop_while (p : ascii -> bool) (s : text) : text :=
  match s with
  | [] => []
  | c :: s' => if p c then drop_while p s' else s
  end.

Fixpoint take_while (p : ascii -> bool) (s : text) : text :=
  match s with
  | [] => []
  | c :: s' => if p c then c :: take_while p s' else []
  end.

(** [s.lstrip()], [s.rstrip()], [s.strip()] *)
Definition lstrip (s : text) : text := drop_while is_space s.
Definition rstrip_by (p : ascii -> bool) (s : text) : text :=
  rev (drop_while p (rev s)).
Definition strip (s : text) : text := rstrip_by is_space (lstrip s).

(** [s.split(sep)] for a one-character separator: always at least one
    piece. *)
Fixpoint split (sep : ascii) (s : text) : list text :=
  match s with
  | [] => [[]]
  | c :: s' =>
      if ascii_eqb c sep then [] :: split sep s'
      else match split sep s' with
           | [] => [[c]]
           | l :: ls => (c :: l) :: ls
           end
  end.

(** [sep.join(pieces)] *)
Fixpoint join (sep : ascii) (pieces : list text) : text :=
  match pieces with
  | [] => []
  | [l] => l
  | l :: ls => l ++ sep :: join sep ls
  end.

(* ================================================================== *)
(** * Numbers *)
(* ================================================================== *)

Inductive pynum : Type :=
| PInt (z : Z)
| PFloat (q : Q).

Definition num_Q (x : pynum) : Q :=
  match x with
  | PInt z => inject_Z z
  | PFloat q => q
  end.

(** [isinstance(x, float)] *)
Definition is_float (x : pynum) : bool :=
  match x with PFloat _ => true | PInt _ => false end.

(** [int(x)]: truncation towards zero. *)
Definition py_int (x : pynum) : Z :=
  match x with
  | PInt z => z
  | PFloat q => Z.quot (Qnum q) (Zpos (Qden q))
  end.

Definition Qltb (a b : Q) : bool := negb (Qle_bool b a).

Definition py_lt (x y : pynum) : bool := Qltb (num_Q x) (num_Q y).
Definition py_le (x y : pynum) : bool := Qle_bool (num_Q x) (num_Q y).
Definition py_eq (x y : pynum) : bool := Qeq_bool (num_Q x) (num_Q y).

(** [abs(x)] *)
Definition py_abs (x : pynum) : pynum :=
  match x with
  | PInt z => PInt (Z.abs z)
  | PFloat q => PFloat (Qabs q)
  end.

(** [x * n] for an int [n]. *)
Definition py_mul_int (x : pynum) (n : Z) : pynum :=
  match x with
  | PInt z => PInt (z * n)
  | PFloat q => PFloat (q * inject_Z n)%Q
  end.

(** A decimal literal of the source, [m / 10^e]. *)
Definition dec (m : Z) (e : nat) : Q := Qmake m (Z.to_pos (10 ^ Z.of_nat e)).

(* ------------------------------------------------------------------ *)
(** ** Reading and writing decimal numerals *)

Definition digit_val (c : ascii) : Z := Z.of_nat (code_of c - 48).

Definition digit_char (d : Z) : ascii := ch (48 + Z.to_nat d).

(** [int(s)] for a string of digits. *)
Definition parse_digits (s : text) : Z :=
  fold_left (fun acc c => (10 * acc + digit_val c)%Z) s 0%Z.

(** [float(s)] for a string [digits* . digits+] (the part before the
    point may be empty) that denotes a number below [float_overflow]: the
    number itself stands for the float nearest to it. *)
Definition parse_float (s : text) : Q :=
  let whole := take_while (fun c => negb (ascii_eqb c "."%char)) s in
  let frac := skipn (S (length whole)) s in
  dec (parse_digits (whole ++ frac)) (length frac).

Fixpoint digits_fuel (fuel : nat) (n : Z) (acc : text) : text :=
  match fuel with
  | O => digit_char (n mod 10) :: acc
  | S fuel' =>
      if (n <? 10)%Z then digit_char n :: acc
      else digits_fuel fuel' (n / 10)%Z (digit_char (n mod 10) :: acc)
  end.

(** The decimal digits of a natural number, without leading zeros. *)
Definition digits_of (n : Z) : text :=
  digits_fuel (Z.to_nat (Z.log2 n)) n [].

(** [str(z)] for an int. *)
Definition str_int (z : Z) : text :=
  if (z <? 0)%Z then "-"%char :: digits_of (- z) else digits_of z.

(** [f"{x:.6f}"]: six digits after the point, ties to even. *)
Definition round_half_even (q : Q) : Z :=
  let a := Qnum q in
  let b := Zpos (Qden q) in
  let fl := (a / b)%Z in
  let r := (a mod b)%Z in
  if (2 * r <? b)%Z then fl
  else if (b <? 2 * r)%Z then (fl + 1)%Z
  else if Z.even fl then fl else (fl + 1)%Z.

Definition pad6 (s : text) : text :=
  repeat "0"%char (6 - length s) ++ s.

Definition format_6f (q : Q) : text :=
  let n := round_half_even (Qabs q * inject_Z 1000000)%Q in
  (if Qltb q 0%Q then ["-"%char] else [])
  ++ digits_of (n / 1000000)%Z ++ "."%char :: pad6 (digits_of (n mod 1000000)%Z).

(* ================================================================== *)
(** * Regular expressions *)
(* ================================================================== *)

(** The fragment of Python's [re] syntax that the patterns of the parser
    use.  Every pattern is compiled with [re.IGNORECASE], so a literal
    matches without regard to letter case.  Quantifiers are greedy and only
    ever apply to one character class or one character. *)
Inductive regex : Type :=
| Never                          (* an alternation with no branch *)
| Eps                            (* the empty pattern *)
| Lit (l : text)                 (* literal text *)
| Star (p : ascii -> bool)       (* [...]*  *)
| Plus (p : ascii -> bool)       (* [...]+  *)
| Opt (c : ascii)                (* c?  *)
| Cat (a b : regex)              (* a b *)
| Alt (a b : regex)              (* a|b *)
| Group (a : regex).             (* (a), capturing *)

(** A literal under [re.IGNORECASE]. *)
Fixpoint strip_prefix_ci (p s : text) : option text :=
  match p, s with
  | [], _ => Some s
  | x :: p', y :: s' =>
      if ascii_eqb (lower x) (lower y) then strip_prefix_ci p' s' else None
  | _ :: _, [] => None
  end.

Fixpoint count_while (p : ascii -> bool) (s : text) : nat :=
  match s with
  | [] => 0
  | c :: s' => if p c then S (count_while p s') else 0
  end.

(** [n; n-1; ...; 1] *)
Fixpoint downto1 (n : nat) : list nat :=
  match n with
  | O => []
  | S k => n :: downto1 k
  end.

(** [n; n-1; ...; 1; 0] *)
Definition downto0 (n : nat) : list nat := downto1 n ++ [0].

(** One way of matching: the texts of the capturing groups it closed, in
    the order of their opening parentheses, and the input left over. *)
Definition way : Type := (list text * text)%type.

(** All the ways in which [r] matches at the start of [s], in the order in
    which a backtracking matcher tries them: the longest repetition first,
    the leftmost alternative first. *)
Fixpoint run (r : regex) (s : text) : list way :=
  match r with
  | Never => []
  | Eps => [([], s)]
  | Lit l =>
      match strip_prefix_ci l s with
      | Some s' => [([], s')]
      | None => []
      end
  | Star p => map (fun k => ([], skipn k s)) (downto0 (count_while p s))
  | Plus p => map (fun k => ([], skipn k s)) (downto1 (count_while p s))
  | Opt c =>
      match strip_prefix_ci [c] s with
      | Some s' => [([], s'); ([], s)]
      | None => [([], s)]
      end
  | Cat a b =>
      flat_map (fun w1 : way =>
                  map (fun w2 : way => (fst w1 ++ fst w2, snd w2))
                      (run b (snd w1)))
               (run a s)
  | Alt a b => run a s ++ run b s
  | Group a =>
      map (fun w : way => (firstn (length s - length (snd w)) s :: fst w, snd w))
          (run a s)
  end.

(** [re.match(r, s, re.IGNORECASE)]: [None], or the groups of the first
    way found. *)
Definition re_match (r : regex) (s : text) : option (list text) :=
  match run r s with
  | [] => None
  | w :: _ => Some (fst w)
  end.

Definition seq (rs : list regex) : regex := fold_right Cat Eps rs.
Definition alt (rs : list regex) : regex := fold_right Alt Never rs.

(** [(?:w1|w2|...)] for literal words. *)
Definition words (ws : list string) : regex := alt (map (fun w => Lit (T w)) ws).

(** [[0-9]*\.?[0-9]+] *)
Definition number : regex :=
  seq [Star is_digit; Opt "."%char; Plus is_digit].

(** [[0-9]+] *)
Definition integer : regex := Plus is_digit.

(** The shape every pattern of the parser has, written with blanks between
    its parts: [^ ( \s* ) ( name ) \s* = \s* ( value )].  [re.match] anchors at
    the start of the line. *)
Definition assignment (name value : regex) : regex :=
  seq [Group (Star is_space); Group name; Star is_space; Lit (T "=");
       Star is_space; Group value].

(* ================================================================== *)
(** * The parameter parser: [utils/parameter_parser.py] *)
(* ================================================================== *)

(** The dataclass [Parameter], after [__post_init__] has run. *)
Record Param : Type := mkParameter {
  name : text;
  value : pynum;
  line_number : nat;
  original_text : text;
  param_type : text;            (* 'int' or 'float' *)
  min_value : pynum;
  max_value : pynum;
  step : pynum
}.

(** [Parameter.__post_init__]: each of [min_value], [max_value] and [step]
    that was left at [None] gets its default. *)
Definition post_init (value : pynum) (param_type : text)
    (min_value max_value step : option pynum) : pynum * pynum * pynum :=
  let min_value :=
    match min_value with
    | Some m => m
    | None =>
        if text_eqb param_type (T "int")
        then PInt (Z.max 0 (py_int value - 100))
        else if py_lt (py_abs value) (PInt 1) then PFloat 0%Q
             else PFloat 0%Q
    end in
  let max_value :=
    match max_value with
    | Some m => m
    | None =>
        if text_eqb param_type (T "int")
        then PInt (Z.max (py_int value + 100) (py_int value * 3))
        else if py_lt (py_abs value) (PInt 1) then PFloat 1%Q
             else if py_lt (py_abs value) (PInt 10) then py_mul_int value 5
                  else py_mul_int value 3
    end in
  let step :=
    match step with
    | Some st => st
    | None =>
        if text_eqb param_type (T "int") then PInt 1
        else if py_lt (py_abs value) (PFloat 0.01%Q) then PFloat 0.001%Q
             else if py_lt (py_abs value) (PFloat 0.1%Q) then PFloat 0.01%Q
                  else if py_lt (py_abs value) (PInt 1) then PFloat 0.05%Q
                       else PFloat 0.1%Q
    end in
  (min_value, max_value, step).

(** [Parameter(name=..., value=..., line_number=..., original_text=...,
    param_type=...)] *)
Definition new_Parameter (name : text) (value : pynum) (line_number : nat)
    (original_text param_type : text) : Param :=
  let '(mn, mx, st) := post_init value param_type None None None in
  mkParameter name value line_number original_text param_type mn mx st.

(** [PARAMETER_PATTERNS], in the order of the source. *)
Definition PARAMETER_PATTERNS : list regex :=
  [ (* [a-z_]*(?:rate|alpha|beta|gamma|epsilon|lambda|eta|momentum|decay) *)
    assignment
      (Cat (Star is_name_char)
           (words ["rate"; "alpha"; "beta"; "gamma"; "epsilon"; "lambda";
                   "eta"; "momentum"; "decay"]))
      number;
    (* n_[a-z_]+ *)
    assignment (Cat (Lit (T "n_")) (Plus is_name_char)) integer;
    (* max_[a-z_]+ *)
    assignment (Cat (Lit (T "max_")) (Plus is_name_char)) integer;
    (* min_[a-z_]+ *)
    assignment (Cat (Lit (T "min_")) (Plus is_name_char)) number;
    (* epochs?|iterations?|batch_size|hidden_size|num_layers|dropout|
       threshold|tolerance|k|C|degree *)
    assignment
      (alt [Cat (Lit (T "epoch")) (Opt "s"%char);
            Cat (Lit (T "iteration")) (Opt "s"%char);
            Lit (T "batch_size"); Lit (T "hidden_size"); Lit (T "num_layers");
            Lit (T "dropout"); Lit (T "threshold"); Lit (T "tolerance");
            Lit (T "k"); Lit (T "C"); Lit (T "degree")])
      number;
    (* test_size|train_size|validation_size|split_ratio|ratio *)
    assignment
      (words ["test_size"; "train_size"; "validation_size"; "split_ratio";
              "ratio"])
      number;
    (* random_state|seed *)
    assignment (words ["random_state"; "seed"]) integer;
    (* [a-z_]*(?:_size|_count|_num|_rate|_ratio|_factor|_weight) *)
    assignment
      (Cat (Star is_name_char)
           (words ["_size"; "_count"; "_num"; "_rate"; "_ratio"; "_factor";
                   "_weight"]))
      number ].

(** [any(x in name_lower for x in xs)] *)
Definition any_in (name_lower : text) (xs : list string) : bool :=
  existsb (fun x => contains name_lower (T x)) xs.

Definition set_range (param : Param) (mn mx st : pynum) : Param :=
  mkParameter (name param) (value param) (line_number param)
              (original_text param) (param_type param) mn mx st.

(** [apply_parameter_hints] *)
Definition apply_parameter_hints (param : Param) : Param :=
  let name_lower := lower_text (name param) in
  if any_in name_lower ["rate"; "alpha"; "eta"; "epsilon"] then
    set_range param (PFloat 0.0001%Q) (PFloat 1%Q)
      (if py_lt (value param) (PFloat 0.01%Q)
       then PFloat 0.0001%Q else PFloat 0.001%Q)
  else if any_in name_lower ["dropout"; "ratio"; "size"]
          && py_le (value param) (PInt 1) then
    set_range param (PFloat 0%Q) (PFloat 1%Q) (PFloat 0.05%Q)
  else if any_in name_lower ["epoch"; "iteration"; "batch"] then
    set_range param (PInt 1) (PInt (Z.max 1000 (py_int (value param) * 5)))
      (if py_lt (value param) (PInt 100) then PInt 1 else PInt 10)
  else if any_in name_lower ["depth"; "layer"; "level"] then
    set_range param (PInt 1) (PInt 50) (PInt 1)
  else if startswith name_lower (T "n_") || startswith name_lower (T "num_") then
    set_range param (PInt 1) (PInt (Z.max 100 (py_int (value param) * 5)))
      (PInt 1)
  else if any_in name_lower ["random"; "seed"] then
    set_range param (PInt 0) (PInt 9999) (PInt 1)
  else if text_in name_lower [T "c"; T "lambda"; T "lambda_"] then
    set_range param (PFloat 0.001%Q) (PFloat 100%Q) (PFloat 0.1%Q)
  else if any_in name_lower ["momentum"; "decay"; "beta"; "gamma"] then
    set_range param (PFloat 0%Q) (PFloat 1%Q) (PFloat 0.01%Q)
  else param.

(** The body of the loop over [PARAMETER_PATTERNS] for one line: [None]
    when the loop ends without a [break], the parameter appended before
    the [break] otherwise.  A match whose name was seen already goes on
    with the next pattern ([continue]). *)
Fixpoint scan_patterns (patterns : list regex) (seen_names : list text)
    (line_num : nat) (line : text) : option Param :=
  match patterns with
  | [] => None
  | pattern :: rest =>
      match re_match pattern line with
      | Some [indent; name; value_str] =>
          if text_in name seen_names
          then scan_patterns rest seen_names line_num line
          else
            let '(param_type, value) :=
              if contains value_str (T ".")
              then (T "float", PFloat (parse_float value_str))
              else (T "int", PInt (parse_digits value_str)) in
            let original_text := name ++ T " = " ++ value_str in
            Some (apply_parameter_hints
                    (new_Parameter name value line_num original_text
                                   param_type))
      | _ => scan_patterns rest seen_names line_num line
      end
  end.

(** The loop over the enumerated lines; [seen_names] is the set built so
    far, and the result is what the loop appends to [parameters]. *)
Fixpoint scan_lines (lines : list text) (line_num : nat)
    (seen_names : list text) : list Param :=
  match lines with
  | [] => []
  | line :: rest =>
      let stripped := strip line in
      if match stripped with [] => true | _ => false end
         || startswith stripped (T "#")
      then scan_lines rest (S line_num) seen_names
      else
        match scan_patterns PARAMETER_PATTERNS seen_names line_num line with
        | Some param =>
            param :: scan_lines rest (S line_num) (name param :: seen_names)
        | None => scan_lines rest (S line_num) seen_names
        end
  end.

(** [detect_parameters] *)
Definition detect_parameters (code : text) : list Param :=
  scan_lines (split newline code) 1 [].

(** [has_adjustable_parameters] *)
Definition has_adjustable_parameters (code : text) : bool :=
  0 <? length (detect_parameters code).

(** The formatting of a new value in [update_code_with_parameters]. *)
Definition format_value (new_value : pynum) : text :=
  if is_float new_value then
    if py_eq new_value (PInt (py_int new_value))
    then str_int (py_int new_value)
    else rstrip_by (ascii_eqb "."%char)
           (rstrip_by (ascii_eqb "0"%char) (format_6f (num_Q new_value)))
  else str_int (py_int new_value).

(** The pattern built for one name: [re.escape] makes the name a literal. *)
Definition update_pattern (param_name : text) : regex :=
  assignment (Lit param_name) number.

(** The loop over the enumerated lines for one [(param_name, new_value)]:
    the first line that matches is overwritten, and the loop breaks. *)
Fixpoint update_first (param_name : text) (new_value : pynum)
    (lines : list text) : list text :=
  match lines with
  | [] => []
  | line :: rest =>
      match re_match (update_pattern param_name) line with
      | Some groups =>
          let indent := nth 0 groups [] in
          let value_str := format_value new_value in
          (indent ++ param_name ++ T " = " ++ value_str) :: rest
      | None => line :: update_first param_name new_value rest
      end
  end.

Definition update_lines (parameters : list (text * pynum))
    (lines : list text) : list text :=
  fold_left (fun ls kv => update_first (fst kv) (snd kv) ls) parameters lines.

(** [update_code_with_parameters] *)
Definition update_code_with_parameters (code : text)
    (parameters : list (text * pynum)) : text :=
  join newline (update_lines parameters (split newline code)).

(* ================================================================== *)
(** * The execution engine: [utils/code_executor.py] *)
(* ================================================================== *)

(** Python values, as far as the executor looks at them. *)
Inductive pyval : Type :=
| VNone
| VInt (z : Z)
| VStr (s : text)
| VObj (id : nat).               (* any other object: a module, a table *)

(** The keys a script can put into its global namespace: names, and
    through [globals()] also keys that are not strings. *)
Inductive pykey : Type :=
| KStr (s : text)
| KInt (z : Z).

Definition namespace : Type := list (pykey * pyval).

Definition key_eqb (a b : pykey) : bool :=
  match a, b with
  | KStr x, KStr y => text_eqb x y
  | KInt x, KInt y => Z.eqb x y
  | _, _ => false
  end.

(** [ns.get(k)] *)
Fixpoint ns_get (ns : namespace) (k : pykey) : option pyval :=
  match ns with
  | [] => None
  | (k', v) :: rest => if key_eqb k k' then Some v else ns_get rest k
  end.

(** [ns[k] = v]: an existing key keeps its place, a new one goes last. *)
Fixpoint ns_set (ns : namespace) (k : pykey) (v : pyval) : namespace :=
  match ns with
  | [] => [(k, v)]
  | (k', v') :: rest =>
      if key_eqb k k' then (k', v) :: rest else (k', v') :: ns_set rest k v
  end.

(** Where an exception class stands with respect to the two handlers of
    [execute_code]. *)
Inductive exc_kind : Type :=
| SyntaxErrorKind                (* SyntaxError and its subclasses *)
| ExceptionKind                  (* any other subclass of Exception *)
| BaseExceptionKind.             (* SystemExit, KeyboardInterrupt, ... *)

(** An exception, as far as the executor looks at it.  [str(e)] runs the
    [__str__] of its class, which a script can define: it gives a text or
    raises in its turn. *)
#[warnings="-register-all"] Inductive pyexc : Type := mkExc {
  exc_class : text;              (* type(e).__name__ *)
  exc_kind_of : exc_kind;
  exc_str : text + pyexc;        (* str(e) *)
  exc_msg : text;                (* the message on the last traceback line *)
  exc_frames : text              (* the stack entries that traceback prints *)
}.

(** [traceback.format_exc()] for the exception being handled. *)
Definition format_exc (e : pyexc) : text :=
  T "Traceback (most recent call last):" ++ [newline]
  ++ exc_frames e
  ++ exc_class e
  ++ match exc_msg e with [] => [] | _ => T ": " ++ exc_msg e end
  ++ [newline].

(** How running a piece of code ends: normally, with an exception, or not
    at all (it loops for ever, or ends the process). *)
Inductive completion : Type :=
| Done
| Raise (e : pyexc)
| Diverge.

(** The locals of the running call of [execute_code] that differ between
    two calls on the same script and data.  The script runs inside that
    call and reaches its frame with [sys._getframe(1)]: it can read these
    locals, and it can change the objects that the other locals hold (the
    two captured streams, which are also [sys.stdout] and [sys.stderr], and
    the dictionary [variables]).  It cannot rebind a local: the model
    follows CPython up to 3.12, where the locals seen through a frame are a
    copy. *)
Record locals : Type := mkLocals {
  local_timeout : Z;
  local_allowed_modules : option (list text)
}.

(** What [exec(code, ns)] does: what the two captured streams hold when it
    ends and whether the script closed them, the namespace as it leaves
    it, what it put into the dictionary [variables] of the caller, and how
    it ends. *)
Record effects : Type := mkEffects {
  written_out : text;
  written_err : text;
  closed_out : bool;
  closed_err : bool;
  final_ns : namespace;
  caller_variables : list (text * pyval);
  ending : completion
}.

(** What [__import__(name)] comes to. *)
Inductive import_outcome : Type :=
| Imported (m : pyval)
| NotInstalled                   (* an ImportError *)
| ImportRaises (e : pyexc).      (* any other exception *)

(** The Python interpreter and its installed packages.  They are not part
    of the repository: the executor is stated over any of them. *)
Record Python : Type := mkPython {
  code_object : Type;
  import_module : text -> import_outcome;
  (** The copy of [__builtins__]. *)
  py_builtins : pyval;
  (** [compile(code, '<user_code>', 'exec')]: the warnings it writes to
      [sys.stderr], and a code object or the exception raised. *)
  py_compile : text -> text * (code_object + pyexc);
  (** [exec(compiled_code, exec_namespace)] inside a call with the given
      locals. *)
  py_exec : code_object -> locals -> namespace -> effects
}.

(** [__import__(name)] under [except ImportError: pass]: the module, or
    [None] when nothing is bound. *)
Definition py_import (py : Python) (module : text) : option pyval :=
  match import_module py module with
  | Imported m => Some m
  | NotInstalled | ImportRaises _ => None
  end.

(** The dictionary that [execute_code] returns. *)
Record result_dict : Type := mkResult {
  success : bool;
  output : text;
  error : option text;
  result : pyval;
  variables : list (text * pyval)
}.

(** What a call of [execute_code] comes to for its caller: it returns its
    dictionary, raises, or does neither. *)
Inductive outcome : Type :=
| Returns (d : result_dict)
| Propagates (e : pyexc)
| Hangs.

(** The libraries that [execute_code] loads, with the names it binds them
    to. *)
Definition preloaded : list (string * string) :=
  [("pd", "pandas"); ("np", "numpy"); ("plt", "matplotlib.pyplot");
   ("sns", "seaborn"); ("sklearn", "sklearn"); ("scipy", "scipy");
   ("plotly", "plotly")].

(** One [try: ns[name] = __import__(module) / except ImportError: pass]. *)
Definition preload (py : Python) (ns : namespace) (nm : string * string)
  : namespace :=
  match py_import py (T (snd nm)) with
  | Some m => ns_set ns (KStr (T (fst nm))) m
  | None => ns
  end.

(** The seven [try] statements in order: the namespace they build, or the
    first exception other than [ImportError], which no handler takes. *)
Fixpoint preload_all (py : Python) (libraries : list (string * string))
    (ns : namespace) : namespace + pyexc :=
  match libraries with
  | [] => inl ns
  | nm :: rest =>
      match import_module py (T (snd nm)) with
      | ImportRaises e => inr e
      | Imported m => preload_all py rest (ns_set ns (KStr (T (fst nm))) m)
      | NotInstalled => preload_all py rest ns
      end
  end.

Definition builtin_names : list text :=
  [T "pd"; T "np"; T "plt"; T "sns"; T "sklearn"; T "scipy"; T "plotly";
   T "df"; T "__builtins__"].

(** A stack entry of [code_executor.py], without the path of the file and
    without the source line that the interpreter prints under it. *)
Definition executor_frame (line : string) (scope : string) : text :=
  T "  File <code_executor.py>, line " ++ T line ++ T ", in " ++ T scope
  ++ [newline].

(** What [k.startswith] raises for a key that is not a string. *)
Definition attribute_error : pyexc :=
  mkExc (T "AttributeError") ExceptionKind
        (inl (T "'int' object has no attribute 'startswith'"))
        (T "'int' object has no attribute 'startswith'")
        (executor_frame "104" "execute_code"
         ++ executor_frame "106" "<dictcomp>").

(** The dict comprehension that collects the user's variables. *)
Fixpoint capture_variables (items : namespace)
  : list (text * pyval) + pyexc :=
  match items with
  | [] => inl []
  | (k, v) :: rest =>
      match k with
      | KInt _ => inr attribute_error
      | KStr s =>
          match capture_variables rest with
          | inr e => inr e
          | inl vars =>
              if negb (startswith s (T "__")) && negb (text_in s builtin_names)
              then inl ((s, v) :: vars)
              else inl vars
          end
      end
  end.

(** An [io.StringIO]: what it holds, and whether it was closed. *)
Record stream : Type := mkStream {
  content : text;
  closed : bool
}.

(** What [getvalue] raises on a closed stream. *)
Definition closed_file_error : pyexc :=
  mkExc (T "ValueError") ExceptionKind
        (inl (T "I/O operation on closed file"))
        (T "I/O operation on closed file")
        (executor_frame "117" "execute_code").

(** [s.getvalue()] *)
Definition getvalue (s : stream) : text + pyexc :=
  if closed s then inr closed_file_error else inl (content s).

(** The state in which control leaves the [try] block. *)
Record attempt : Type := mkAttempt {
  stdout_capture : stream;
  stderr_capture : stream;
  try_result : pyval;
  try_variables : list (text * pyval);
  try_ending : completion
}.

(** The body of the [try] statement, both streams redirected.  [result]
    and [variables] start as [None] and as an empty dictionary; the
    dictionary is the one object of the two that the script can reach. *)
Definition try_block (py : Python) (code : text) (frame : locals)
    (exec_namespace : namespace) : attempt :=
  let result := VNone in
  match py_compile py code with
  | (warnings, inr e) =>
      mkAttempt (mkStream [] false) (mkStream warnings false) result []
                (Raise e)
  | (warnings, inl compiled_code) =>
      let r := py_exec py compiled_code frame exec_namespace in
      let out := mkStream (written_out r) (closed_out r) in
      let err := mkStream (warnings ++ written_err r) (closed_err r) in
      let variables := caller_variables r in
      match ending r with
      | Diverge => mkAttempt out err result variables Diverge
      | Raise e => mkAttempt out err result variables (Raise e)
      | Done =>
          let exec_namespace := final_ns r in
          let result :=
            match ns_get exec_namespace (KStr (T "result")) with
            | Some v => v
            | None =>
                match ns_get exec_namespace (KStr (T "output")) with
                | Some v => v
                | None => result
                end
            end in
          match capture_variables exec_namespace with
          | inl vars => mkAttempt out err result vars Done
          | inr e => mkAttempt out err result variables (Raise e)
          end
      end
  end.

(** The two streams combined. *)
Definition merge_output (stdout_output stderr_output : text) : text :=
  match stderr_output with
  | [] => stdout_output
  | _ => stdout_output ++ [newline] ++ T "[STDERR]" ++ [newline] ++ stderr_output
  end.

(** The namespace handed to [exec] when every import ends well or with an
    [ImportError]: the builtins, the data as [df], and each library that
    can be imported. *)
Definition initial_namespace (py : Python) (data : pyval) : namespace :=
  fold_left (preload py)
    [("pd", "pandas"); ("np", "numpy"); ("plt", "matplotlib.pyplot");
     ("sns", "seaborn"); ("sklearn", "sklearn"); ("scipy", "scipy");
     ("plotly", "plotly")]
    [(KStr (T "__builtins__"), py_builtins py); (KStr (T "df"), data)].

(** The lines after the [try] statement: both streams are read, which
    fails on a stream that the script closed, and the dictionary is
    built. *)
Definition finish (a : attempt) (success : bool) (error_msg : option text)
  : outcome :=
  match getvalue (stdout_capture a) with
  | inr e => Propagates e
  | inl stdout_output =>
      match getvalue (stderr_capture a) with
      | inr e => Propagates e
      | inl stderr_output =>
          Returns (mkResult success (merge_output stdout_output stderr_output)
                            error_msg (try_result a) (try_variables a))
      end
  end.

(** One [except] clause: the message is built from [str(e)], and an
    exception raised by [str(e)] leaves the function. *)
Definition handler (a : attempt) (label : text) (e : pyexc) : outcome :=
  match exc_str e with
  | inr e' => Propagates e'
  | inl s => finish a false (Some (label ++ s ++ [newline] ++ format_exc e))
  end.

(** [execute_code].  Neither [timeout] nor [allowed_modules] is used by the
    function itself. *)
Definition execute_code (py : Python) (code : text) (data : pyval)
    (timeout : Z) (allowed_modules : option (list text)) : outcome :=
  match preload_all py preloaded
          [(KStr (T "__builtins__"), py_builtins py); (KStr (T "df"), data)]
  with
  | inr e => Propagates e
  | inl exec_namespace =>
      let a := try_block py code (mkLocals timeout allowed_modules)
                         exec_namespace in
      match try_ending a with
      | Done => finish a true None
      | Raise e =>
          match exc_kind_of e with
          | SyntaxErrorKind => handler a (T "Syntax Error: ") e
          | ExceptionKind => handler a (T "Error: ") e
          | BaseExceptionKind => Propagates e
          end
      | Diverge => Hangs
      end
  end.
(* ================================================================== *)
(** * A reference interpreter for a fragment of Python *)
(* ================================================================== *)

(** The executor above is stated over any interpreter.  To run it on a
    concrete script one is needed: [Mini.python] gives the behaviour of
    CPython 3.11 on scripts made of the one-line statements below, each
    written exactly as shown, with no package installed.

      NAME = 123                an int literal bound to a fresh name
      print("text")             a plain string literal
      raise ValueError("text")  a builtin exception class, with or without
      raise ValueError          a message
      globals()[1] = 2          an int key put into the global namespace
      while True: pass
      # comment                 and empty lines
      __import__('sys').stdout.close()
      NAME = __import__('sys')._getframe(1).f_locals['timeout']
      __import__('sys')._getframe(1).f_locals['variables']['NAME'] = 123

    The last two reach into the frame of the running [execute_code].  A
    text with a line of another form is reported as a syntax error; the
    examples below use no such text unless CPython rejects it too.  The
    stack entries of a traceback are given without the path of
    [code_executor.py] and without the source lines and markers that the
    interpreter prints under them. *)
Module Mini.

Inductive stmt : Type :=
| SPass
| SAssign (x : text) (n : Z)
| SPrint (t : text)
| SRaise (cls : text) (msg : option text)
| SSetGlobal (k v : Z)
| SLoop
| SCloseStdout
| SReadTimeout (x : text)
| SSetCallerVariable (k : text) (n : Z).

Definition is_ident_start (c : ascii) : bool :=
  let n := code_of c in
  ((65 <=? n) && (n <=? 90)) || ((97 <=? n) && (n <=? 122)) || (n =? 95).

Definition is_ident_char (c : ascii) : bool := is_ident_start c || is_digit c.

(** Printable ASCII other than the double quote and the backslash. *)
Definition is_plain (c : ascii) : bool :=
  let n := code_of c in
  (32 <=? n) && (n <=? 126) && negb (n =? 34) && negb (n =? 92).

Definition keywords : list string :=
  ["False"; "None"; "True"; "and"; "as"; "assert"; "async"; "await";
   "break"; "class"; "continue"; "def"; "del"; "elif"; "else"; "except";
   "finally"; "for"; "from"; "global"; "if"; "import"; "in"; "is";
   "lambda"; "nonlocal"; "not"; "or"; "pass"; "raise"; "return"; "try";
   "while"; "with"; "yield"].

(** The builtin exception classes of the fragment. *)
Definition exception_classes : list (string * exc_kind) :=
  [("SyntaxError", SyntaxErrorKind); ("IndentationError", SyntaxErrorKind);
   ("Exception", ExceptionKind); ("ValueError", ExceptionKind);
   ("TypeError", ExceptionKind); ("RuntimeError", ExceptionKind);
   ("ZeroDivisionError", ExceptionKind); ("AssertionError", ExceptionKind);
   ("IndexError", ExceptionKind);
   ("BaseException", BaseExceptionKind); ("SystemExit", BaseExceptionKind);
   ("KeyboardInterrupt", BaseExceptionKind);
   ("GeneratorExit", BaseExceptionKind)].

Fixpoint class_kind (table : list (string * exc_kind)) (cls : text)
  : option exc_kind :=
  match table with
  | [] => None
  | (n, k) :: rest => if text_eqb cls (T n) then Some k else class_kind rest cls
  end.

(** Names the fragment lets a script bind: identifiers that are neither
    keywords, nor the builtins the fragment calls, nor dunder names. *)
Definition bindable (x : text) : bool :=
  match x with
  | [] => false
  | c :: _ =>
      is_ident_start c && forallb is_ident_char x
      && negb (existsb (fun k => text_eqb x (T k)) keywords)
      && negb (text_in x [T "print"; T "globals"])
      && negb (startswith x (T "__"))
      && match class_kind exception_classes x with Some _ => false | None => true end
  end.

(** A decimal int literal: [0], or digits that do not start with [0]. *)
Definition int_literal (s : text) : option Z :=
  match s with
  | [] => None
  | c :: rest =>
      if forallb is_digit s
         && (negb (ascii_eqb c "0"%char) || match rest with [] => true | _ => false end)
      then Some (parse_digits s) else None
  end.

(** The text between a prefix and a suffix. *)
Definition between (pre suf s : text) : option text :=
  match strip_prefix pre s with
  | None => None
  | Some r =>
      match strip_prefix (rev suf) (rev r) with
      | None => None
      | Some m => Some (rev m)
      end
  end.

Definition string_literal (s : text) : option text :=
  match between [quote] [quote] s with
  | Some t => if forallb is_plain t then Some t else None
  | None => None
  end.

Definition parse_raise (r : text) : option stmt :=
  let cls := take_while is_ident_char r in
  let rest := skipn (length cls) r in
  match class_kind exception_classes cls with
  | None => None
  | Some _ =>
      match rest with
      | [] => Some (SRaise cls None)
      | _ =>
          match between (T "(") (T ")") rest with
          | None => None
          | Some lit =>
              match string_literal lit with
              | Some t => Some (SRaise cls (Some t))
              | None => None
              end
          end
      end
  end.

Definition parse_assign (line : text) : option stmt :=
  let x := take_while is_ident_char line in
  match strip_prefix (T " = ") (skipn (length x) line) with
  | None => None
  | Some rhs =>
      match int_literal rhs with
      | Some n => if bindable x then Some (SAssign x n) else None
      | None => None
      end
  end.

Definition parse_set_global (line : text) : option stmt :=
  match strip_prefix (T "globals()[") line with
  | None => None
  | Some r =>
      let k := take_while is_digit r in
      match strip_prefix (T "] = ") (skipn (length k) r) with
      | None => None
      | Some rhs =>
          match int_literal k, int_literal rhs with
          | Some kz, Some vz => Some (SSetGlobal kz vz)
          | _, _ => None
          end
      end
  end.

Definition frame_locals : text := T "__import__('sys')._getframe(1).f_locals".

Definition parse_read_timeout (line : text) : option stmt :=
  let x := take_while is_ident_char line in
  match strip_prefix (T " = " ++ frame_locals ++ T "['timeout']")
                     (skipn (length x) line) with
  | Some [] => if bindable x then Some (SReadTimeout x) else None
  | _ => None
  end.

Definition parse_set_caller_variable (line : text) : option stmt :=
  match strip_prefix (frame_locals ++ T "['variables']['") line with
  | None => None
  | Some r =>
      let k := take_while is_ident_char r in
      match strip_prefix (T "'] = ") (skipn (length k) r) with
      | None => None
      | Some rhs =>
          match int_literal rhs with
          | Some n => Some (SSetCallerVariable k n)
          | None => None
          end
      end
  end.

Definition parse_stmt (line : text) : option stmt :=
  match line with
  | [] => Some SPass
  | c :: rest =>
      if ascii_eqb c "#"%char
      then if forallb (fun c => is_plain c || (code_of c =? 34) || (code_of c =? 92)) rest
           then Some SPass else None
      else if text_eqb line (T "while True: pass") then Some SLoop
      else if text_eqb line (T "__import__('sys').stdout.close()")
      then Some SCloseStdout
      else
        match strip_prefix (T "raise ") line with
        | Some r => parse_raise r
        | None =>
            match between (T "print(") (T ")") line with
            | Some lit =>
                match string_literal lit with
                | Some t => Some (SPrint t)
                | None => None
                end
            | None =>
                match parse_set_global line with
                | Some s => Some s
                | None =>
                    match parse_set_caller_variable line with
                    | Some s => Some s
                    | None =>
                        match parse_read_timeout line with
                        | Some s => Some s
                        | None => parse_assign line
                        end
                    end
                end
            end
        end
  end.

(** The lines of a script as statements, or the number and the text of the
    first line outside the fragment. *)
Fixpoint parse_lines (lines : list text) (line_num : nat)
  : list (nat * stmt) + (nat * text) :=
  match lines with
  | [] => inl []
  | line :: rest =>
      match parse_stmt line with
      | None => inr (line_num, line)
      | Some s =>
          match parse_lines rest (S line_num) with
          | inl prog => inl ((line_num, s) :: prog)
          | inr bad => inr bad
          end
      end
  end.

Definition user_code_line (line_num : nat) : text :=
  T "  File " ++ [quote] ++ T "<user_code>" ++ [quote] ++ T ", line "
  ++ str_int (Z.of_nat line_num).

Definition syntax_error (line_num : nat) (line : text) : pyexc :=
  mkExc (T "SyntaxError") SyntaxErrorKind
        (inl (T "invalid syntax (<user_code>, line "
              ++ str_int (Z.of_nat line_num) ++ T ")"))
        (T "invalid syntax")
        (executor_frame "93" "execute_code"
         ++ user_code_line line_num ++ [newline]
         ++ T "    " ++ line ++ [newline]).

Definition compile (code : text) : text * (list (nat * stmt) + pyexc) :=
  match parse_lines (split newline code) 1 with
  | inl prog => ([], inl prog)
  | inr (line_num, line) => ([], inr (syntax_error line_num line))
  end.

Definition kind_of_class (cls : text) : exc_kind :=
  match class_kind exception_classes cls with
  | Some k => k
  | None => ExceptionKind
  end.

(** [str(e)] and the message of the last traceback line for an exception
    raised with or without a message.  A [SyntaxError] without a message
    prints as [None] and as [<no detail available>]. *)
Definition str_of_raised (cls : text) (msg : option text) : text :=
  match msg, kind_of_class cls with
  | Some t, _ => t
  | None, SyntaxErrorKind => T "None"
  | None, _ => []
  end.

Definition detail_of_raised (cls : text) (msg : option text) : text :=
  match msg, kind_of_class cls with
  | Some t, _ => t
  | None, SyntaxErrorKind => T "<no detail available>"
  | None, _ => []
  end.

Definition raised (line_num : nat) (cls : text) (msg : option text) : pyexc :=
  mkExc cls (kind_of_class cls)
        (inl (str_of_raised cls msg)) (detail_of_raised cls msg)
        (executor_frame "94" "execute_code"
         ++ user_code_line line_num ++ T ", in <module>" ++ [newline]).

(** The state of a run: what the captured [sys.stdout] holds and whether
    it is closed, the namespace, and the [variables] of the caller. *)
Record state : Type := mkState {
  st_out : text;
  st_closed : bool;
  st_ns : namespace;
  st_variables : list (text * pyval)
}.

Definition ends (st : state) (c : completion) : effects :=
  mkEffects (st_out st) [] (st_closed st) false (st_ns st) (st_variables st) c.

Fixpoint set_variable (vars : list (text * pyval)) (k : text) (v : pyval)
  : list (text * pyval) :=
  match vars with
  | [] => [(k, v)]
  | (k', v') :: rest =>
      if text_eqb k k' then (k', v) :: rest
      else (k', v') :: set_variable rest k v
  end.

(** Running the statements in order. *)
Fixpoint exec_from (prog : list (nat * stmt)) (frame : locals) (st : state)
  : effects :=
  match prog with
  | [] => ends st Done
  | (line_num, s) :: rest =>
      match s with
      | SPass => exec_from rest frame st
      | SAssign x n =>
          exec_from rest frame
            (mkState (st_out st) (st_closed st)
                     (ns_set (st_ns st) (KStr x) (VInt n)) (st_variables st))
      | SPrint t =>
          if st_closed st
          then ends st (Raise (raised line_num (T "ValueError")
                                 (Some (T "I/O operation on closed file"))))
          else exec_from rest frame
                 (mkState (st_out st ++ t ++ [newline]) (st_closed st)
                          (st_ns st) (st_variables st))
      | SRaise cls msg => ends st (Raise (raised line_num cls msg))
      | SSetGlobal k v =>
          exec_from rest frame
            (mkState (st_out st) (st_closed st)
                     (ns_set (st_ns st) (KInt k) (VInt v)) (st_variables st))
      | SLoop => ends st Diverge
      | SCloseStdout =>
          exec_from rest frame
            (mkState (st_out st) true (st_ns st) (st_variables st))
      | SReadTimeout x =>
          exec_from rest frame
            (mkState (st_out st) (st_closed st)
                     (ns_set (st_ns st) (KStr x) (VInt (local_timeout frame)))
                     (st_variables st))
      | SSetCallerVariable k n =>
          exec_from rest frame
            (mkState (st_out st) (st_closed st) (st_ns st)
                     (set_variable (st_variables st) k (VInt n)))
      end
  end.

Definition exec (prog : list (nat * stmt)) (frame : locals) (ns : namespace)
  : effects :=
  exec_from prog frame (mkState [] false ns []).

Definition python : Python :=
  mkPython (list (nat * stmt)) (fun _ => NotInstalled) (VObj 0) compile exec.

End Mini.

(* ================================================================== *)
(** * Notions used to state the properties *)
(* ================================================================== *)

(** The locals of a call with the given budget and module list. *)
Definition frame_of (timeout : Z) (allowed_modules : option (list text))
  : locals :=
  mkLocals timeout allowed_modules.

(** The first exception other than [ImportError] that loading the
    libraries raises, if any: the call then ends before it gets to the
    script. *)
Fixpoint first_import_error (py : Python) (libraries : list (string * string))
  : option pyexc :=
  match libraries with
  | [] => None
  | nm :: rest =>
      match import_module py (T (snd nm)) with
      | ImportRaises e => Some e
      | Imported _ | NotInstalled => first_import_error py rest
      end
  end.

Definition preload_error (py : Python) : option pyexc :=
  first_import_error py preloaded.

(** What compiling and running the script comes to in a call: the warnings
    of the compiler, and the effects of the run or the exception of the
    compiler. *)
Definition script_run (py : Python) (code : text) (data : pyval)
    (timeout : Z) (allowed_modules : option (list text))
  : text * (effects + pyexc) :=
  match py_compile py code with
  | (w, inr e) => (w, inr e)
  | (w, inl c) =>
      (w, inl (py_exec py c (frame_of timeout allowed_modules)
                       (initial_namespace py data)))
  end.

(** The [try] statement of a call that gets to it. *)
Definition script_attempt (py : Python) (code : text) (data : pyval)
    (timeout : Z) (allowed_modules : option (list text)) : attempt :=
  try_block py code (frame_of timeout allowed_modules)
            (initial_namespace py data).

(** How compiling and then running the script ends, before [execute_code]
    looks at the namespace; [None] when the call does not get to the
    script. *)
Definition script_ending (py : Python) (code : text) (data : pyval)
    (timeout : Z) (allowed_modules : option (list text))
  : option completion :=
  match preload_error py with
  | Some _ => None
  | None =>
      match script_run py code data timeout allowed_modules with
      | (_, inr e) => Some (Raise e)
      | (_, inl r) => Some (ending r)
      end
  end.




(** The namespace the script leaves behind when it compiles. *)
Definition script_namespace (py : Python) (code : text) (data : pyval)
    (timeout : Z) (allowed_modules : option (list text)) : namespace :=
  match script_run py code data timeout allowed_modules with
  | (_, inr _) => initial_namespace py data
  | (_, inl r) => final_ns r
  end.

(** What the script put into the dictionary [variables] of the caller,
    through the caller's frame. *)
Definition script_caller_variables (py : Python) (code : text) (data : pyval)
    (timeout : Z) (allowed_modules : option (list text))
  : list (text * pyval) :=
  match script_run py code data timeout allowed_modules with
  | (_, inr _) => []
  | (_, inl r) => caller_variables r
  end.



(** The two labels of [execute_code]. *)
Definition syntax_label : text := T "Syntax Error: ".
Definition error_label : text := T "Error: ".








(** Scripts that reach into the frame of the caller. *)
Definition script_close_stdout : text := T "__import__('sys').stdout.close()".




(** ** The language of a pattern

    [accepts r w g]: the pattern [r] matches exactly the text [w], its
    capturing groups holding the texts [g].  This is what [run] computes:
    see [run_spec]. *)
Fixpoint accepts (r : regex) (w : text) (g : list text) : Prop :=
  match r with
  | Never => False
  | Eps => w = [] /\ g = []
  | Lit l => lower_text w = lower_text l /\ g = []
  | Star p => forallb p w = true /\ g = []
  | Plus p => forallb p w = true /\ w <> [] /\ g = []
  | Opt c => (w = [] \/ exists c', w = [c'] /\ lower c' = lower c) /\ g = []
  | Cat a b =>
      exists w1 w2 g1 g2,
        w = w1 ++ w2 /\ g = g1 ++ g2 /\ accepts a w1 g1 /\ accepts b w2 g2
  | Alt a b => accepts a w g \/ accepts b w g
  | Group a => exists g0, g = w :: g0 /\ accepts a w g0
  end.

(** A line matches a pattern when the pattern accepts a prefix of it. *)
Definition matches (r : regex) (line : text) : Prop :=
  exists w g rest, line = w ++ rest /\ accepts r w g.

(** ** The parts of an assignment line *)

(** A character that is neither blank nor the equals sign. *)
Definition is_solid (c : ascii) : bool :=
  negb (is_space c) && negb (ascii_eqb c "="%char).

(** A text that can stand as the target of an assignment pattern: not
    empty, with no blank and no equals sign.  Every identifier is one. *)
Definition solid (n : text) : Prop := n <> [] /\ forallb is_solid n = true.

(** The leading blanks of a line, the text that follows them up to a blank
    or an equals sign, and what comes after the equals sign and its
    blanks. *)
Definition indent_of (line : text) : text := take_while is_space line.

Definition target_of (line : text) : text :=
  take_while is_solid (drop_while is_space line).

Definition rhs_of (line : text) : option text :=
  match drop_while is_space (drop_while is_solid (drop_while is_space line)) with
  | c :: r => if ascii_eqb c "="%char then Some (drop_while is_space r) else None
  | [] => None
  end.

(** A text starts like a value when its first character is a digit or a
    point. *)
Definition starts_value (v : text) : bool :=
  match v with
  | c :: _ => is_digit c || ascii_eqb c "."%char
  | [] => false
  end.

(** The name part of a pattern only ever matches solid texts and has no
    group of its own; the value part is one of the two of the source. *)
Definition name_shape (N : regex) : Prop :=
  forall n gn, accepts N n gn -> solid n /\ gn = [].

Definition value_shape (V : regex) : Prop := V = number \/ V = integer.

(** Equality of names up to letter case. *)
Definition same_name (a b : text) : Prop := lower_text a = lower_text b.

(** ** Values *)

(** A number that is not negative. *)
Definition nonneg (v : pynum) : Prop := (0 <= num_Q v)%Q.

(** The characters of an unsigned decimal numeral. *)
Definition is_numeral_char (c : ascii) : bool :=
  is_digit c || ascii_eqb c "."%char.

(** ** Updates *)

(** The line that [update_code_with_parameters] writes. *)
Definition assignment_line (indent name : text) (v : pynum) : text :=
  indent ++ name ++ T " = " ++ format_value v.

(** An update mapping whose names are solid and whose values are not
    negative. *)
Definition plain_updates (u : list (text * pynum)) : Prop :=
  Forall (fun kv => solid (fst kv) /\ nonneg (snd kv)) u.

Definition newline_free (l : text) : Prop := ~ In newline l.

(** Scripts and mappings used as concrete inputs. *)
Definition two_seeds : text := join newline [T "seed = 1"; T "seed = 2"].

Definition seed_in_two_cases : text := join newline [T "Seed = 1"; T "seed = 2"].

(** ** Detection *)

(** Every character. *)
Definition all_chars : list ascii := map ascii_of_nat (List.seq 0 256).

(** A pattern without groups that matches nothing but name characters. *)
Fixpoint name_only (r : regex) : bool :=
  match r with
  | Never | Eps => true
  | Lit l => forallb is_name_char l
  | Star p | Plus p =>
      forallb (fun c => implb (p c) (is_name_char c)) all_chars
  | Opt c => is_name_char c
  | Cat a b | Alt a b => name_only a && name_only b
  | Group _ => false
  end.

(** A pattern that matches the empty text. *)
Fixpoint nullable (r : regex) : bool :=
  match r with
  | Never | Plus _ => false
  | Eps | Star _ | Opt _ => true
  | Lit l => match l with [] => true | _ => false end
  | Cat a b => nullable a && nullable b
  | Alt a b => nullable a || nullable b
  | Group a => nullable a
  end.

(** The shape of the patterns of [PARAMETER_PATTERNS]. *)
Definition detection_pattern (P : regex) : Prop :=
  exists N V,
    P = assignment N V /\ name_only N = true /\ nullable N = false
    /\ value_shape V.

(** The lines that [detect_parameters] skips: blank lines and comments. *)
Definition skipped (line : text) : bool :=
  match strip line with [] => true | _ => false end
  || startswith (strip line) (T "#").

(** A line on which some pattern of the parser finds the name [nm]. *)
Definition detectable (line nm : text) : Prop :=
  skipped line = false
  /\ exists P g,
       In P PARAMETER_PATTERNS /\ re_match P line = Some g /\ nth 1 g [] = nm.

(** An integral value. *)
Definition whole (v : pynum) : Prop := py_eq v (PInt (py_int v)) = true.

(** The value read from the text of the value group. *)
Definition read_value (value_str : text) : pynum :=
  if contains value_str (T ".") then PFloat (parse_float value_str)
  else PInt (parse_digits value_str).

(** ** Numerals within the range of the interpreter *)

(** The least number that [float] reads as infinity: half way between the
    largest float and [2^1024]. *)
Definition float_overflow : Q := inject_Z (2 ^ 1024 - 2 ^ 970).

(** The most digits that [int] takes from a text, as CPython ships. *)
Definition int_max_str_digits : nat := 4300.

(** No text that a pattern of the parser captures as a value on a line of
    the script is out of range: with a point it denotes a number below
    [float_overflow], without one it has at most [int_max_str_digits]
    digits.  [detect_parameters] then holds finite numbers only, as the
    model does, and its conversions do not raise. *)
Definition numerals_in_range (code : text) : bool :=
  forallb
    (fun line =>
       forallb
         (fun P =>
            match re_match P line with
            | Some g =>
                if contains (nth 2 g []) (T ".")
                then Qltb (parse_float (nth 2 g [])) float_overflow
                else length (nth 2 g []) <=? int_max_str_digits
            | None => true
            end)
         PARAMETER_PATTERNS)
    (split newline code).

(** A number with at most six digits after the point. *)
Definition six_decimals (v : pynum) : Prop :=
  exists m : Z, (num_Q v * inject_Z 1000000 == inject_Z m)%Q.

(** A name that detection reads with a pattern that takes a point: on the
    line [name = 0.5] it gives a float. *)
Definition reads_decimals (nm : text) : bool :=
  match scan_patterns PARAMETER_PATTERNS [] 1 (nm ++ T " = 0.5") with
  | Some q => text_eqb (param_type q) (T "float")
  | None => false
  end.

Definition learning_rate_script : text := T "learning_rate = 0.01".

(** The parameter that [detect_parameters] finds in it. *)
Definition learning_rate_param : Param :=
  mkParameter (T "learning_rate") (PFloat 0.01%Q) 1
              (T "learning_rate = 0.01") (T "float")
              (PFloat 0.0001%Q) (PFloat 1%Q) (PFloat 0.001%Q).

Definition large_learning_rate : text := T "learning_rate = 5".

Definition point_then_int : text := join newline [T "n_x = .5"; T "n_x = 3"].

Definition three_clusters : text := T "n_clusters = 3".

(** The parameter that [detect_parameters] finds in [n_clusters = 3]. *)
Definition three_clusters_param : Param :=
  mkParameter (T "n_clusters") (PInt 3) 1 (T "n_clusters = 3") (T "int")
              (PInt 1) (PInt 100) (PInt 1).

(** ** What the executor collects *)

(** All keys of a namespace are strings. *)
Definition string_keys_only (ns : namespace) : bool :=
  forallb (fun kv => match fst kv with KStr _ => true | KInt _ => false end) ns.

(** The bindings under string keys that are neither dunder names nor
    pre-bound names, in the order of the namespace. *)
Fixpoint user_variables (ns : namespace) : list (text * pyval) :=
  match ns with
  | [] => []
  | (KStr s, v) :: rest =>
      if negb (startswith s (T "__")) && negb (text_in s builtin_names)
      then (s, v) :: user_variables rest
      else user_variables rest
  | (KInt _, _) :: rest => user_variables rest
  end.

(** The value under [result], else under [output], else [None]. *)
Definition looked_up_result (ns : namespace) : pyval :=
  match ns_get ns (KStr (T "result")) with
  | Some v => v
  | None =>
      match ns_get ns (KStr (T "output")) with
      | Some v => v
      | None => VNone
      end
  end.

(* ================================================================== *)
(** * Facts about texts *)
(* ================================================================== *)

Section TextFacts.

Lemma strip_prefix_app (p s : text) : strip_prefix p (p ++ s) = Some s.
Proof.
  induction p as [|c p IH]; simpl; [reflexivity|].
  unfold ascii_eqb. now rewrite Ascii.eqb_refl.
Qed.

Lemma startswith_app (p s : text) : startswith (p ++ s) p = true.
Proof. unfold startswith. now rewrite strip_prefix_app. Qed.

Lemma contains_startswith (s x : text) :
  startswith s x = true -> contains s x = true.
Proof. destruct s; simpl; now intros ->. Qed.

Lemma contains_here (x s : text) : contains (x ++ s) x = true.
Proof. apply contains_startswith, startswith_app. Qed.

Lemma contains_later (a s x : text) :
  contains s x = true -> contains (a ++ s) x = true.
Proof.
  intros H. induction a as [|c a IH]; simpl; [exact H|].
  rewrite IH. apply orb_true_r.
Qed.

Lemma contains_mid (a x b : text) : contains (a ++ x ++ b) x = true.
Proof. apply contains_later, contains_here. Qed.

End TextFacts.

(* ================================================================== *)
(** * The matcher and the language of a pattern *)
(* ================================================================== *)

Section Counting.

Variable p : ascii -> bool.

Lemma in_downto1 (k n : nat) : In k (downto1 n) <-> 1 <= k <= n.
Proof.
  induction n as [|n IH]; simpl; [lia|].
  rewrite IH. lia.
Qed.

Lemma in_downto0 (k n : nat) : In k (downto0 n) <-> k <= n.
Proof.
  unfold downto0. rewrite in_app_iff, in_downto1. simpl. lia.
Qed.

Lemma count_while_length (s : text) : count_while p s <= length s.
Proof.
  induction s as [|c s IH]; simpl; [lia|]. destruct (p c); simpl; lia.
Qed.

Lemma count_while_firstn (s : text) (k : nat) :
  k <= count_while p s -> forallb p (firstn k s) = true.
Proof.
  revert k. induction s as [|c s IH]; intros [|k]; simpl; auto.
  destruct (p c) eqn:E; simpl; [|lia].
  intros H. apply IH. lia.
Qed.

Lemma count_while_app (w s : text) :
  forallb p w = true -> length w <= count_while p (w ++ s).
Proof.
  induction w as [|c w IH]; simpl; [lia|].
  intros H. apply andb_true_iff in H as [-> H]. specialize (IH H). lia.
Qed.

Lemma count_while_stop (w s : text) :
  forallb p w = true ->
  match s with [] => True | c :: _ => p c = false end ->
  count_while p (w ++ s) = length w.
Proof.
  intros Hw Hs. induction w as [|c w IH]; simpl in *.
  - destruct s as [|c s]; simpl; [reflexivity|]. now rewrite Hs.
  - apply andb_true_iff in Hw as [-> Hw]. now rewrite IH.
Qed.

Lemma take_while_stop (w s : text) :
  forallb p w = true ->
  match s with [] => True | c :: _ => p c = false end ->
  take_while p (w ++ s) = w /\ drop_while p (w ++ s) = s.
Proof.
  intros Hw Hs. induction w as [|c w IH]; simpl in *.
  - destruct s as [|c s]; simpl; [auto|]. now rewrite Hs.
  - apply andb_true_iff in Hw as [-> Hw].
    destruct (IH Hw) as [-> ->]. auto.
Qed.

Lemma take_drop_while (s : text) : take_while p s ++ drop_while p s = s.
Proof.
  induction s as [|c s IH]; simpl; [reflexivity|].
  destruct (p c); simpl; [now rewrite IH | reflexivity].
Qed.

Lemma take_while_all (s : text) : forallb p (take_while p s) = true.
Proof.
  induction s as [|c s IH]; simpl; [reflexivity|].
  destruct (p c) eqn:E; simpl; [now rewrite E | reflexivity].
Qed.

Lemma drop_while_head (s : text) :
  match drop_while p s with [] => True | c :: _ => p c = false end.
Proof.
  induction s as [|c s IH]; simpl; [exact I|].
  destruct (p c) eqn:E; [exact IH | exact E].
Qed.

End Counting.

Lemma skipn_length_app (A : Type) (w s : list A) : skipn (length w) (w ++ s) = s.
Proof. induction w; simpl; auto. Qed.

Lemma firstn_length_app (A : Type) (w s : list A) : firstn (length w) (w ++ s) = w.
Proof. induction w; simpl; [reflexivity | now f_equal]. Qed.

Lemma strip_prefix_ci_spec (l s s' : text) :
  strip_prefix_ci l s = Some s' <->
  exists w, s = w ++ s' /\ lower_text w = lower_text l.
Proof.
  revert s. induction l as [|x l IH]; intros s; simpl.
  - split.
    + intros [= ->]. now exists [].
    + intros (w & -> & H). destruct w; [reflexivity | discriminate].
  - destruct s as [|y s].
    + split; [discriminate|]. intros (w & E & H).
      destruct w; [discriminate H | discriminate E].
    + unfold ascii_eqb. destruct (Ascii.eqb_spec (lower x) (lower y)) as [e|n].
      * rewrite IH. split.
        -- intros (w & -> & H). exists (y :: w). simpl. split; congruence.
        -- intros (w & E & H). destruct w as [|c w]; [discriminate H|].
           simpl in E, H. injection E as <- ->. injection H as _ H. eauto.
      * split; [discriminate|]. intros (w & E & H).
        destruct w as [|c w]; [discriminate H|].
        simpl in E, H. injection E as <- ->. injection H as H _. congruence.
Qed.

(** The matcher is sound and complete for the language of the pattern: its
    ways are the splits of the input into an accepted text and a rest. *)
Theorem run_spec (r : regex) (s : text) (g : list text) (s' : text) :
  In (g, s') (run r s) <-> exists w, s = w ++ s' /\ accepts r w g.
Proof.
  revert s g s'. induction r as [| |l|p|p|c|a IHa b IHb|a IHa b IHb|a IHa];
    intros s g s'; simpl.
  - split; [tauto | now intros (w & _ & ?)].
  - split.
    + intros [[= <- <-]|[]]. now exists [].
    + intros (w & -> & -> & ->). now left.
  - destruct (strip_prefix_ci l s) as [t|] eqn:E.
    + split.
      * intros [[= <- <-]|[]]. apply strip_prefix_ci_spec in E as (w & -> & H).
        now exists w.
      * intros (w & -> & H & ->). left.
        assert (E' : strip_prefix_ci l (w ++ s') = Some s')
          by (apply strip_prefix_ci_spec; eauto).
        congruence.
    + split; [intros []|]. intros (w & -> & H & ->).
      assert (E' : strip_prefix_ci l (w ++ s') = Some s')
        by (apply strip_prefix_ci_spec; eauto).
      congruence.
  - rewrite in_map_iff. split.
    + intros (k & [= <- <-] & Hk). apply in_downto0 in Hk.
      exists (firstn k s). rewrite firstn_skipn.
      auto using count_while_firstn.
    + intros (w & -> & H & ->). exists (length w).
      rewrite skipn_length_app, in_downto0. auto using count_while_app.
  - rewrite in_map_iff. split.
    + intros (k & [= <- <-] & Hk). apply in_downto1 in Hk.
      exists (firstn k s). rewrite firstn_skipn.
      repeat split; [apply count_while_firstn; lia|].
      pose proof (count_while_length p s).
      destruct s; simpl in *; [lia|]. destruct k; [lia | discriminate].
    + intros (w & -> & H & N & ->). exists (length w).
      rewrite skipn_length_app, in_downto1. split; [reflexivity|].
      split; [destruct w; simpl; [congruence | lia]|].
      now apply count_while_app.
  - destruct s as [|c' t]; simpl.
    + split.
      * intros [[= <- <-]|[]]. exists []. auto.
      * intros (w & E & _ & ->). symmetry in E.
        apply app_eq_nil in E as [-> ->]. now left.
    + unfold ascii_eqb.
      destruct (Ascii.eqb_spec (lower c) (lower c')) as [e|n]; simpl; split.
      * intros [[= <- <-]|[[= <- <-]|[]]].
        -- exists [c']. eauto 6.
        -- exists []. auto.
      * intros (w & E & [-> |(c'' & -> & H')] & ->); simpl in E.
        -- right; left. congruence.
        -- injection E as <- <-. now left.
      * intros [[= <- <-]|[]]. exists []. auto.
      * intros (w & E & [-> |(c'' & -> & H')] & ->); simpl in E.
        -- left. congruence.
        -- injection E as <- <-. congruence.
  - rewrite in_flat_map. split.
    + intros ([g1 s1] & H1 & H2). apply in_map_iff in H2 as ([g2 s2] & [= <- <-] & H2).
      simpl in H2. apply IHa in H1 as (w1 & -> & A1).
      apply IHb in H2 as (w2 & -> & A2).
      exists (w1 ++ w2). rewrite <- app_assoc. split; [reflexivity|].
      now exists w1, w2, g1, g2.
    + intros (w & -> & w1 & w2 & g1 & g2 & -> & -> & A1 & A2).
      exists (g1, w2 ++ s'). split.
      * apply IHa. exists w1. now rewrite app_assoc.
      * apply in_map_iff. exists (g2, s'). split; [reflexivity|].
        apply IHb. now exists w2.
  - rewrite in_app_iff, IHa, IHb. split.
    + intros [(w & -> & A)|(w & -> & A)]; exists w; auto.
    + intros (w & -> & [A|A]); [left | right]; now exists w.
  - rewrite in_map_iff. split.
    + intros ([g0 t] & [= <- <-] & H). apply IHa in H as (w & -> & A).
      exists w. split; [reflexivity|]. exists g0. split; [|exact A].
      f_equal. rewrite length_app.
      replace (length w + length t - length t) with (length w) by lia.
      apply firstn_length_app.
    + intros (w & -> & g0 & -> & A). exists (g0, s'). split.
      * simpl. f_equal. f_equal. rewrite length_app.
        replace (length w + length s' - length s') with (length w) by lia.
        apply firstn_length_app.
      * apply IHa. now exists w.
Qed.

(** [re.match] finds a match exactly when the line matches. *)
Lemma re_match_some (r : regex) (s : text) (g : list text) :
  re_match r s = Some g -> exists w rest, s = w ++ rest /\ accepts r w g.
Proof.
  unfold re_match. destruct (run r s) as [|[g0 s'] ws] eqn:E; [discriminate|].
  intros [= <-]. simpl.
  assert (H : In (g0, s') (run r s)) by (rewrite E; now left).
  apply run_spec in H as (w & -> & A). eauto.
Qed.

Lemma re_match_none (r : regex) (s : text) :
  re_match r s = None <-> ~ matches r s.
Proof.
  unfold re_match, matches. split.
  - destruct (run r s) as [|w ws] eqn:E; [|discriminate].
    intros _ (w & g & rest & -> & A).
    assert (H : In (g, rest) (run r (w ++ rest))) by (apply run_spec; eauto).
    now rewrite E in H.
  - intros N. destruct (run r s) as [|[g s'] ws] eqn:E; [reflexivity|].
    exfalso. apply N.
    assert (H : In (g, s') (run r s)) by (rewrite E; now left).
    apply run_spec in H as (w & -> & A). eauto.
Qed.

Lemma re_match_matches (r : regex) (s : text) :
  matches r s <-> exists g, re_match r s = Some g.
Proof.
  destruct (re_match r s) as [g|] eqn:E.
  - split; [eauto|]. intros _. apply re_match_some in E as (w & rest & -> & A).
    now exists w, g, rest.
  - apply re_match_none in E. split; [contradiction|]. now intros [g [=]].
Qed.

(* ------------------------------------------------------------------ *)
(** ** Facts about single characters, by enumeration *)

Ltac each_char c := destruct c as [[|] [|] [|] [|] [|] [|] [|] [|]].

Lemma is_space_lower (c : ascii) : is_space (lower c) = is_space c.
Proof. each_char c; reflexivity. Qed.

Lemma is_solid_lower (c : ascii) : is_solid (lower c) = is_solid c.
Proof. each_char c; reflexivity. Qed.

Lemma lower_idem (c : ascii) : lower (lower c) = lower c.
Proof. each_char c; reflexivity. Qed.

Lemma lower_equals (c : ascii) : lower c = "="%char -> c = "="%char.
Proof. each_char c; vm_compute; congruence. Qed.

Lemma lower_point (c : ascii) : lower c = "."%char -> c = "."%char.
Proof. each_char c; vm_compute; congruence. Qed.

Lemma name_char_solid (c : ascii) : is_name_char c = true -> is_solid c = true.
Proof. each_char c; vm_compute; congruence. Qed.

Lemma name_char_lower (c : ascii) : is_name_char (lower c) = is_name_char c.
Proof. each_char c; reflexivity. Qed.

Lemma digit_not_space (c : ascii) : is_digit c = true -> is_space c = false.
Proof. each_char c; vm_compute; congruence. Qed.

Lemma point_not_space : is_space "."%char = false.
Proof. reflexivity. Qed.

Lemma solid_not_space (c : ascii) : is_solid c = true -> is_space c = false.
Proof.
  unfold is_solid. intros H. apply andb_true_iff in H as [H _].
  now apply negb_true_iff.
Qed.

Lemma space_not_solid (c : ascii) : is_space c = true -> is_solid c = false.
Proof. unfold is_solid. now intros ->. Qed.

Lemma starts_value_not_space (v : text) :
  starts_value v = true ->
  match v with [] => False | c :: _ => is_space c = false end.
Proof.
  destruct v as [|c v]; simpl; [discriminate|].
  intros H. apply orb_true_iff in H as [H|H].
  - now apply digit_not_space.
  - unfold ascii_eqb in H. apply Ascii.eqb_eq in H. now subst.
Qed.

(* ------------------------------------------------------------------ *)
(** ** The language of the assignment patterns *)

Lemma forallb_lower (p : ascii -> bool) (a b : text) :
  (forall c, p (lower c) = p c) ->
  lower_text a = lower_text b -> forallb p a = forallb p b.
Proof.
  intros Hp. revert b. induction a as [|x a IH]; intros [|y b]; simpl;
    try discriminate; [reflexivity|].
  intros [= E1 E2]. rewrite <- (Hp x), <- (Hp y), E1. f_equal. now apply IH.
Qed.

Lemma same_name_solid (a b : text) : same_name a b -> solid a -> solid b.
Proof.
  unfold same_name, solid. intros E [N H]. split.
  - destruct b; [|discriminate]. destruct a; [congruence | discriminate].
  - rewrite <- (forallb_lower is_solid a b); auto using is_solid_lower.
Qed.

Lemma accepts_equals (w : text) : lower_text w = lower_text (T "=") -> w = T "=".
Proof.
  destruct w as [|c [|? ?]]; try discriminate.
  intros [= H]. apply lower_equals in H. now subst.
Qed.

Lemma accepts_number (v : text) (g : list text) :
  accepts number v g <->
  g = [] /\ exists a b c,
    v = a ++ b ++ c /\ forallb is_digit a = true
    /\ (b = [] \/ b = T ".") /\ forallb is_digit c = true /\ c <> [].
Proof.
  unfold number, seq. simpl. split.
  - intros (a & r1 & g1 & g1' & -> & -> & [Ha ->] & b & r2 & g2 & g2' & -> & ->
            & [Hb ->] & c & e & g3 & g3' & -> & -> & (Hc & Nc & ->) & -> & ->).
    split; [reflexivity|]. exists a, b, c. rewrite app_nil_r.
    repeat split; auto.
    destruct Hb as [-> |(c' & -> & H)]; [now left|].
    right. apply lower_point in H. now subst.
  - intros (-> & a & b & c & -> & Ha & Hb & Hc & Nc).
    exists a, (b ++ c), [], []. repeat split; auto.
    exists b, c, [], []. repeat split; auto.
    + destruct Hb as [-> | ->]; [now left|]. right. now exists "."%char.
    + exists c, [], [], []. rewrite app_nil_r. repeat split; auto.
Qed.

Lemma accepts_integer (v : text) (g : list text) :
  accepts integer v g <-> g = [] /\ forallb is_digit v = true /\ v <> [].
Proof. unfold integer. simpl. tauto. Qed.

Lemma integer_is_number (v : text) (g : list text) :
  accepts integer v g -> accepts number v g.
Proof.
  rewrite accepts_integer, accepts_number. intros (-> & H & N).
  split; [reflexivity|]. exists [], [], v. auto.
Qed.

Lemma value_starts (V : regex) (v : text) (g : list text) :
  value_shape V -> accepts V v g -> g = [] /\ starts_value v = true.
Proof.
  intros [-> | ->].
  - rewrite accepts_number. intros (-> & a & b & c & -> & Ha & Hb & Hc & Nc).
    split; [reflexivity|].
    destruct a as [|x a]; simpl in *.
    + destruct Hb as [-> | ->]; simpl; [|reflexivity].
      destruct c as [|y c]; [congruence|]. simpl in *.
      apply andb_true_iff in Hc as [-> _]. reflexivity.
    + apply andb_true_iff in Ha as [-> _]. reflexivity.
  - rewrite accepts_integer. intros (-> & H & N). split; [reflexivity|].
    destruct v as [|x v]; [congruence|]. simpl in *.
    apply andb_true_iff in H as [-> _]. reflexivity.
Qed.

Lemma value_is_number (V : regex) (v : text) (g : list text) :
  value_shape V -> accepts V v g -> accepts number v g.
Proof. intros [-> | ->]; auto using integer_is_number. Qed.

Lemma accepts_cat (a b : regex) (w1 w2 : text) (g1 g2 : list text) :
  accepts a w1 g1 -> accepts b w2 g2 -> accepts (Cat a b) (w1 ++ w2) (g1 ++ g2).
Proof. intros Ha Hb. simpl. now exists w1, w2, g1, g2. Qed.

Lemma accepts_cat_eps (a : regex) (w : text) (g : list text) :
  accepts a w g -> accepts (Cat a Eps) w g.
Proof.
  intros Ha. simpl. exists w, [], g, []. rewrite !app_nil_r. auto.
Qed.

Lemma accepts_group (a : regex) (w : text) (g : list text) :
  accepts a w g -> accepts (Group a) w (w :: g).
Proof. intros Ha. simpl. now exists g. Qed.

(** What an assignment pattern accepts, part by part. *)
Lemma accepts_assignment (N V : regex) (w : text) (g : list text) :
  accepts (assignment N V) w g <->
  exists w1 n gn ws1 ws2 v gv,
    w = w1 ++ n ++ ws1 ++ T "=" ++ ws2 ++ v
    /\ g = w1 :: n :: gn ++ v :: gv
    /\ forallb is_space w1 = true /\ accepts N n gn
    /\ forallb is_space ws1 = true /\ forallb is_space ws2 = true
    /\ accepts V v gv.
Proof.
  split.
  - unfold assignment, seq. simpl.
    intros (w1 & r1 & g1 & g1' & -> & -> & (g0 & -> & H1 & ->)
            & n & r2 & g2 & g2' & -> & -> & (gn & -> & Hn)
            & ws1 & r3 & g3 & g3' & -> & -> & [H3 ->]
            & eq & r4 & g4 & g4' & -> & -> & [H4 ->]
            & ws2 & r5 & g5 & g5' & -> & -> & [H5 ->]
            & v & e & g6 & g6' & -> & -> & (gv & -> & Hv) & -> & ->).
    apply accepts_equals in H4. subst eq.
    exists w1, n, gn, ws1, ws2, v, gv. rewrite !app_nil_r.
    repeat split; auto.
  - intros (w1 & n & gn & ws1 & ws2 & v & gv & -> & -> & H1 & Hn & H3 & H5 & Hv).
    change (assignment N V)
      with (Cat (Group (Star is_space))
             (Cat (Group N)
               (Cat (Star is_space)
                 (Cat (Lit (T "="))
                   (Cat (Star is_space) (Cat (Group V) Eps)))))).
    apply (accepts_cat _ _ w1 _ [w1] (n :: gn ++ v :: gv));
      [apply accepts_group; simpl; auto|].
    apply (accepts_cat _ _ n _ (n :: gn) (v :: gv));
      [now apply accepts_group|].
    apply (accepts_cat _ _ ws1 _ [] (v :: gv)); [simpl; auto|].
    apply (accepts_cat _ _ (T "=") _ [] (v :: gv)); [simpl; auto|].
    apply (accepts_cat _ _ ws2 _ [] (v :: gv)); [simpl; auto|].
    apply accepts_cat_eps. now apply accepts_group.
Qed.

(* ------------------------------------------------------------------ *)
(** ** The parts of a line that an assignment pattern matches *)

Lemma solid_head (n rest : text) :
  solid n ->
  match n ++ rest with [] => True | c :: _ => is_space c = false end.
Proof.
  intros [N H]. destruct n as [|c n]; [congruence|]. simpl in *.
  apply andb_true_iff in H as [H _]. now apply solid_not_space.
Qed.

Lemma blanks_then_equals_head (ws rest : text) :
  forallb is_space ws = true ->
  match ws ++ T "=" ++ rest with [] => True | c :: _ => is_solid c = false end.
Proof.
  destruct ws as [|c ws]; simpl; [reflexivity|].
  intros H. apply andb_true_iff in H as [H _]. now apply space_not_solid.
Qed.

(** A line put together from the parts of an assignment gives these parts
    back. *)
Lemma line_parts (w1 n ws1 ws2 v rest : text) :
  forallb is_space w1 = true -> solid n ->
  forallb is_space ws1 = true -> forallb is_space ws2 = true ->
  starts_value v = true ->
  let line := w1 ++ n ++ ws1 ++ T "=" ++ ws2 ++ v ++ rest in
  indent_of line = w1 /\ target_of line = n /\ rhs_of line = Some (v ++ rest).
Proof.
  intros H1 Hn H3 H5 Hv line. unfold indent_of, target_of, rhs_of, line.
  destruct (take_while_stop is_space w1 (n ++ ws1 ++ T "=" ++ ws2 ++ v ++ rest) H1)
    as [E1 E2]; [now apply solid_head|].
  rewrite E1, E2.
  destruct (take_while_stop is_solid n (ws1 ++ T "=" ++ ws2 ++ v ++ rest))
    as [E3 E4]; [apply Hn | now apply blanks_then_equals_head |].
  rewrite E3, E4.
  destruct (take_while_stop is_space ws1 (T "=" ++ ws2 ++ v ++ rest) H3)
    as [_ E5]; [reflexivity|].
  rewrite E5. simpl.
  destruct (take_while_stop is_space ws2 (v ++ rest) H5) as [_ E6].
  - apply starts_value_not_space in Hv. destruct v; [contradiction | exact Hv].
  - rewrite E6. auto.
Qed.

(** A line with a right-hand side is made of its parts. *)
Lemma line_of_parts (line r : text) :
  rhs_of line = Some r ->
  exists ws1 ws2,
    line = indent_of line ++ target_of line ++ ws1 ++ T "=" ++ ws2 ++ r
    /\ forallb is_space ws1 = true /\ forallb is_space ws2 = true.
Proof.
  unfold rhs_of, indent_of, target_of.
  set (l1 := drop_while is_space line).
  set (l2 := drop_while is_solid l1).
  destruct (drop_while is_space l2) as [|c l3] eqn:E; [discriminate|].
  unfold ascii_eqb. destruct (Ascii.eqb_spec c "="%char) as [-> |]; [|discriminate].
  intros [= <-].
  exists (take_while is_space l2), (take_while is_space l3).
  repeat split; auto using take_while_all.
  rewrite <- (take_drop_while is_space line) at 1. f_equal. fold l1.
  rewrite <- (take_drop_while is_solid l1) at 1. f_equal. fold l2.
  rewrite <- (take_drop_while is_space l2) at 1. f_equal. rewrite E.
  simpl. f_equal. now rewrite take_drop_while.
Qed.

Section AssignmentPattern.

Variables N V : regex.
Hypothesis HN : name_shape N.
Hypothesis HV : value_shape V.

Lemma accepted_assignment_parts (w rest : text) (g : list text) :
  accepts (assignment N V) w g ->
  exists v rest',
    g = [indent_of (w ++ rest); target_of (w ++ rest); v]
    /\ accepts N (target_of (w ++ rest)) []
    /\ rhs_of (w ++ rest) = Some (v ++ rest')
    /\ accepts V v [].
Proof.
  rewrite accepts_assignment.
  intros (w1 & n & gn & ws1 & ws2 & v & gv & -> & -> & H1 & Hn & H3 & H5 & Hv).
  destruct (HN n gn Hn) as [Sn ->].
  destruct (value_starts V v gv HV Hv) as [-> Sv].
  destruct (line_parts w1 n ws1 ws2 v rest H1 Sn H3 H5 Sv) as (E1 & E2 & E3).
  exists v, rest. rewrite <- !app_assoc. cbv zeta in E1, E2, E3.
  rewrite E1, E2, E3. auto.
Qed.

(** The groups of a match are the indentation, the target and a value
    that starts the right-hand side. *)
Lemma re_match_assignment (line : text) (g : list text) :
  re_match (assignment N V) line = Some g ->
  exists v rest,
    g = [indent_of line; target_of line; v]
    /\ accepts N (target_of line) []
    /\ rhs_of line = Some (v ++ rest)
    /\ accepts V v [].
Proof.
  intros H. apply re_match_some in H as (w & rest & -> & A).
  now apply accepted_assignment_parts.
Qed.

(** Which lines an assignment pattern matches. *)
Lemma matches_assignment (line : text) :
  matches (assignment N V) line <->
  accepts N (target_of line) []
  /\ exists v rest, rhs_of line = Some (v ++ rest) /\ accepts V v [].
Proof.
  split.
  - intros (w & g & rest & -> & A).
    destruct (accepted_assignment_parts w rest g A) as (v & rest' & _ & ? & ? & ?).
    eauto.
  - intros (Hn & v & rest & Hr & Hv).
    destruct (line_of_parts line (v ++ rest) Hr) as (ws1 & ws2 & E & H3 & H5).
    exists (indent_of line ++ target_of line ++ ws1 ++ T "=" ++ ws2 ++ v),
           [indent_of line; target_of line; v], rest.
    split; [rewrite E at 1; now rewrite <- !app_assoc|].
    apply accepts_assignment.
    exists (indent_of line), (target_of line), [], ws1, ws2, v, [].
    repeat split; auto. apply take_while_all.
Qed.

End AssignmentPattern.

(** The pattern of [update_code_with_parameters] for a solid name. *)
Lemma update_name_shape (name : text) : solid name -> name_shape (Lit name).
Proof.
  intros S n gn [E ->]. split; [|reflexivity].
  apply same_name_solid with name; [symmetry; exact E | exact S].
Qed.

Lemma number_shape : value_shape number.
Proof. now left. Qed.

Lemma integer_shape : value_shape integer.
Proof. now right. Qed.

(** A line matches the pattern of a solid name when its target is that
    name, up to letter case, and its right-hand side starts with a
    number. *)
Lemma matches_update_pattern (name line : text) :
  solid name ->
  matches (update_pattern name) line <->
  same_name (target_of line) name
  /\ exists v rest, rhs_of line = Some (v ++ rest) /\ accepts number v [].
Proof.
  intros S. unfold update_pattern.
  rewrite (matches_assignment (Lit name) number (update_name_shape name S) number_shape).
  simpl. unfold same_name. tauto.
Qed.

(* ================================================================== *)
(** * Numerals *)
(* ================================================================== *)


Lemma digit_char_is_digit (d : Z) :
  (0 <= d < 10)%Z -> is_digit (digit_char d) = true /\ digit_val (digit_char d) = d.
Proof.
  intros H.
  assert (C : (d = 0 \/ d = 1 \/ d = 2 \/ d = 3 \/ d = 4 \/ d = 5 \/ d = 6
               \/ d = 7 \/ d = 8 \/ d = 9)%Z) by lia.
  repeat (destruct C as [-> |C]; [split; reflexivity|]).
  subst. split; reflexivity.
Qed.

Lemma digits_fuel_acc (fuel : nat) (n : Z) (acc : text) :
  digits_fuel fuel n acc = digits_fuel fuel n [] ++ acc.
Proof.
  revert n acc.
  induction fuel as [|fuel IH]; intros n acc; cbn [digits_fuel];
    [reflexivity|].
  destruct (n <? 10)%Z; [reflexivity|].
  rewrite IH, (IH _ (cons _ nil)), <- app_assoc. reflexivity.
Qed.

Lemma forallb_one (p : ascii -> bool) (c : ascii) : forallb p [c] = p c.
Proof. cbn [forallb]. apply andb_true_r. Qed.

Lemma digits_fuel_digits (fuel : nat) (n : Z) :
  (0 <= n)%Z ->
  forallb is_digit (digits_fuel fuel n []) = true
  /\ digits_fuel fuel n [] <> [].
Proof.
  revert n. induction fuel as [|fuel IH]; intros n Hn; cbn [digits_fuel].
  - rewrite forallb_one.
    destruct (digit_char_is_digit (n mod 10)) as [-> _];
      [apply Z.mod_pos_bound; lia|]. split; [reflexivity | discriminate].
  - destruct (Z.ltb_spec n 10).
    + rewrite forallb_one.
      destruct (digit_char_is_digit n) as [-> _]; [lia|].
      split; [reflexivity | discriminate].
    + rewrite digits_fuel_acc.
      destruct (IH (n / 10)%Z) as [E N]; [apply Z.div_pos; lia|].
      split.
      * rewrite forallb_app, E, forallb_one.
        destruct (digit_char_is_digit (n mod 10)) as [-> _];
          [apply Z.mod_pos_bound; lia | reflexivity].
      * intros C. apply app_eq_nil in C as [_ C]. discriminate.
Qed.

Lemma parse_digits_snoc (s : text) (c : ascii) :
  parse_digits (s ++ [c]) = (10 * parse_digits s + digit_val c)%Z.
Proof. unfold parse_digits. now rewrite fold_left_app. Qed.

Lemma parse_digits_one (c : ascii) : parse_digits [c] = digit_val c.
Proof. unfold parse_digits. cbn [fold_left]. lia. Qed.

Lemma parse_digits_fuel (fuel : nat) (n : Z) :
  (0 <= n < 2 ^ Z.of_nat (S fuel))%Z ->
  parse_digits (digits_fuel fuel n []) = n.
Proof.
  revert n. induction fuel as [|fuel IH]; intros n Hn; cbn [digits_fuel].
  - change (2 ^ Z.of_nat 1)%Z with 2%Z in Hn.
    rewrite Z.mod_small by lia. rewrite parse_digits_one.
    now destruct (digit_char_is_digit n) as [_ E]; [lia|].
  - destruct (Z.ltb_spec n 10).
    + rewrite parse_digits_one.
      now destruct (digit_char_is_digit n) as [_ E]; [lia|].
    + rewrite digits_fuel_acc, parse_digits_snoc.
      destruct (digit_char_is_digit (n mod 10)) as [_ ->];
        [apply Z.mod_pos_bound; lia|].
      rewrite IH.
      * symmetry. apply Z.div_mod. lia.
      * split; [apply Z.div_pos; lia|].
        apply Z.div_lt_upper_bound; [lia|].
        rewrite (Nat2Z.inj_succ (S fuel)), Z.pow_succ_r in Hn by lia. lia.
Qed.

(** Writing a natural number and reading it back. *)
Lemma digits_of_spec (n : Z) :
  (0 <= n)%Z ->
  forallb is_digit (digits_of n) = true
  /\ digits_of n <> []
  /\ parse_digits (digits_of n) = n.
Proof.
  intros Hn. unfold digits_of.
  destruct (digits_fuel_digits (Z.to_nat (Z.log2 n)) n Hn) as [D N].
  repeat split; auto.
  apply parse_digits_fuel. split; [exact Hn|].
  rewrite Nat2Z.inj_succ, Z2Nat.id by apply Z.log2_nonneg.
  destruct (Z.eq_dec n 0) as [-> |]; [reflexivity|].
  apply Z.log2_spec. lia.
Qed.

Lemma str_int_nonneg (z : Z) : (0 <= z)%Z -> str_int z = digits_of z.
Proof.
  intros H. unfold str_int. destruct (Z.ltb_spec z 0); [lia | reflexivity].
Qed.

(* ------------------------------------------------------------------ *)
(** ** The formatted value *)

Lemma rstrip_by_prefix (p : ascii -> bool) (s : text) :
  exists t, s = rstrip_by p s ++ t.
Proof.
  unfold rstrip_by. exists (rev (take_while p (rev s))).
  rewrite <- rev_app_distr, take_drop_while. now rewrite rev_involutive.
Qed.

Lemma drop_while_keeps_last (p : ascii -> bool) (s : text) (c : ascii) :
  (exists x, In x (s ++ [c]) /\ p x = false) ->
  exists s', drop_while p (s ++ [c]) = s' ++ [c].
Proof.
  induction s as [|y s IH]; simpl.
  - intros (x & [<-|[]] & H). rewrite H. now exists [].
  - intros (x & [<-|Hin] & H).
    + rewrite H. now exists (y :: s).
    + destruct (p y); [apply IH; eauto|]. now exists (y :: s).
Qed.

(** Stripping on the right keeps the first character, as long as some
    character stays. *)
Lemma rstrip_by_head (p : ascii -> bool) (d : ascii) (t : text) :
  (exists x, In x (d :: t) /\ p x = false) ->
  exists t', rstrip_by p (d :: t) = d :: t'.
Proof.
  intros (x & Hin & Hx). unfold rstrip_by. simpl rev.
  destruct (drop_while_keeps_last p (rev t) d) as [s' E].
  - exists x. split; [|exact Hx].
    apply in_app_iff. destruct Hin as [<-|Hin]; [right; now left|].
    left. now apply in_rev in Hin.
  - rewrite E, rev_app_distr. simpl. eauto.
Qed.

Lemma forallb_prefix (p : ascii -> bool) (s t : text) :
  forallb p (s ++ t) = true -> forallb p s = true.
Proof. rewrite forallb_app. intros H. now apply andb_true_iff in H. Qed.

Lemma py_int_nonneg (v : pynum) : nonneg v -> (0 <= py_int v)%Z.
Proof.
  unfold nonneg. destruct v as [z|q]; cbn [num_Q py_int]; intros H.
  - unfold Qle in H. cbn in H. lia.
  - apply Z.quot_pos; [|lia]. unfold Qle in H. cbn in H. lia.
Qed.

Lemma round_half_even_nonneg (q : Q) : (0 <= Qnum q)%Z -> (0 <= round_half_even q)%Z.
Proof.
  intros H. unfold round_half_even.
  assert (0 <= Qnum q / Z.pos (Qden q))%Z by (apply Z.div_pos; lia).
  destruct (_ <? _)%Z; [lia|]. destruct (_ <? _)%Z; [lia|].
  destruct (Z.even _); lia.
Qed.

Lemma digits_are_numeral (s : text) :
  forallb is_digit s = true -> forallb is_numeral_char s = true.
Proof.
  intros H. rewrite forallb_forall in *. intros c Hc.
  unfold is_numeral_char. now rewrite (H c Hc).
Qed.

Lemma pad6_digits (s : text) :
  forallb is_digit s = true -> forallb is_digit (pad6 s) = true.
Proof.
  intros H. unfold pad6. rewrite forallb_app, H, andb_true_r.
  induction (6 - length s) as [|k IH]; simpl; auto.
Qed.

Lemma format_6f_nonneg (q : Q) :
  (0 <= q)%Q ->
  exists d t,
    format_6f q = d :: t /\ is_digit d = true
    /\ forallb is_numeral_char (d :: t) = true
    /\ In "."%char (d :: t).
Proof.
  intros Hq. unfold format_6f.
  assert (E : Qltb q 0 = false).
  { unfold Qltb. apply negb_false_iff. now apply Qle_bool_iff. }
  rewrite E. simpl app.
  set (n := round_half_even (Qabs q * inject_Z 1000000)).
  assert (Hn : (0 <= n)%Z).
  { apply round_half_even_nonneg. simpl. destruct q as [a b]. simpl.
    pose proof (Z.abs_nonneg a). lia. }
  destruct (digits_of_spec (n / 1000000)%Z) as (D & N & _);
    [apply Z.div_pos; lia|].
  destruct (digits_of_spec (n mod 1000000)%Z) as (D' & _ & _);
    [apply Z.mod_pos_bound; lia|].
  destruct (digits_of (n / 1000000)%Z) as [|d t] eqn:Ed; [congruence|].
  exists d, (t ++ "."%char :: pad6 (digits_of (n mod 1000000)%Z)).
  simpl in D. apply andb_true_iff in D as [Dd Dt].
  repeat split; auto.
  - simpl. unfold is_numeral_char at 1. rewrite Dd. simpl.
    rewrite forallb_app. rewrite (digits_are_numeral t Dt). simpl.
    apply digits_are_numeral. now apply pad6_digits.
  - right. apply in_app_iff. right. now left.
Qed.

(** The text of a value that is not negative starts with a digit and is
    made of digits and points. *)
Lemma format_value_nonneg (v : pynum) :
  nonneg v ->
  exists d t,
    format_value v = d :: t /\ is_digit d = true
    /\ forallb is_numeral_char (d :: t) = true.
Proof.
  intros Hv.
  assert (I : exists d t, str_int (py_int v) = d :: t /\ is_digit d = true
                          /\ forallb is_numeral_char (d :: t) = true).
  { rewrite str_int_nonneg by now apply py_int_nonneg.
    destruct (digits_of_spec (py_int v)) as (D & N & _);
      [now apply py_int_nonneg|].
    destruct (digits_of (py_int v)) as [|d t]; [congruence|].
    exists d, t. repeat split; [|now apply digits_are_numeral].
    simpl in D. now apply andb_true_iff in D as [-> _]. }
  unfold format_value. destruct (is_float v); [|exact I].
  destruct (py_eq _ _); [exact I|].
  destruct (format_6f_nonneg (num_Q v) Hv) as (d & t & E & Dd & A & P).
  rewrite E.
  destruct (rstrip_by_head (ascii_eqb "0"%char) d t) as [t1 E1].
  { exists "."%char. split; [exact P | reflexivity]. }
  rewrite E1.
  destruct (rstrip_by_head (ascii_eqb "."%char) d t1) as [t2 E2].
  { exists d. split; [now left|].
    unfold ascii_eqb. apply Ascii.eqb_neq. intros <-. discriminate Dd. }
  rewrite E2. exists d, t2. repeat split; auto.
  destruct (rstrip_by_prefix (ascii_eqb "0"%char) (d :: t)) as [u1 U1].
  destruct (rstrip_by_prefix (ascii_eqb "."%char) (d :: t1)) as [u2 U2].
  rewrite E1 in U1. rewrite E2 in U2. rewrite U1, U2 in A.
  now apply forallb_prefix, forallb_prefix in A.
Qed.

(* ================================================================== *)
(** * Numerals with a point *)
(* ================================================================== *)

Lemma parse_digits_fold (s : text) (acc : Z) :
  fold_left (fun a c => (10 * a + digit_val c)%Z) s acc
  = (acc * 10 ^ Z.of_nat (length s) + parse_digits s)%Z.
Proof.
  unfold parse_digits. revert acc.
  induction s as [|c s IH]; intros acc; cbn [fold_left length].
  - rewrite Z.pow_0_r. lia.
  - rewrite (IH (10 * acc + digit_val c)%Z), (IH (10 * 0 + digit_val c)%Z).
    rewrite Nat2Z.inj_succ, Z.pow_succ_r by lia. ring.
Qed.

Lemma parse_digits_app (a b : text) :
  parse_digits (a ++ b)
  = (parse_digits a * 10 ^ Z.of_nat (length b) + parse_digits b)%Z.
Proof.
  unfold parse_digits at 1. rewrite fold_left_app. apply parse_digits_fold.
Qed.

Lemma parse_digits_zeros (t : text) :
  forallb (ascii_eqb "0"%char) t = true -> parse_digits t = 0%Z.
Proof.
  induction t as [|c t IH] using rev_ind; [reflexivity|].
  rewrite forallb_app, forallb_one. intros H.
  apply andb_true_iff in H as [Ht Hc].
  rewrite parse_digits_snoc, (IH Ht).
  unfold ascii_eqb in Hc. apply Ascii.eqb_eq in Hc. subst c. reflexivity.
Qed.

Lemma zeros_are_digits (t : text) :
  forallb (ascii_eqb "0"%char) t = true -> forallb is_digit t = true.
Proof.
  intros H. rewrite forallb_forall in *. intros c Hc.
  specialize (H c Hc). unfold ascii_eqb in H. apply Ascii.eqb_eq in H.
  now subst c.
Qed.

Lemma digits_fuel_length (fuel : nat) (n : Z) (k : nat) :
  (0 <= n < 10 ^ Z.of_nat (S k))%Z ->
  length (digits_fuel fuel n []) <= S k.
Proof.
  revert n k. induction fuel as [|fuel IH]; intros n k Hn;
    cbn [digits_fuel].
  - cbn [length]. lia.
  - destruct (Z.ltb_spec n 10); [cbn [length]; lia|].
    rewrite digits_fuel_acc, length_app. cbn [length].
    destruct k as [|k].
    + change (10 ^ Z.of_nat 1)%Z with 10%Z in Hn. lia.
    + assert (L : length (digits_fuel fuel (n / 10) []) <= S k).
      { apply IH. split; [apply Z.div_pos; lia|].
        apply Z.div_lt_upper_bound; [lia|].
        rewrite (Nat2Z.inj_succ (S k)), Z.pow_succ_r in Hn by lia. lia. }
      lia.
Qed.

(** The six digits after the point. *)
Lemma pad6_spec (r : Z) :
  (0 <= r < 1000000)%Z ->
  length (pad6 (digits_of r)) = 6
  /\ forallb is_digit (pad6 (digits_of r)) = true
  /\ parse_digits (pad6 (digits_of r)) = r.
Proof.
  intros Hr. destruct (digits_of_spec r) as (D & _ & P); [lia|].
  assert (L : length (digits_of r) <= 6)
    by (apply digits_fuel_length; change (10 ^ Z.of_nat 6)%Z with 1000000%Z; lia).
  split; [|split; [now apply pad6_digits|]].
  - unfold pad6. rewrite length_app, repeat_length. lia.
  - unfold pad6. rewrite parse_digits_app, P.
    rewrite parse_digits_zeros; [lia|].
    induction (6 - length (digits_of r)) as [|k IH]; [reflexivity|].
    cbn [repeat forallb]. now rewrite IH.
Qed.

(* ------------------------------------------------------------------ *)
(** ** Stripping on the right *)

Lemma drop_while_keep (p : ascii -> bool) (u : text) (c : ascii) (w : text) :
  p c = false -> drop_while p (u ++ c :: w) = drop_while p u ++ c :: w.
Proof.
  intros Hc. induction u as [|y u IH]; cbn [app drop_while].
  - now rewrite Hc.
  - destruct (p y); [exact IH | reflexivity].
Qed.

(** Nothing is stripped to the left of a character that stays. *)
Lemma rstrip_by_keep (p : ascii -> bool) (s : text) (c : ascii) (t : text) :
  p c = false -> rstrip_by p (s ++ c :: t) = s ++ c :: rstrip_by p t.
Proof.
  intros Hc. unfold rstrip_by.
  rewrite rev_app_distr. cbn [rev]. rewrite <- app_assoc. cbn [app].
  rewrite (drop_while_keep p (rev t) c (rev s) Hc).
  rewrite rev_app_distr. cbn [rev]. rewrite rev_involutive, <- app_assoc.
  reflexivity.
Qed.

Lemma rstrip_by_suffix (p : ascii -> bool) (s : text) :
  exists t, s = rstrip_by p s ++ t /\ forallb p t = true.
Proof.
  unfold rstrip_by. exists (rev (take_while p (rev s))). split.
  - rewrite <- rev_app_distr, take_drop_while. now rewrite rev_involutive.
  - rewrite forallb_forall. intros c Hc. apply in_rev in Hc.
    pose proof (take_while_all p (rev s)) as A.
    rewrite forallb_forall in A. now apply A.
Qed.

(** Stripping the zeros at the end of digits that are not all zero. *)
Lemma strip_zeros (B : text) :
  forallb is_digit B = true -> parse_digits B <> 0%Z ->
  exists B' t,
    B = B' ++ t /\ rstrip_by (ascii_eqb "0"%char) B = B'
    /\ B' <> [] /\ forallb is_digit B' = true
    /\ forallb (ascii_eqb "0"%char) t = true.
Proof.
  intros D N.
  destruct (rstrip_by_suffix (ascii_eqb "0"%char) B) as (t & E & Ht).
  exists (rstrip_by (ascii_eqb "0"%char) B), t.
  split; [exact E|]. split; [reflexivity|].
  split.
  - intros C. rewrite C in E. cbn [app] in E. subst t.
    now apply parse_digits_zeros in Ht.
  - split; [|exact Ht]. rewrite E in D. now apply forallb_prefix in D.
Qed.

(* ------------------------------------------------------------------ *)
(** ** The text of a value with a fraction *)

Lemma round_half_even_exact (x : Q) (m : Z) :
  Qnum x = (m * Z.pos (Qden x))%Z -> round_half_even x = m.
Proof.
  intros H. unfold round_half_even. rewrite H.
  rewrite Z.div_mul, Z.mod_mul by lia.
  destruct (Z.ltb_spec (2 * 0) (Z.pos (Qden x))); [reflexivity | lia].
Qed.

Lemma take_while_not_point (a rest : text) :
  forallb is_digit a = true ->
  take_while (fun c => negb (ascii_eqb c "."%char)) (a ++ "."%char :: rest) = a.
Proof.
  intros D.
  destruct (take_while_stop (fun c => negb (ascii_eqb c "."%char)) a
              ("."%char :: rest)) as [E _]; [|reflexivity|exact E].
  rewrite forallb_forall in *. intros c Hc. specialize (D c Hc).
  unfold ascii_eqb. destruct (Ascii.eqb_spec c "."%char) as [-> |];
    [discriminate | reflexivity].
Qed.

(** Reading [a.b]. *)
Lemma parse_float_point (a b : text) :
  forallb is_digit a = true ->
  parse_float (a ++ "."%char :: b)
  = dec (parse_digits a * 10 ^ Z.of_nat (length b) + parse_digits b)
        (length b).
Proof.
  intros D. unfold parse_float. rewrite (take_while_not_point a b D).
  change (S (length a)) with (1 + length a).
  rewrite <- skipn_skipn, skipn_length_app. cbn [skipn].
  now rewrite parse_digits_app.
Qed.

Lemma nonneg_float (q : Q) : nonneg (PFloat q) -> (0 <= Qnum q)%Z.
Proof. unfold nonneg, Qle. cbn [num_Q Qnum Qden]. lia. Qed.

(** A value with a fraction of at most six digits is written as digits, a
    point and digits, and the text reads as the value. *)
Lemma format_value_decimal (q : Q) :
  nonneg (PFloat q) -> six_decimals (PFloat q) -> ~ whole (PFloat q) ->
  exists a b,
    format_value (PFloat q) = a ++ "."%char :: b
    /\ forallb is_digit a = true /\ a <> []
    /\ forallb is_digit b = true /\ b <> []
    /\ (parse_float (a ++ "."%char :: b) == q)%Q.
Proof.
  intros Nq [m Hm] W. pose proof (nonneg_float q Nq) as Ha.
  destruct q as [qa qb]. cbn [Qnum] in Ha.
  assert (Em : (qa * 1000000 = m * Z.pos qb)%Z).
  { unfold Qeq, Qmult, inject_Z in Hm. cbn [num_Q Qnum Qden] in Hm.
    rewrite Pos.mul_1_r in Hm. lia. }
  assert (Hm0 : (0 <= m)%Z) by nia.
  assert (R : round_half_even (Qabs (qa # qb) * inject_Z 1000000) = m).
  { apply round_half_even_exact. unfold Qabs, Qmult, inject_Z.
    cbn [Qnum Qden]. rewrite Pos.mul_1_r, Z.abs_eq by exact Ha. exact Em. }
  assert (Hlo : (m mod 1000000 <> 0)%Z).
  { intros C. apply W. unfold whole, py_eq. cbn [num_Q py_int Qnum Qden].
    apply Qeq_bool_iff. unfold Qeq, inject_Z. cbn [Qnum Qden].
    apply Z.mod_divide in C; [|lia]. destruct C as [k ->].
    assert (qa = k * Z.pos qb)%Z by nia. subst qa.
    rewrite Z.quot_mul by lia. lia. }
  destruct (digits_of_spec (m / 1000000)%Z) as (Da & Na & Pa);
    [apply Z.div_pos; lia|].
  destruct (pad6_spec (m mod 1000000)%Z) as (Lb & Db & Pb);
    [apply Z.mod_pos_bound; lia|].
  destruct (strip_zeros (pad6 (digits_of (m mod 1000000)%Z)) Db)
    as (b & t & Eb & Sb & Nb & Db' & Zt); [now rewrite Pb|].
  exists (digits_of (m / 1000000)%Z), b.
  assert (F : format_value (PFloat (qa # qb))
              = digits_of (m / 1000000)%Z ++ "."%char :: b).
  { unfold format_value. cbn [is_float].
    destruct (py_eq (PFloat (qa # qb)) (PInt (py_int (PFloat (qa # qb)))))
      eqn:Ew; [now elim W|].
    cbn [num_Q]. unfold format_6f. rewrite R.
    assert (Es : Qltb (qa # qb) 0 = false).
    { apply negb_false_iff, Qle_bool_iff. exact Nq. }
    rewrite Es. cbn [app].
    rewrite (rstrip_by_keep (ascii_eqb "0"%char)) by reflexivity.
    rewrite Sb.
    destruct (exists_last Nb) as (b0 & d & Ed).
    assert (Hd : ascii_eqb "."%char d = false).
    { rewrite Ed, forallb_app, forallb_one in Db'.
      apply andb_true_iff in Db' as [_ Hd].
      unfold ascii_eqb. destruct (Ascii.eqb_spec "."%char d) as [<- |];
        [discriminate | reflexivity]. }
    rewrite Ed.
    change (digits_of (m / 1000000)%Z ++ "."%char :: b0 ++ [d])
      with (digits_of (m / 1000000)%Z ++ ("."%char :: b0) ++ d :: []).
    rewrite app_assoc.
    rewrite (rstrip_by_keep (ascii_eqb "."%char) _ d [] Hd).
    reflexivity. }
  split; [exact F|]. split; [exact Da|]. split; [exact Na|].
  split; [exact Db'|]. split; [exact Nb|].
  rewrite (parse_float_point _ b Da), Pa.
  assert (Lt : length b + length t = 6)
    by (rewrite <- length_app, <- Eb; exact Lb).
  assert (Pt : (parse_digits b * 10 ^ Z.of_nat (length t) = m mod 1000000)%Z).
  { rewrite <- Pb, Eb, parse_digits_app, (parse_digits_zeros t Zt). lia. }
  assert (Hp : (10 ^ Z.of_nat (length b) * 10 ^ Z.of_nat (length t)
                = 1000000)%Z).
  { rewrite <- Z.pow_add_r, <- Nat2Z.inj_add, Lt by lia. reflexivity. }
  assert (Hb : (0 < 10 ^ Z.of_nat (length b))%Z) by (apply Z.pow_pos_nonneg; lia).
  assert (Ht : (0 < 10 ^ Z.of_nat (length t))%Z) by (apply Z.pow_pos_nonneg; lia).
  unfold dec, Qeq. cbn [Qnum Qden]. rewrite Z2Pos.id by exact Hb.
  pose proof (Z.div_mod m 1000000 ltac:(lia)) as Dm.
  apply (Z.mul_reg_r _ _ (10 ^ Z.of_nat (length t))%Z); [lia|].
  set (X := (10 ^ Z.of_nat (length b))%Z) in *.
  set (Y := (10 ^ Z.of_nat (length t))%Z) in *.
  set (hi := (m / 1000000)%Z) in *. set (lo := (m mod 1000000)%Z) in *.
  set (pb := parse_digits b) in *.
  transitivity ((hi * (X * Y) + pb * Y) * Z.pos qb)%Z; [ring|].
  rewrite Hp, Pt. transitivity (qa * (X * Y))%Z; [|ring].
  rewrite Hp. lia.
Qed.

(* ================================================================== *)
(** * Lines: [split] and [join] *)
(* ================================================================== *)

Lemma split_not_nil (c : ascii) (s : text) : split c s <> [].
Proof.
  destruct s as [|x s]; simpl; [discriminate|].
  destruct (ascii_eqb x c); [discriminate|].
  destruct (split c s); discriminate.
Qed.

Lemma join_split (c : ascii) (s : text) : join c (split c s) = s.
Proof.
  induction s as [|x s IH]; simpl; [reflexivity|].
  unfold ascii_eqb. destruct (Ascii.eqb_spec x c) as [->|N].
  - pose proof (split_not_nil c s) as Hs.
    destruct (split c s) as [|l ls]; [congruence|].
    simpl in *. now rewrite IH.
  - pose proof (split_not_nil c s) as Hs.
    destruct (split c s) as [|l ls]; [congruence|].
    simpl in *. destruct ls; simpl in *; now rewrite <- IH.
Qed.

Lemma split_pieces (c : ascii) (s l : text) : In l (split c s) -> ~ In c l.
Proof.
  revert l. induction s as [|x s IH]; simpl; intros l.
  - intros [<-|[]] [].
  - unfold ascii_eqb. destruct (Ascii.eqb_spec x c) as [->|N].
    + intros [<-|H]; [intros [] | now apply IH].
    + pose proof (split_not_nil c s) as Hs.
      destruct (split c s) as [|l0 ls]; [congruence|].
      intros [<-|H].
      * intros [E|H]; [congruence|]. apply (IH l0); [now left | exact H].
      * apply IH. now right.
Qed.

Lemma split_app_free (c : ascii) (l s : text) :
  ~ In c l -> split c (l ++ c :: s) = l :: split c s.
Proof.
  induction l as [|x l IH]; simpl; intros H.
  - unfold ascii_eqb. now rewrite Ascii.eqb_refl.
  - unfold ascii_eqb. destruct (Ascii.eqb_spec x c) as [->|N].
    + exfalso. apply H. now left.
    + rewrite IH by tauto. reflexivity.
Qed.

Lemma split_free (c : ascii) (l : text) : ~ In c l -> split c l = [l].
Proof.
  induction l as [|x l IH]; simpl; intros H; [reflexivity|].
  unfold ascii_eqb. destruct (Ascii.eqb_spec x c) as [->|N].
  - exfalso. apply H. now left.
  - rewrite IH by tauto. reflexivity.
Qed.

Lemma split_join (c : ascii) (ls : list text) :
  ls <> [] -> (forall l, In l ls -> ~ In c l) -> split c (join c ls) = ls.
Proof.
  induction ls as [|l ls IH]; [congruence|]. intros _ H.
  destruct ls as [|l' ls].
  - simpl. apply split_free. apply H. now left.
  - change (join c (l :: l' :: ls)) with (l ++ c :: join c (l' :: ls)).
    rewrite split_app_free by (apply H; now left).
    f_equal. apply IH; [discriminate|]. intros x Hx. apply H. now right.
Qed.

(* ================================================================== *)
(** * Rewriting one line *)
(* ================================================================== *)

Lemma update_first_length (name : text) (v : pynum) (lines : list text) :
  length (update_first name v lines) = length lines.
Proof.
  induction lines as [|l ls IH]; simpl; [reflexivity|].
  destruct (re_match _ l); simpl; congruence.
Qed.

Lemma update_first_not_nil (name : text) (v : pynum) (lines : list text) :
  lines <> [] -> update_first name v lines <> [].
Proof.
  intros H E. apply (f_equal (@length text)) in E.
  rewrite update_first_length in E. destruct lines; [congruence | discriminate].
Qed.

(** The first group of a match of the update pattern is a run of blanks at
    the start of the line, followed by the name in some letter case. *)
Lemma update_match_parts (name line : text) (g : list text) :
  re_match (update_pattern name) line = Some g ->
  exists w1 n ws1 ws2 num rest,
    line = w1 ++ n ++ ws1 ++ T "=" ++ ws2 ++ num ++ rest
    /\ nth 0 g [] = w1
    /\ forallb is_space w1 = true /\ same_name n name
    /\ forallb is_space ws1 = true /\ forallb is_space ws2 = true
    /\ accepts number num [].
Proof.
  intros H. apply re_match_some in H as (w & rest & -> & A).
  apply accepts_assignment in A
    as (w1 & n & gn & ws1 & ws2 & v & gv & -> & -> & H1 & [Hn ->] & H3 & H5 & Hv).
  assert (gv = []) as -> by (apply accepts_number in Hv; tauto).
  exists w1, n, ws1, ws2, v, rest. rewrite <- !app_assoc.
  repeat split; auto.
Qed.

(** What [update_first] does to the lines: nothing when no line matches,
    else the first line that matches is replaced. *)
Lemma update_first_spec (name : text) (v : pynum) (lines : list text) :
  ((forall l, In l lines -> ~ matches (update_pattern name) l)
   /\ update_first name v lines = lines)
  \/ exists pre line post g,
       lines = pre ++ line :: post
       /\ (forall l, In l pre -> ~ matches (update_pattern name) l)
       /\ re_match (update_pattern name) line = Some g
       /\ update_first name v lines
          = pre ++ assignment_line (nth 0 g []) name v :: post.
Proof.
  induction lines as [|l ls IH]; simpl.
  - left. split; [intros l [] | reflexivity].
  - destruct (re_match (update_pattern name) l) as [g|] eqn:E.
    + right. exists [], l, ls, g. simpl. repeat split; auto.
    + apply re_match_none in E.
      destruct IH as [[Hn ->]|(pre & line & post & g & -> & Hn & Hm & ->)].
      * left. split; [|reflexivity]. intros x [<-|Hx]; auto.
      * right. exists (l :: pre), line, post, g. simpl. repeat split; auto.
        intros x [<-|Hx]; auto.
Qed.

(** The pattern only looks at a name up to letter case. *)
Lemma strip_prefix_ci_same (a b s : text) :
  same_name a b -> strip_prefix_ci a s = strip_prefix_ci b s.
Proof.
  unfold same_name. revert b s.
  induction a as [|x a IH]; intros [|y b] s; simpl; try discriminate;
    [reflexivity|].
  intros [= E1 E2]. destruct s as [|c s]; [reflexivity|].
  rewrite E1. destruct (ascii_eqb _ _); [now apply IH | reflexivity].
Qed.

Lemma run_cat_ext (a a' b b' : regex) :
  (forall s, run a s = run a' s) -> (forall s, run b s = run b' s) ->
  forall s, run (Cat a b) s = run (Cat a' b') s.
Proof.
  intros Ha Hb s. cbn [run]. rewrite Ha. apply flat_map_ext.
  intros w. now rewrite Hb.
Qed.

Lemma run_group_ext (a a' : regex) :
  (forall s, run a s = run a' s) ->
  forall s, run (Group a) s = run (Group a') s.
Proof. intros Ha s. cbn [run]. now rewrite Ha. Qed.

Lemma run_lit_same (a b : text) :
  same_name a b -> forall s, run (Lit a) s = run (Lit b) s.
Proof. intros E s. cbn [run]. now rewrite (strip_prefix_ci_same a b s E). Qed.

Lemma update_pattern_same (a b line : text) :
  same_name a b ->
  re_match (update_pattern a) line = re_match (update_pattern b) line.
Proof.
  intros E.
  assert (H : forall s, run (update_pattern a) s = run (update_pattern b) s).
  { unfold update_pattern, assignment, seq. cbn [fold_right].
    apply run_cat_ext; [reflexivity|].
    apply run_cat_ext; [|reflexivity].
    apply run_group_ext. now apply run_lit_same. }
  unfold re_match. now rewrite H.
Qed.

(** The line written for a solid name and a value that is not negative has
    the parts it was made of. *)
Lemma assignment_line_parts (indent name : text) (v : pynum) :
  forallb is_space indent = true -> solid name -> nonneg v ->
  indent_of (assignment_line indent name v) = indent
  /\ target_of (assignment_line indent name v) = name
  /\ exists num rest,
       rhs_of (assignment_line indent name v) = Some (num ++ rest)
       /\ accepts number num [].
Proof.
  intros Hi Hn Hv.
  destruct (format_value_nonneg v Hv) as (d & t & E & Dd & _).
  unfold assignment_line. rewrite E.
  change (indent ++ name ++ T " = " ++ d :: t)
    with (indent ++ name ++ [" "%char] ++ T "=" ++ [" "%char] ++ [d] ++ t).
  destruct (line_parts indent name [" "%char] [" "%char] [d] t)
    as (E1 & E2 & E3); auto.
  - simpl. now rewrite Dd.
  - cbv zeta in E1, E2, E3. rewrite E1, E2, E3.
    repeat split. exists [d], t. split; [reflexivity|].
    apply accepts_number. split; [reflexivity|].
    exists [], [], [d]. simpl. rewrite Dd. repeat split; auto. discriminate.
Qed.

(** Such a line matches the pattern of every name equal to its own up to
    letter case, with its indentation as first group. *)
Lemma assignment_line_rematch (indent name name' : text) (v : pynum) :
  forallb is_space indent = true -> solid name -> nonneg v ->
  same_name name name' ->
  exists g,
    re_match (update_pattern name') (assignment_line indent name v) = Some g
    /\ nth 0 g [] = indent.
Proof.
  intros Hi Hn Hv E.
  destruct (assignment_line_parts indent name v Hi Hn Hv)
    as (E1 & E2 & num & rest & E3 & A).
  assert (S' : solid name') by (now apply same_name_solid with name).
  assert (M : matches (update_pattern name') (assignment_line indent name v)).
  { apply matches_update_pattern; [exact S'|]. rewrite E2. eauto. }
  apply re_match_matches in M as [g M]. exists g. split; [exact M|].
  apply (re_match_assignment (Lit name') number
           (update_name_shape name' S') number_shape) in M
    as (v' & rest' & -> & _). simpl. exact E1.
Qed.

(** A line matches the patterns of two solid names only when they are the
    same up to letter case. *)
Lemma update_patterns_disjoint (a b line : text) :
  solid a -> solid b ->
  matches (update_pattern a) line -> matches (update_pattern b) line ->
  same_name a b.
Proof.
  intros Sa Sb Ma Mb.
  apply matches_update_pattern in Ma as [Ea _]; [|exact Sa].
  apply matches_update_pattern in Mb as [Eb _]; [|exact Sb].
  unfold same_name in *. congruence.
Qed.

Lemma update_group_blank (name line : text) (g : list text) :
  re_match (update_pattern name) line = Some g ->
  forallb is_space (nth 0 g []) = true.
Proof.
  intros H. apply update_match_parts in H
    as (w1 & n & ws1 & ws2 & num & rest & _ & -> & H1 & _). exact H1.
Qed.

Section UpdateAlgebra.

Variables (a b : text) (va vb : pynum).
Hypothesis Sa : solid a.
Hypothesis Sb : solid b.
Hypothesis Na : nonneg va.
Hypothesis Nb : nonneg vb.

(** A later update of the same name overrides an earlier one. *)
Lemma update_first_absorbs (lines : list text) :
  same_name a b ->
  update_first b vb (update_first a va lines) = update_first b vb lines.
Proof.
  intros E. induction lines as [|l ls IH]; cbn [update_first];
    [reflexivity|].
  destruct (re_match (update_pattern a) l) as [g|] eqn:M;
    cbn [update_first].
  - fold (assignment_line (nth 0 g []) a va).
    pose proof (update_group_blank a l g M) as Hb.
    destruct (assignment_line_rematch (nth 0 g []) a b va Hb Sa Na E)
      as (g' & M' & E').
    rewrite M', <- (update_pattern_same a b l E), M, E'. reflexivity.
  - rewrite <- (update_pattern_same a b l E), M. now rewrite IH.
Qed.

Lemma no_match_after_update (l : text) (g : list text) :
  ~ same_name a b ->
  re_match (update_pattern a) l = Some g ->
  re_match (update_pattern b) l = None
  /\ re_match (update_pattern b) (assignment_line (nth 0 g []) a va) = None.
Proof.
  intros N M. split; apply re_match_none; intros Mb; apply N.
  - apply (update_patterns_disjoint a b l Sa Sb); [|exact Mb].
    apply re_match_matches. eauto.
  - pose proof (update_group_blank a l g M) as Hb.
    destruct (assignment_line_rematch (nth 0 g []) a a va Hb Sa Na eq_refl)
      as (g' & M' & _).
    apply (update_patterns_disjoint a b (assignment_line (nth 0 g []) a va)
             Sa Sb); [|exact Mb].
    apply re_match_matches. eauto.
Qed.

End UpdateAlgebra.

(** Updates of names that differ even up to letter case commute. *)
Lemma update_first_commutes (a b : text) (va vb : pynum) (lines : list text) :
  solid a -> solid b -> nonneg va -> nonneg vb -> ~ same_name a b ->
  update_first b vb (update_first a va lines)
  = update_first a va (update_first b vb lines).
Proof.
  intros Sa Sb Na Nb N.
  assert (N' : ~ same_name b a) by (intros E; apply N; now symmetry).
  induction lines as [|l ls IH]; cbn [update_first]; [reflexivity|].
  destruct (re_match (update_pattern a) l) as [ga|] eqn:Ma;
    destruct (re_match (update_pattern b) l) as [gb|] eqn:Mb;
    cbn [update_first].
  - destruct (no_match_after_update a b va Sa Sb Na l ga N Ma) as [C _].
    congruence.
  - destruct (no_match_after_update a b va Sa Sb Na l ga N Ma) as [_ C].
    fold (assignment_line (nth 0 ga []) a va). now rewrite C, Ma.
  - destruct (no_match_after_update b a vb Sb Sa Nb l gb N' Mb) as [_ C].
    fold (assignment_line (nth 0 gb []) b vb). now rewrite C, Mb.
  - now rewrite Ma, Mb, IH.
Qed.

Lemma same_name_dec (a b : text) : {same_name a b} + {~ same_name a b}.
Proof. unfold same_name. apply (list_eq_dec ascii_dec). Qed.

(** Running the whole mapping after one of its updates is running the
    whole mapping. *)
Lemma update_lines_absorbs (u : list (text * pynum)) (k : text) (v : pynum)
    (lines : list text) :
  plain_updates u -> In (k, v) u ->
  update_lines u (update_first k v lines) = update_lines u lines.
Proof.
  unfold update_lines. intros P. revert lines.
  induction P as [|[k' v'] u [Sk Nk] P IH]; intros lines Hin; [destruct Hin|].
  simpl in *.
  assert (Skv : solid k /\ nonneg v).
  { destruct Hin as [[= -> ->]|Hin]; [auto|].
    rewrite Forall_forall in P. apply (P (k, v) Hin). }
  destruct Skv as [S N].
  destruct (same_name_dec k k') as [E|E].
  - now rewrite update_first_absorbs.
  - rewrite update_first_commutes by auto.
    apply IH. destruct Hin as [[= -> ->]|Hin]; [|exact Hin].
    exfalso. now apply E.
Qed.

Lemma update_lines_idempotent (u : list (text * pynum)) (lines : list text) :
  plain_updates u ->
  update_lines u (update_lines u lines) = update_lines u lines.
Proof.
  intros P.
  enough (G : forall u', incl u' u ->
                update_lines u (update_lines u' lines) = update_lines u lines)
    by (apply G, incl_refl).
  intros u'. revert lines.
  induction u' as [|[k v] u' IH]; intros lines Hi; [reflexivity|].
  simpl. unfold update_lines in *. simpl.
  rewrite IH by (intros x Hx; apply Hi; now right).
  apply (update_lines_absorbs u k v lines P). apply Hi. now left.
Qed.

(* ------------------------------------------------------------------ *)
(** ** From lines to texts *)

Lemma numeral_not_newline (s : text) :
  forallb is_numeral_char s = true -> newline_free s.
Proof.
  intros H N. rewrite forallb_forall in H. specialize (H _ N). discriminate.
Qed.

Lemma solid_newline_free (n : text) : solid n -> newline_free n.
Proof.
  intros [_ H] N. rewrite forallb_forall in H. specialize (H _ N). discriminate.
Qed.

Lemma update_first_newline_free (k : text) (v : pynum) (lines : list text) :
  solid k -> nonneg v ->
  (forall l, In l lines -> newline_free l) ->
  forall l, In l (update_first k v lines) -> newline_free l.
Proof.
  intros S N H.
  destruct (update_first_spec k v lines)
    as [[_ ->]|(pre & line & post & g & -> & _ & M & ->)]; [exact H|].
  intros l Hl. apply in_app_iff in Hl as [Hl|[<-|Hl]].
  - apply H, in_app_iff. now left.
  - apply update_match_parts in M
      as (w1 & n & ws1 & ws2 & num & rest & E & -> & _).
    destruct (format_value_nonneg v N) as (d & t & Ef & _ & Hf).
    unfold assignment_line, newline_free. rewrite !in_app_iff.
    intros [C|[C|[C|C]]].
    + apply (H line); [apply in_app_iff; right; now left|].
      rewrite E. apply in_app_iff. now left.
    + now apply (solid_newline_free k S).
    + simpl in C. destruct C as [C|[C|[C|[]]]]; discriminate.
    + rewrite Ef in C. now apply (numeral_not_newline (d :: t) Hf).
  - apply H, in_app_iff. right. now right.
Qed.

Lemma update_lines_newline_free (u : list (text * pynum)) (lines : list text) :
  plain_updates u ->
  lines <> [] -> (forall l, In l lines -> newline_free l) ->
  update_lines u lines <> []
  /\ forall l, In l (update_lines u lines) -> newline_free l.
Proof.
  unfold update_lines. intros P. revert lines.
  induction P as [|[k v] u [S N] P IH]; intros lines Hn H; simpl; [auto|].
  apply IH.
  - now apply update_first_not_nil.
  - now apply update_first_newline_free.
Qed.

(** C3, as amended.  For an update mapping whose names are solid (not
    empty, with no blank and no equals sign, as every identifier is) and
    whose values are not negative, [update_code_with_parameters] is
    idempotent. *)
Theorem update_code_idempotent (code : text) (u : list (text * pynum)) :
  plain_updates u ->
  update_code_with_parameters (update_code_with_parameters code u) u
  = update_code_with_parameters code u.
Proof.
  intros P. unfold update_code_with_parameters.
  destruct (update_lines_newline_free u (split newline code) P) as [Hn Hf].
  - apply split_not_nil.
  - intros l Hl. now apply split_pieces in Hl.
  - rewrite split_join by assumption.
    now rewrite update_lines_idempotent.
Qed.

Lemma update_code_idempotent_witness :
  plain_updates [(T "seed", PInt 5)]
  /\ update_code_with_parameters
       (update_code_with_parameters two_seeds [(T "seed", PInt 5)])
       [(T "seed", PInt 5)]
     = update_code_with_parameters two_seeds [(T "seed", PInt 5)].
Proof.
  assert (P : plain_updates [(T "seed", PInt 5)]).
  { repeat constructor; simpl; [discriminate|]. unfold nonneg, Qle. simpl. lia. }
  split; [exact P|].
  exact (update_code_idempotent two_seeds [(T "seed", PInt 5)] P).
Defined.

(** C3 as stated fails: the line written for a negative value no longer
    matches the pattern, so a second run rewrites the next assignment. *)
Lemma update_code_not_idempotent_for_negative_value :
  update_code_with_parameters two_seeds [(T "seed", PInt (-1))]
  = join newline [T "seed = -1"; T "seed = 2"]
  /\ update_code_with_parameters
       (update_code_with_parameters two_seeds [(T "seed", PInt (-1))])
       [(T "seed", PInt (-1))]
     = join newline [T "seed = -1"; T "seed = -1"]
  /\ update_code_with_parameters
       (update_code_with_parameters two_seeds [(T "seed", PInt (-1))])
       [(T "seed", PInt (-1))]
     <> update_code_with_parameters two_seeds [(T "seed", PInt (-1))].
Proof.
  split; [reflexivity|]. split; [reflexivity|].
  vm_compute. discriminate.
Qed.

(** C5, as amended.  The names of the mapping are taken one after the
    other, each on the lines the earlier ones left.  For one name, either
    no line matches its pattern and the lines stay as they are, or exactly
    the first matching line is replaced: a line made of blanks, the name in
    some letter case, blanks, an equals sign, blanks, an unsigned number and
    any rest.  The whole of that line gives way to its leading blanks, the
    name, [ = ] and the formatted value.  Every other line stays the same,
    and so does the number of lines. *)
Theorem update_rewrites_first_match_only
    (code : text) (u : list (text * pynum)) (name : text) (v : pynum) :
  let lines := update_lines u (split newline code) in
  update_code_with_parameters code (u ++ [(name, v)])
  = join newline (update_first name v lines)
  /\ length (update_first name v lines) = length lines
  /\ (((forall l, In l lines -> ~ matches (update_pattern name) l)
       /\ update_first name v lines = lines)
      \/ exists pre line post w1 n ws1 ws2 num rest,
           lines = pre ++ line :: post
           /\ (forall l, In l pre -> ~ matches (update_pattern name) l)
           /\ line = w1 ++ n ++ ws1 ++ T "=" ++ ws2 ++ num ++ rest
           /\ forallb is_space w1 = true /\ same_name n name
           /\ forallb is_space ws1 = true /\ forallb is_space ws2 = true
           /\ accepts number num []
           /\ update_first name v lines
              = pre ++ assignment_line w1 name v :: post).
Proof.
  intros lines. split; [|split].
  - unfold update_code_with_parameters, update_lines.
    now rewrite fold_left_app.
  - apply update_first_length.
  - destruct (update_first_spec name v lines)
      as [H|(pre & line & post & g & E & Hn & M & E')]; [now left|].
    right. apply update_match_parts in M
      as (w1 & n & ws1 & ws2 & num & rest & El & Eg & H1 & Hs & H3 & H5 & A).
    exists pre, line, post, w1, n, ws1, ws2, num, rest.
    rewrite Eg in E'. repeat split; auto.
Qed.

(** For a solid name the blanks kept are all the leading blanks of the
    line, and the name matched is all of its target. *)
Lemma update_keeps_indentation (name line : text) (g : list text) :
  solid name ->
  re_match (update_pattern name) line = Some g ->
  nth 0 g [] = indent_of line /\ same_name (target_of line) name.
Proof.
  intros S M.
  apply (re_match_assignment (Lit name) number
           (update_name_shape name S) number_shape) in M
    as (v & rest & -> & [E _] & _). auto.
Qed.

(** C5 as stated fails: the pattern is matched without regard to letter
    case, so the line rewritten for [seed] can be one whose target is
    [Seed], while the first line whose target is [seed] stays. *)
Lemma update_rewrites_a_target_of_another_case :
  split newline seed_in_two_cases = [T "Seed = 1"; T "seed = 2"]
  /\ target_of (T "Seed = 1") <> T "seed"
  /\ target_of (T "seed = 2") = T "seed"
  /\ split newline
       (update_code_with_parameters seed_in_two_cases [(T "seed", PInt 5)])
     = [T "seed = 5"; T "seed = 2"].
Proof.
  split; [reflexivity|]. split; [vm_compute; discriminate|].
  split; reflexivity.
Qed.

(* ================================================================== *)
(** * The patterns of the parser *)
(* ================================================================== *)

Lemma in_all_chars (c : ascii) : In c all_chars.
Proof.
  unfold all_chars. apply in_map_iff. exists (nat_of_ascii c).
  split; [apply ascii_nat_embedding|].
  apply in_seq. pose proof (nat_ascii_bounded c). lia.
Qed.

Lemma name_only_sound (r : regex) (w : text) (g : list text) :
  name_only r = true -> accepts r w g ->
  forallb is_name_char w = true /\ g = [].
Proof.
  revert w g. induction r as [| |l|p|p|c|a IHa b IHb|a IHa b IHb|a IHa];
    intros w g Hr A; cbn [name_only] in Hr; cbn [accepts] in A.
  - destruct A.
  - destruct A as [-> ->]. auto.
  - destruct A as [E ->]. split; [|reflexivity].
    rewrite (forallb_lower is_name_char w l); auto using name_char_lower.
  - destruct A as [H ->]. split; [|reflexivity].
    rewrite forallb_forall in *. intros c Hc.
    specialize (Hr c (in_all_chars c)). rewrite (H c Hc) in Hr. exact Hr.
  - destruct A as (H & _ & ->). split; [|reflexivity].
    rewrite forallb_forall in *. intros c Hc.
    specialize (Hr c (in_all_chars c)). rewrite (H c Hc) in Hr. exact Hr.
  - destruct A as [[->|(c' & -> & E)] ->]; split; auto.
    rewrite forallb_one.
    now rewrite <- name_char_lower, E, name_char_lower.
  - apply andb_true_iff in Hr as [Ha Hb].
    destruct A as (w1 & w2 & g1 & g2 & -> & -> & A1 & A2).
    destruct (IHa w1 g1 Ha A1) as [E1 ->].
    destruct (IHb w2 g2 Hb A2) as [E2 ->].
    rewrite forallb_app, E1, E2. auto.
  - apply andb_true_iff in Hr as [Ha Hb]. destruct A as [A|A]; auto.
  - discriminate.
Qed.

Lemma nullable_sound (r : regex) (g : list text) :
  accepts r [] g -> nullable r = true.
Proof.
  revert g. induction r as [| |l|p|p|c|a IHa b IHb|a IHa b IHb|a IHa];
    intros g A; cbn [nullable]; cbn [accepts] in A.
  - destruct A.
  - reflexivity.
  - destruct A as [E _]. destruct l; [reflexivity | discriminate].
  - reflexivity.
  - destruct A as (_ & N & _). congruence.
  - reflexivity.
  - destruct A as (w1 & w2 & g1 & g2 & E & _ & A1 & A2).
    symmetry in E. apply app_eq_nil in E as [-> ->].
    now rewrite (IHa g1 A1), (IHb g2 A2).
  - destruct A as [A|A]; [rewrite (IHa g A) | rewrite (IHb g A)];
      auto using orb_true_r.
  - destruct A as (g0 & _ & A). now apply (IHa g0).
Qed.

Lemma name_chars_solid (n : text) :
  forallb is_name_char n = true -> forallb is_solid n = true.
Proof.
  rewrite !forallb_forall. intros H c Hc. now apply name_char_solid, H.
Qed.

(** The name part of a detection pattern matches identifiers without
    digits: not empty, made of letters and underscores. *)
Lemma detection_name (N : regex) (n : text) (gn : list text) :
  name_only N = true -> nullable N = false -> accepts N n gn ->
  n <> [] /\ forallb is_name_char n = true /\ gn = [].
Proof.
  intros H1 H2 A. destruct (name_only_sound N n gn H1 A) as [Hn ->].
  repeat split; auto. intros ->.
  apply nullable_sound in A. congruence.
Qed.

Lemma detection_name_shape (N : regex) :
  name_only N = true -> nullable N = false -> name_shape N.
Proof.
  intros H1 H2 n gn A.
  destruct (detection_name N n gn H1 H2 A) as (Nn & Hn & ->).
  repeat split; auto using name_chars_solid.
Qed.

Lemma patterns_shape : Forall detection_pattern PARAMETER_PATTERNS.
Proof.
  unfold PARAMETER_PATTERNS.
  repeat (apply Forall_cons;
          [eexists; eexists; split; [reflexivity|];
           split; [vm_compute; reflexivity|];
           split; [vm_compute; reflexivity|];
           first [left; reflexivity | right; reflexivity] |]).
  apply Forall_nil.
Qed.

(** What a match of a detection pattern says about the line. *)
Lemma detection_match (P : regex) (line : text) (g : list text) :
  detection_pattern P -> re_match P line = Some g ->
  exists v rest,
    g = [indent_of line; target_of line; v]
    /\ target_of line <> []
    /\ forallb is_name_char (target_of line) = true
    /\ rhs_of line = Some (v ++ rest)
    /\ accepts number v [].
Proof.
  intros (N & V & -> & H1 & H2 & HV) M.
  apply (re_match_assignment N V (detection_name_shape N H1 H2) HV) in M
    as (v & rest & -> & An & Er & Av).
  destruct (detection_name N _ _ H1 H2 An) as (Nn & Hn & _).
  exists v, rest. repeat split; auto.
  now apply (value_is_number V).
Qed.

Lemma detection_pattern_in (P : regex) :
  In P PARAMETER_PATTERNS -> detection_pattern P.
Proof.
  intros H. pose proof patterns_shape as F. rewrite Forall_forall in F. auto.
Qed.

(** A line on which a name is detectable matches the update pattern of that
    name, and the name is its target. *)
Lemma detectable_target (line nm : text) :
  detectable line nm ->
  nm = target_of line /\ nm <> [] /\ forallb is_name_char nm = true
  /\ solid nm /\ matches (update_pattern nm) line.
Proof.
  intros (_ & P & g & HP & M & <-).
  apply detection_match in M as (v & rest & -> & Nn & Hn & Er & Av);
    [|now apply detection_pattern_in].
  simpl. assert (S : solid (target_of line))
    by (split; auto using name_chars_solid).
  repeat split; auto using name_chars_solid.
  apply matches_update_pattern; [exact S|]. split; [reflexivity | eauto].
Qed.

(* ================================================================== *)
(** * The first way of a match *)
(* ================================================================== *)

Lemma hd_flat_map (A B : Type) (f : A -> list B) (l : list A) (y : B) :
  hd_error (flat_map f l) = Some y ->
  exists x, In x l /\ hd_error (f x) = Some y.
Proof.
  induction l as [|x l IH]; simpl; [discriminate|].
  destruct (f x) as [|z zs] eqn:E; simpl.
  - intros H. destruct (IH H) as (x' & Hin & Hx). eauto.
  - intros [= <-]. exists x. rewrite E. auto.
Qed.

(** The first way through [a b] is a way through [a] followed by the first
    way through [b] from there. *)
Lemma hd_run_cat (a b : regex) (s : text) (w : way) :
  hd_error (run (Cat a b) s) = Some w ->
  exists w1 w2,
    In w1 (run a s) /\ hd_error (run b (snd w1)) = Some w2
    /\ w = (fst w1 ++ fst w2, snd w2).
Proof.
  cbn [run]. intros H. apply hd_flat_map in H as (w1 & Hin & H).
  destruct (run b (snd w1)) as [|w2 ws] eqn:E; [discriminate|].
  cbn [map hd_error] in H. injection H as <-. exists w1, w2.
  split; [exact Hin|]. rewrite E. split; reflexivity.
Qed.

Lemma re_match_hd (r : regex) (s : text) (g : list text) :
  re_match r s = Some g <-> exists s', hd_error (run r s) = Some (g, s').
Proof.
  unfold re_match. destruct (run r s) as [|[g0 s0] ws]; simpl; split.
  - discriminate.
  - now intros [s' [=]].
  - intros [= <-]. now exists s0.
  - now intros [s' [= <- _]].
Qed.

Lemma count_while_all (p : ascii -> bool) (s : text) :
  forallb p s = true -> count_while p s = length s.
Proof.
  intros H. rewrite <- (app_nil_r s) at 1. now apply count_while_stop.
Qed.

Lemma downto0_succ (n : nat) : downto0 (S n) = S n :: downto0 n.
Proof. reflexivity. Qed.

(** On a text of digits, the first way through either value pattern takes
    all of it. *)
Lemma hd_run_integer (ds : text) :
  forallb is_digit ds = true -> ds <> [] ->
  hd_error (run (Cat (Group integer) Eps) ds) = Some ([ds], []).
Proof.
  intros D N. unfold integer. simpl run.
  rewrite (count_while_all is_digit ds D).
  destruct ds as [|c ds]; [congruence|]. simpl length. simpl downto1.
  simpl map. rewrite skipn_all. simpl.
  now rewrite firstn_all.
Qed.

Lemma downto0_head (m : nat) : exists tl, downto0 m = m :: tl.
Proof. destruct m; [now exists [] | now exists (downto0 m)]. Qed.

Lemma run_number_digits (ds : text) :
  forallb is_digit ds = true -> ds <> [] ->
  exists tl, run number ds = ([], []) :: tl.
Proof.
  intros D N.
  destruct (exists_last N) as (ds' & c & ->).
  rewrite forallb_app in D. apply andb_true_iff in D as [D' Dc].
  simpl in Dc. rewrite andb_true_r in Dc.
  assert (L : length (ds' ++ [c]) = S (length ds'))
    by (rewrite length_app; simpl; lia).
  assert (C : count_while is_digit (ds' ++ [c]) = S (length ds')).
  { rewrite count_while_all; [exact L|].
    rewrite forallb_app, D'. simpl. now rewrite Dc. }
  assert (Hc : strip_prefix_ci ["."%char] [c] = None).
  { cbn [strip_prefix_ci]. unfold ascii_eqb.
    destruct (Ascii.eqb_spec (lower "."%char) (lower c)) as [E|]; [|reflexivity].
    symmetry in E. apply lower_point in E. subst. discriminate Dc. }
  assert (R0 : run (Cat (Opt "."%char) (Cat (Plus is_digit) Eps)) [] = [])
    by reflexivity.
  assert (R1 : run (Cat (Opt "."%char) (Cat (Plus is_digit) Eps)) [c]
               = [([], [])]).
  { cbn [run]. rewrite Hc. cbn [flat_map map fst snd app count_while].
    rewrite Dc. reflexivity. }
  unfold number, seq. cbn [fold_right].
  remember (Cat (Opt "."%char) (Cat (Plus is_digit) Eps)) as R eqn:ER.
  simpl run. rewrite C, downto0_succ.
  destruct (downto0_head (length ds')) as [tl ->].
  cbn [map flat_map fst snd].
  rewrite (skipn_all2 (ds' ++ [c])) by (rewrite L; lia).
  rewrite skipn_length_app, R0, R1.
  cbn [map app fst snd]. eauto.
Qed.

Lemma hd_run_number (ds : text) :
  forallb is_digit ds = true -> ds <> [] ->
  hd_error (run (Cat (Group number) Eps) ds) = Some ([ds], []).
Proof.
  intros D N. destruct (run_number_digits ds D N) as [tl E].
  remember number as Nb eqn:EN. simpl run. rewrite E. simpl.
  rewrite Nat.sub_0_r, firstn_all. reflexivity.
Qed.

(** On digits, a point and digits, the first way through the pattern of
    numbers takes all of it. *)
Lemma run_number_point (a b : text) :
  forallb is_digit a = true -> forallb is_digit b = true -> b <> [] ->
  exists tl, run number (a ++ "."%char :: b) = ([], []) :: tl.
Proof.
  intros Da Db Nb.
  assert (C : count_while is_digit (a ++ "."%char :: b) = length a)
    by (apply count_while_stop; [exact Da | reflexivity]).
  assert (Cb : count_while is_digit b = length b)
    by now apply count_while_all.
  assert (Rb : exists tl, run (Cat (Plus is_digit) Eps) b = ([], []) :: tl).
  { assert (Hd : exists tl, downto1 (length b) = length b :: tl).
    { destruct b as [|c b]; [congruence|]. cbn [length downto1]. eauto. }
    destruct Hd as [tl Hd].
    cbn [run]. rewrite Cb, Hd. cbn [map flat_map fst snd].
    rewrite skipn_all. cbn [map app fst snd]. eauto. }
  destruct Rb as [tlb Rb].
  assert (R1 : exists tl,
             run (Cat (Opt "."%char) (Cat (Plus is_digit) Eps))
                 ("."%char :: b) = ([], []) :: tl).
  { remember (Cat (Plus is_digit) Eps) as R eqn:ER.
    cbn [run strip_prefix_ci]. unfold ascii_eqb. rewrite Ascii.eqb_refl.
    cbn [flat_map fst snd]. rewrite Rb. cbn [map app fst snd]. eauto. }
  destruct R1 as [tl1 R1].
  unfold number, seq. cbn [fold_right].
  remember (Cat (Opt "."%char) (Cat (Plus is_digit) Eps)) as R eqn:ER.
  cbn [run]. rewrite C.
  destruct (downto0_head (length a)) as [tl ->].
  cbn [map flat_map fst snd].
  rewrite skipn_length_app, R1.
  cbn [map app fst snd]. eauto.
Qed.

Lemma hd_run_number_point (a b : text) :
  forallb is_digit a = true -> forallb is_digit b = true -> b <> [] ->
  hd_error (run (Cat (Group number) Eps) (a ++ "."%char :: b))
  = Some ([a ++ "."%char :: b], []).
Proof.
  intros Da Db Nb. destruct (run_number_point a b Da Db Nb) as [tl E].
  remember number as Nb' eqn:EN. cbn [run]. rewrite E.
  cbn [map flat_map fst snd app hd_error length].
  rewrite Nat.sub_0_r, firstn_all. reflexivity.
Qed.

Lemma hd_run_value (V : regex) (ds : text) :
  value_shape V -> forallb is_digit ds = true -> ds <> [] ->
  hd_error (run (Cat (Group V) Eps) ds) = Some ([ds], []).
Proof. intros [-> | ->]; auto using hd_run_number, hd_run_integer. Qed.

(** When the first way through the value pattern takes all of the
    right-hand side of a line, the value group of a match is all of it. *)
Lemma re_match_whole_rhs (N V : regex) (line r : text) (g : list text) :
  name_shape N -> value_shape V ->
  rhs_of line = Some r ->
  hd_error (run (Cat (Group V) Eps) r) = Some ([r], []) ->
  re_match (assignment N V) line = Some g ->
  g = [indent_of line; target_of line; r].
Proof.
  intros HN HV Er Hr M.
  pose proof M as M'.
  apply (re_match_assignment N V HN HV) in M'
    as (v0 & rest0 & Eg & _ & _ & _).
  enough (nth 2 g [] = r) as E by (subst g; simpl in E; now subst v0).
  clear v0 rest0 Eg.
  apply re_match_hd in M as [s' M].
  change (assignment N V)
    with (Cat (Group (Star is_space))
           (Cat (Group N)
             (Cat (Star is_space)
               (Cat (Lit (T "="))
                 (Cat (Star is_space) (Cat (Group V) Eps)))))) in M.
  apply hd_run_cat in M as ([g1 s1] & w1' & I1 & M & Ew).
  apply hd_run_cat in M as ([g2 s2] & w2' & I2 & M & ->).
  apply hd_run_cat in M as ([g3 s3] & w3' & I3 & M & ->).
  apply hd_run_cat in M as ([g4 s4] & w4' & I4 & M & ->).
  apply hd_run_cat in M as ([g5 s5] & [g6 s6] & I5 & M & ->).
  cbn [fst snd] in *. injection Ew as -> ->.
  apply run_spec in I1 as (x1 & E1 & (g0 & -> & B1 & ->)).
  apply run_spec in I2 as (x2 & E2 & (gn & -> & A2)).
  apply run_spec in I3 as (x3 & E3 & B3 & ->).
  apply run_spec in I4 as (x4 & E4 & B4 & ->).
  apply run_spec in I5 as (x5 & E5 & B5 & ->).
  apply accepts_equals in B4. subst x4.
  destruct (HN x2 gn A2) as [S2 ->].
  assert (I6 : In (g6, s6) (run (Cat (Group V) Eps) s5)).
  { destruct (run (Cat (Group V) Eps) s5) as [|w ws]; [discriminate|].
    injection M as ->. now left. }
  apply run_spec in I6
    as (x6 & E6 & (v & e & gv & ge & -> & -> & (gv' & -> & Av) & -> & ->)).
  destruct (value_starts V v gv' HV Av) as [-> Sv].
  assert (Es5 : s5 = r).
  { destruct (line_parts x1 x2 x3 x5 v s6 B1 S2 B3 B5 Sv) as (_ & _ & E).
    cbv zeta in E. rewrite app_nil_r in E6.
    rewrite <- E6, <- E5, <- E4, <- E3, <- E2, <- E1 in E. congruence. }
  rewrite Es5, Hr in M.
  injection M as <- _. reflexivity.
Qed.

(** When the right-hand side of a line is a text of digits and nothing
    else, the value group of a match is all of it. *)
Lemma re_match_digits (N V : regex) (line ds : text) (g : list text) :
  name_shape N -> value_shape V ->
  rhs_of line = Some ds -> forallb is_digit ds = true -> ds <> [] ->
  re_match (assignment N V) line = Some g ->
  g = [indent_of line; target_of line; ds].
Proof.
  intros HN HV Er D Nd.
  apply (re_match_whole_rhs N V line ds g HN HV Er).
  now apply hd_run_value.
Qed.

(** The same for digits, a point and digits under the pattern of
    numbers. *)
Lemma re_match_point (N : regex) (line a b : text) (g : list text) :
  name_shape N ->
  rhs_of line = Some (a ++ "."%char :: b) ->
  forallb is_digit a = true -> forallb is_digit b = true -> b <> [] ->
  re_match (assignment N number) line = Some g ->
  g = [indent_of line; target_of line; a ++ "."%char :: b].
Proof.
  intros HN Er Da Db Nb.
  apply (re_match_whole_rhs N number line _ g HN number_shape Er).
  now apply hd_run_number_point.
Qed.

(* ================================================================== *)
(** * The scan of [detect_parameters] *)
(* ================================================================== *)

Lemma text_eqb_eq (a b : text) : text_eqb a b = true <-> a = b.
Proof.
  revert b. induction a as [|x a IH]; intros [|y b]; cbn [text_eqb].
  - tauto.
  - split; discriminate.
  - split; discriminate.
  - unfold ascii_eqb. rewrite andb_true_iff, Ascii.eqb_eq, IH.
    split; [intros [-> ->]; reflexivity | intros [= -> ->]; auto].
Qed.

Lemma text_in_In (x : text) (xs : list text) : text_in x xs = true <-> In x xs.
Proof.
  unfold text_in. rewrite existsb_exists. split.
  - intros (y & Hy & E). apply text_eqb_eq in E. now subst.
  - intros H. exists x. split; [exact H | now apply text_eqb_eq].
Qed.

Lemma hints_keep (p : Param) :
  name (apply_parameter_hints p) = name p
  /\ value (apply_parameter_hints p) = value p
  /\ line_number (apply_parameter_hints p) = line_number p
  /\ param_type (apply_parameter_hints p) = param_type p.
Proof.
  unfold apply_parameter_hints.
  repeat match goal with
         | |- context [if ?b then _ else _] => destruct b
         end; auto.
Qed.

Lemma new_Parameter_fields (n : text) (v : pynum) (ln : nat) (o t : text) :
  name (new_Parameter n v ln o t) = n
  /\ value (new_Parameter n v ln o t) = v
  /\ line_number (new_Parameter n v ln o t) = ln
  /\ param_type (new_Parameter n v ln o t) = t.
Proof.
  unfold new_Parameter. destruct (post_init v t None None None) as [[mn mx] st].
  auto.
Qed.

Section ScanPatterns.

Variables (seen : list text) (ln : nat) (line : text).

Lemma scan_patterns_step (P : regex) (pats : list regex) (g : list text) :
  detection_pattern P -> re_match P line = Some g ->
  exists v,
    g = [indent_of line; target_of line; v]
    /\ scan_patterns (P :: pats) seen ln line
       = if text_in (target_of line) seen
         then scan_patterns pats seen ln line
         else Some (apply_parameter_hints
                      (new_Parameter (target_of line) (read_value v) ln
                         (target_of line ++ T " = " ++ v)
                         (if contains v (T ".") then T "float" else T "int"))).
Proof.
  intros HP M.
  destruct (detection_match P line g HP M) as (v & rest & -> & _).
  exists v. split; [reflexivity|].
  cbn [scan_patterns]. rewrite M. unfold read_value.
  destruct (text_in (target_of line) seen); [reflexivity|].
  destruct (contains v (T ".")); reflexivity.
Qed.

Lemma scan_patterns_skip (P : regex) (pats : list regex) :
  re_match P line = None ->
  scan_patterns (P :: pats) seen ln line = scan_patterns pats seen ln line.
Proof. intros M. cbn [scan_patterns]. now rewrite M. Qed.

Lemma scan_patterns_some (pats : list regex) (p : Param) :
  Forall detection_pattern pats ->
  scan_patterns pats seen ln line = Some p ->
  name p = target_of line /\ line_number p = ln
  /\ text_in (name p) seen = false
  /\ exists P g,
       In P pats /\ re_match P line = Some g /\ nth 1 g [] = name p
       /\ value p = read_value (nth 2 g []).
Proof.
  induction 1 as [|P pats HP F IH]; [discriminate|].
  destruct (re_match P line) as [g|] eqn:M.
  - destruct (scan_patterns_step P pats g HP M) as (v & -> & ->).
    destruct (text_in (target_of line) seen) eqn:Hs.
    + intros H. destruct (IH H) as (E1 & E2 & E3 & P' & g' & HP' & R).
      repeat split; auto. exists P', g'. split; [now right | exact R].
    + intros [= <-].
      match goal with
      | |- context [apply_parameter_hints ?q] =>
          destruct (hints_keep q) as (-> & -> & -> & _)
      end.
      match goal with
      | |- context [new_Parameter ?a ?b ?c ?d ?e] =>
          destruct (new_Parameter_fields a b c d e) as (-> & -> & -> & _)
      end.
      repeat split; auto.
      exists P, [indent_of line; target_of line; v].
      split; [now left|]. split; [exact M|]. split; reflexivity.
  - rewrite (scan_patterns_skip P pats M).
    intros H. destruct (IH H) as (E1 & E2 & E3 & P' & g' & HP' & R).
    repeat split; auto. exists P', g'. split; [now right | exact R].
Qed.

Lemma scan_patterns_none (pats : list regex) :
  Forall detection_pattern pats ->
  scan_patterns pats seen ln line = None ->
  forall P g, In P pats -> re_match P line = Some g ->
              text_in (target_of line) seen = true.
Proof.
  induction 1 as [|P pats HP F IH]; [intros _ ? ? []|].
  destruct (re_match P line) as [g|] eqn:M.
  - destruct (scan_patterns_step P pats g HP M) as (v & -> & ->).
    destruct (text_in (target_of line) seen) eqn:Hs; [auto | discriminate].
  - rewrite (scan_patterns_skip P pats M).
    intros H P' g' [<-|Hin] M'; [congruence | eauto].
Qed.

End ScanPatterns.

Lemma scan_skipped (line : text) (rest : list text) (ln : nat) (seen : list text) :
  scan_lines (line :: rest) ln seen
  = if skipped line then scan_lines rest (S ln) seen
    else match scan_patterns PARAMETER_PATTERNS seen ln line with
         | Some param =>
             param :: scan_lines rest (S ln) (name param :: seen)
         | None => scan_lines rest (S ln) seen
         end.
Proof. reflexivity. Qed.

(** Each parameter of the scan comes from the first line on which its name
    is detectable, and its name was not seen before. *)
Lemma scan_lines_first (lines : list text) (ln : nat) (seen : list text)
    (p : Param) :
  In p (scan_lines lines ln seen) ->
  exists k line,
    line_number p = ln + k /\ nth_error lines k = Some line
    /\ detectable line (name p)
    /\ text_in (name p) seen = false
    /\ forall j l, j < k -> nth_error lines j = Some l ->
                   ~ detectable l (name p).
Proof.
  revert ln seen. induction lines as [|line rest IH]; intros ln seen;
    [intros []|].
  rewrite scan_skipped.
  assert (Later : forall seen',
             (forall x, text_in x seen' = false -> text_in x seen = false) ->
             ~ detectable line (name p) ->
             In p (scan_lines rest (S ln) seen') ->
             exists k line0,
               line_number p = ln + k /\ nth_error (line :: rest) k = Some line0
               /\ detectable line0 (name p)
               /\ text_in (name p) seen = false
               /\ forall j l, j < k -> nth_error (line :: rest) j = Some l ->
                              ~ detectable l (name p)).
  { intros seen' Hs Hnd Hin.
    destruct (IH (S ln) seen' Hin) as (k & line0 & E & Hk & Hd & Hn & Hf).
    exists (S k), line0.
    split; [lia|]. split; [exact Hk|]. split; [exact Hd|].
    split; [apply Hs; exact Hn|].
    intros [|j] l Hj; cbn [nth_error]; [intros [= <-]; exact Hnd|].
    intros Hl. apply (Hf j l); [lia | exact Hl]. }
  destruct (skipped line) eqn:Hsk.
  - apply Later; [auto|]. intros [C _]. congruence.
  - destruct (scan_patterns PARAMETER_PATTERNS seen ln line) as [param|] eqn:Hp.
    + destruct (scan_patterns_some seen ln line PARAMETER_PATTERNS param
                  patterns_shape Hp) as (En & El & Hs & P & g & HP & M & Eg & _).
      intros [<-|Hin].
      * exists 0, line. rewrite Nat.add_0_r.
        split; [exact El|]. split; [reflexivity|].
        split.
        { split; [exact Hsk|]. exists P, g.
          split; [exact HP|]. split; [exact M | exact Eg]. }
        split; [exact Hs|]. intros j l Hj. lia.
      * destruct (IH (S ln) (name param :: seen) Hin)
          as (_ & _ & _ & _ & _ & Hn & _).
        revert Hin. apply Later.
        -- intros x Hx. unfold text_in in Hx. cbn [existsb] in Hx.
           apply orb_false_iff in Hx. exact (proj2 Hx).
        -- intros Hd. apply detectable_target in Hd as (Et & _).
           unfold text_in in Hn. cbn [existsb] in Hn.
           apply orb_false_iff in Hn as [Hn _].
           assert (text_eqb (name p) (name param) = true)
             by (apply text_eqb_eq; congruence).
           congruence.
    + intros Hin.
      destruct (IH (S ln) seen Hin) as (_ & _ & _ & _ & _ & Hn & _).
      revert Hin. apply Later; [auto|].
      intros (_ & P & g & HP & M & Eg).
      pose proof (scan_patterns_none seen ln line PARAMETER_PATTERNS
                    patterns_shape Hp P g HP M) as C.
      apply detection_match in M as (v & rest' & -> & _);
        [|apply detection_pattern_in; exact HP].
      cbn [nth] in Eg. congruence.
Qed.

Lemma scan_lines_names (lines : list text) (ln : nat) (seen : list text) :
  NoDup (map name (scan_lines lines ln seen)).
Proof.
  revert ln seen. induction lines as [|line rest IH]; intros ln seen;
    [constructor|].
  rewrite scan_skipped. destruct (skipped line); [apply IH|].
  destruct (scan_patterns PARAMETER_PATTERNS seen ln line) as [param|];
    [|apply IH].
  cbn [map]. constructor; [|apply IH].
  intros Hin. apply in_map_iff in Hin as (p & E & Hin).
  apply scan_lines_first in Hin as (_ & _ & _ & _ & _ & Hn & _).
  unfold text_in in Hn. cbn [existsb] in Hn.
  apply orb_false_iff in Hn as [Hn _].
  assert (text_eqb (name p) (name param) = true)
    by (apply text_eqb_eq; congruence).
  congruence.
Qed.

(** The scan of the lines after some others goes on with the names those
    gave. *)
Lemma scan_lines_app (pre rest : list text) (ln : nat) (seen : list text) :
  scan_lines (pre ++ rest) ln seen
  = scan_lines pre ln seen
    ++ scan_lines rest (ln + length pre)
         (rev (map name (scan_lines pre ln seen)) ++ seen).
Proof.
  revert ln seen. induction pre as [|line pre IH]; intros ln seen.
  - cbn [app scan_lines map rev length]. now rewrite Nat.add_0_r.
  - change ((line :: pre) ++ rest) with (line :: pre ++ rest).
    rewrite !scan_skipped.
    replace (ln + length (line :: pre)) with (S ln + length pre)
      by (cbn [length]; lia).
    destruct (skipped line); [apply IH|].
    destruct (scan_patterns PARAMETER_PATTERNS seen ln line) as [param|];
      [|apply IH].
    rewrite IH. cbn [map rev app]. rewrite <- app_assoc. reflexivity.
Qed.

(* ================================================================== *)
(** * Properties of detection *)
(* ================================================================== *)

(** C8.  On the script [learning_rate = 0.01], [detect_parameters] yields
    exactly one parameter: [learning_rate], a float, with range 0.0001 to
    1.0 and step 0.001. *)
Theorem detect_learning_rate :
  detect_parameters learning_rate_script
  = [mkParameter (T "learning_rate") (PFloat 0.01%Q) 1
                 (T "learning_rate = 0.01") (T "float")
                 (PFloat 0.0001%Q) (PFloat 1%Q) (PFloat 0.001%Q)].
Proof. vm_compute. reflexivity. Qed.

(** C2 fails on the code: for [learning_rate = 5] the override for rates
    sets the range 0.0001 to 1.0 and leaves the value 5 outside it. *)
Theorem detect_value_outside_range :
  exists p,
    detect_parameters large_learning_rate = [p]
    /\ value p = PInt 5
    /\ min_value p = PFloat 0.0001%Q
    /\ max_value p = PFloat 1%Q
    /\ py_le (value p) (max_value p) = false.
Proof. eexists. split; [vm_compute; reflexivity|]. repeat split. Qed.

(** The position of a detected parameter, and what an update of its name
    does to the lines of the script. *)
Lemma detected_line (code : text) (p : Param) :
  In p (detect_parameters code) ->
  exists line,
    1 <= line_number p
    /\ nth_error (split newline code) (line_number p - 1) = Some line
    /\ detectable line (name p)
    /\ forall j l, j < line_number p - 1 ->
                   nth_error (split newline code) j = Some l ->
                   ~ detectable l (name p).
Proof.
  unfold detect_parameters. intros H.
  apply scan_lines_first in H as (k & line & E & Hk & Hd & _ & Hf).
  exists line. rewrite E.
  replace (1 + k - 1) with k by lia.
  split; [lia|]. split; [exact Hk|]. split; [exact Hd | exact Hf].
Qed.

Lemma update_of_detected (lines : list text) (k : nat) (line nm : text)
    (v : pynum) :
  nth_error lines k = Some line -> detectable line nm ->
  exists pre l0 post,
    lines = pre ++ l0 :: post
    /\ length pre <= k
    /\ (forall l, In l pre -> ~ matches (update_pattern nm) l)
    /\ matches (update_pattern nm) l0
    /\ update_first nm v lines
       = pre ++ assignment_line (indent_of l0) nm v :: post.
Proof.
  intros Hk Hd.
  destruct (detectable_target line nm Hd) as (_ & _ & _ & S & M).
  destruct (update_first_spec nm v lines)
    as [[Hn _]|(pre & l0 & post & g & E & Hn & Hm & E')].
  - exfalso. apply (Hn line); [|exact M]. now apply nth_error_In with k.
  - exists pre, l0, post.
    destruct (update_keeps_indentation nm l0 g S Hm) as [Ei _].
    rewrite Ei in E'.
    split; [exact E|]. split; [|split; [exact Hn|split; [|exact E']]].
    + destruct (Nat.le_gt_cases (length pre) k) as [L|L]; [exact L|].
      exfalso. apply (Hn line); [|exact M].
      rewrite E, nth_error_app1 in Hk by exact L.
      now apply nth_error_In with k.
    + apply re_match_matches. now exists g.
Qed.

(** C6, as amended.  [detect_parameters] yields at most one parameter per
    name, and reports it at the first line, from the top, on which a pattern
    finds that name.  [update_code_with_parameters] rewrites one line for a
    detected name: the first line that matches the pattern of the name, that
    is, whose target is the name up to letter case and whose right-hand side
    starts with an unsigned number; it is the reported line or one above
    it. *)
Theorem detect_first_occurrence_update_first_match (code : text) :
  NoDup (map name (detect_parameters code))
  /\ forall p, In p (detect_parameters code) ->
       (exists line,
          1 <= line_number p
          /\ nth_error (split newline code) (line_number p - 1) = Some line
          /\ detectable line (name p)
          /\ forall j l, j < line_number p - 1 ->
                         nth_error (split newline code) j = Some l ->
                         ~ detectable l (name p))
       /\ forall v, exists pre l0 post,
            split newline code = pre ++ l0 :: post
            /\ length pre <= line_number p - 1
            /\ (forall l, In l pre ->
                  ~ (same_name (target_of l) (name p)
                     /\ exists v0 rest,
                          rhs_of l = Some (v0 ++ rest)
                          /\ accepts number v0 []))
            /\ same_name (target_of l0) (name p)
            /\ (exists v0 rest,
                  rhs_of l0 = Some (v0 ++ rest) /\ accepts number v0 [])
            /\ update_code_with_parameters code [(name p, v)]
               = join newline
                   (pre ++ assignment_line (indent_of l0) (name p) v :: post).
Proof.
  split; [apply scan_lines_names|].
  intros p Hp. split; [now apply detected_line|].
  intros v. destruct (detected_line code p Hp) as (line & _ & Hk & Hd & _).
  destruct (detectable_target line (name p) Hd) as (_ & _ & _ & S & _).
  destruct (update_of_detected (split newline code) (line_number p - 1)
              line (name p) v Hk Hd)
    as (pre & l0 & post & E & L & Hn & Hm & Eu).
  apply (matches_update_pattern (name p) l0 S) in Hm as [Hs Hv].
  exists pre, l0, post.
  split; [exact E|]. split; [exact L|].
  split; [|split; [exact Hs|split; [exact Hv|]]].
  - intros l Hl C. apply (Hn l Hl).
    now apply (matches_update_pattern (name p) l S).
  - unfold update_code_with_parameters, update_lines. cbn [fold_left fst snd].
    now rewrite Eu.
Qed.

(** C6 as stated fails: the line that an update rewrites need not be the
    occurrence that detection reports.  Here the first line assigns [.5],
    which the pattern for [n_] names rejects and the update pattern
    accepts. *)
Lemma update_rewrites_a_line_above_the_detected_one :
  map (fun p => (name p, line_number p)) (detect_parameters point_then_int)
  = [(T "n_x", 2)]
  /\ split newline
       (update_code_with_parameters point_then_int [(T "n_x", PInt 7)])
     = [T "n_x = 7"; T "n_x = 3"].
Proof. split; vm_compute; reflexivity. Qed.

(* ================================================================== *)
(** * Detection after an update *)
(* ================================================================== *)

Lemma contains_one (s : text) (c : ascii) : contains s [c] = true -> In c s.
Proof.
  induction s as [|x s IH]; cbn [contains].
  - discriminate.
  - unfold startswith. cbn [strip_prefix]. unfold ascii_eqb.
    destruct (Ascii.eqb_spec c x) as [->|N]; [now left|].
    cbn [orb]. intros H. right. now apply IH.
Qed.

Lemma digits_have_no_point (ds : text) :
  forallb is_digit ds = true -> contains ds (T ".") = false.
Proof.
  intros D. destruct (contains ds (T ".")) eqn:C; [|reflexivity].
  apply contains_one in C. rewrite forallb_forall in D.
  specialize (D _ C). discriminate.
Qed.

(** The text of an integral value that is not negative: its digits. *)
Lemma format_value_whole (v : pynum) :
  nonneg v -> whole v ->
  format_value v = digits_of (py_int v)
  /\ forallb is_digit (digits_of (py_int v)) = true
  /\ digits_of (py_int v) <> []
  /\ parse_digits (digits_of (py_int v)) = py_int v.
Proof.
  intros N W.
  pose proof (py_int_nonneg v N) as Hz.
  destruct (digits_of_spec (py_int v) Hz) as (D & Ne & P).
  split; [|auto].
  unfold format_value. unfold whole in W. rewrite W.
  destruct (is_float v); now apply str_int_nonneg.
Qed.

Lemma digits_start_value (ds : text) :
  forallb is_digit ds = true -> ds <> [] -> starts_value ds = true.
Proof.
  destruct ds as [|c ds]; [congruence|]. cbn [forallb starts_value].
  intros H _. apply andb_true_iff in H as [-> _]. reflexivity.
Qed.

(** The parts of the line written for an identifier and an integral
    value. *)
Lemma whole_line_parts (indent nm : text) (v : pynum) :
  forallb is_space indent = true -> solid nm -> nonneg v -> whole v ->
  indent_of (assignment_line indent nm v) = indent
  /\ target_of (assignment_line indent nm v) = nm
  /\ rhs_of (assignment_line indent nm v) = Some (digits_of (py_int v)).
Proof.
  intros Hi Hn N W.
  destruct (format_value_whole v N W) as (E & D & Ne & _).
  unfold assignment_line. rewrite E.
  destruct (line_parts indent nm [" "%char] [" "%char] (digits_of (py_int v)) [])
    as (E1 & E2 & E3); auto using digits_start_value.
  cbv zeta in E1, E2, E3. rewrite app_nil_r in E1, E2, E3.
  change (indent ++ nm ++ T " = " ++ digits_of (py_int v))
    with (indent ++ nm ++ [" "%char] ++ T "=" ++ [" "%char]
                 ++ digits_of (py_int v)).
  auto.
Qed.

Lemma name_char_not_hash (c : ascii) :
  is_name_char c = true -> ascii_eqb "#"%char c = false.
Proof. each_char c; vm_compute; congruence. Qed.

(** A line that starts, after blanks, with an identifier is not skipped. *)
Lemma identifier_line_not_skipped (indent nm rest : text) :
  forallb is_space indent = true -> nm <> [] ->
  forallb is_name_char nm = true ->
  skipped (indent ++ nm ++ rest) = false.
Proof.
  intros Hi Ne Hn. destruct nm as [|c nm]; [congruence|].
  cbn [forallb] in Hn. apply andb_true_iff in Hn as [Hc _].
  pose proof (solid_not_space c (name_char_solid c Hc)) as Sc.
  unfold skipped, strip, lstrip.
  destruct (take_while_stop is_space indent ((c :: nm) ++ rest) Hi Sc)
    as [_ ->].
  destruct (rstrip_by_head is_space c (nm ++ rest)) as [t E].
  { exists c. split; [now left | exact Sc]. }
  change ((c :: nm) ++ rest) with (c :: nm ++ rest). rewrite E.
  unfold startswith. cbn [strip_prefix T list_ascii_of_string orb].
  now rewrite (name_char_not_hash c Hc).
Qed.

Lemma value_accepts_digits (V : regex) (ds : text) :
  value_shape V -> forallb is_digit ds = true -> ds <> [] ->
  accepts V ds [].
Proof.
  intros [-> | ->] D Ne.
  - apply accepts_number. split; [reflexivity|].
    exists [], [], ds. auto.
  - apply accepts_integer. auto.
Qed.

Section RoundTrip.

Variables (nm : text) (v : pynum) (indent : text).
Hypothesis Hi : forallb is_space indent = true.
Hypothesis Nv : nonneg v.
Hypothesis Wv : whole v.

(** Scanning the written line gives the name and the value back, when
    some pattern of the parser takes the name and the name was not seen
    above. *)
Lemma scan_written_line (line : text) (seen : list text) (ln : nat) :
  detectable line nm -> text_in nm seen = false ->
  exists p',
    scan_patterns PARAMETER_PATTERNS seen ln (assignment_line indent nm v) = Some p'
    /\ name p' = nm /\ value p' = PInt (py_int v).
Proof.
  intros Hd Hs.
  destruct (detectable_target line nm Hd) as (Et & Ne & Hc & S & _).
  destruct Hd as (_ & P & g & HP & M & _).
  destruct (detection_pattern_in P HP) as (N & V & -> & H1 & H2 & HV).
  pose proof (detection_name_shape N H1 H2) as HN.
  apply (re_match_assignment N V HN HV) in M as (v0 & r0 & _ & An & _).
  rewrite <- Et in An.
  destruct (whole_line_parts indent nm v Hi S Nv Wv) as (E1 & E2 & E3).
  destruct (format_value_whole v Nv Wv) as (_ & D & Nd & Pd).
  assert (Mw : matches (assignment N V) (assignment_line indent nm v)).
  { apply (matches_assignment N V HN HV). rewrite E2. split; [exact An|].
    exists (digits_of (py_int v)), []. rewrite app_nil_r.
    split; [exact E3|]. now apply value_accepts_digits. }
  apply re_match_matches in Mw as [gw Mw].
  destruct (scan_patterns PARAMETER_PATTERNS seen ln (assignment_line indent nm v)) as [p'|] eqn:Sp.
  - exists p'. split; [reflexivity|].
    destruct (scan_patterns_some seen ln (assignment_line indent nm v) PARAMETER_PATTERNS p'
                patterns_shape Sp)
      as (En & _ & _ & P' & g' & HP' & M' & _ & Ev).
    split; [congruence|].
    destruct (detection_pattern_in P' HP') as (N' & V' & -> & H1' & H2' & HV').
    rewrite (re_match_digits N' V' (assignment_line indent nm v) (digits_of (py_int v)) g'
               (detection_name_shape N' H1' H2') HV' E3 D Nd M') in Ev.
    cbn [nth] in Ev. rewrite Ev. unfold read_value.
    rewrite (digits_have_no_point _ D). now rewrite Pd.
  - exfalso.
    pose proof (scan_patterns_none seen ln (assignment_line indent nm v) PARAMETER_PATTERNS
                  patterns_shape Sp (assignment N V) gw HP Mw) as C.
    rewrite E2 in C. congruence.
Qed.

End RoundTrip.

(* ------------------------------------------------------------------ *)
(** ** Values with a fraction *)

(** The parts of a line made of blanks, a solid name, [ = ] and a numeral
    with a point. *)
Lemma point_line_parts (indent nm a b : text) :
  forallb is_space indent = true -> solid nm ->
  forallb is_digit a = true -> a <> [] ->
  indent_of (indent ++ nm ++ T " = " ++ a ++ "."%char :: b) = indent
  /\ target_of (indent ++ nm ++ T " = " ++ a ++ "."%char :: b) = nm
  /\ rhs_of (indent ++ nm ++ T " = " ++ a ++ "."%char :: b)
     = Some (a ++ "."%char :: b).
Proof.
  intros Hi Hn Da Na.
  destruct (line_parts indent nm [" "%char] [" "%char] (a ++ "."%char :: b) [])
    as (E1 & E2 & E3); auto.
  { destruct a as [|c a]; [congruence|]. cbn [forallb app starts_value] in *.
    apply andb_true_iff in Da as [-> _]. reflexivity. }
  cbv zeta in E1, E2, E3. rewrite app_nil_r in E1, E2, E3.
  change (indent ++ nm ++ T " = " ++ a ++ "."%char :: b)
    with (indent ++ nm ++ [" "%char] ++ T "=" ++ [" "%char]
                 ++ a ++ "."%char :: b).
  auto.
Qed.

Lemma contains_point (a b : text) :
  contains (a ++ "."%char :: b) (T ".") = true.
Proof. apply (contains_mid a (T ".") b). Qed.

Lemma created_fields (n : text) (v : pynum) (ln : nat) (o t : text) :
  name (apply_parameter_hints (new_Parameter n v ln o t)) = n
  /\ value (apply_parameter_hints (new_Parameter n v ln o t)) = v
  /\ line_number (apply_parameter_hints (new_Parameter n v ln o t)) = ln
  /\ param_type (apply_parameter_hints (new_Parameter n v ln o t)) = t.
Proof.
  destruct (hints_keep (new_Parameter n v ln o t)) as (-> & -> & -> & ->).
  apply new_Parameter_fields.
Qed.

Section SamePattern.

Variables (nm a b : text) (seen : list text) (ln1 ln2 : nat) (L1 L2 : text).
Hypothesis T1 : target_of L1 = nm.
Hypothesis R1 : rhs_of L1 = Some (T "0.5").
Hypothesis T2 : target_of L2 = nm.
Hypothesis R2 : rhs_of L2 = Some (a ++ "."%char :: b).
Hypothesis Da : forallb is_digit a = true.
Hypothesis Db : forallb is_digit b = true.
Hypothesis Nb : b <> [].
Hypothesis Hs : text_in nm seen = false.

(** The pattern that reads [name = 0.5] as a float is the one that reads
    the line with the numeral [a.b], and it takes all of the numeral. *)
Lemma scan_same_pattern (pats : list regex) (q : Param) :
  Forall detection_pattern pats ->
  scan_patterns pats [] ln1 L1 = Some q -> param_type q = T "float" ->
  exists p',
    scan_patterns pats seen ln2 L2 = Some p'
    /\ name p' = nm
    /\ value p' = PFloat (parse_float (a ++ "."%char :: b)).
Proof.
  induction 1 as [|P pats HP F IH]; [discriminate|].
  pose proof HP as (N & V & EP & H1 & H2 & HV).
  pose proof (detection_name_shape N H1 H2) as HN.
  destruct (re_match P L1) as [g1|] eqn:M1.
  - destruct (scan_patterns_step [] ln1 L1 P pats g1 HP M1) as (v1 & Eg1 & Es1).
    change (text_in (target_of L1) []) with false in Es1. rewrite Es1.
    intros Eq Ht.
    match type of Eq with
    | Some ?x = Some _ => assert (Ex : x = q) by congruence
    end.
    rewrite <- Ex in Ht. clear Eq Ex.
    match type of Ht with
    | param_type (apply_parameter_hints (new_Parameter ?n ?v ?l ?o ?t)) = _ =>
        destruct (created_fields n v l o t) as (_ & _ & _ & Et)
    end.
    rewrite Et in Ht. clear Et.
    assert (C1 : contains v1 (T ".") = true).
    { destruct (contains v1 (T ".")) eqn:C; [reflexivity|].
      vm_compute in Ht. discriminate. }
    rewrite EP in M1.
    apply (re_match_assignment N V HN HV) in M1 as (v1' & rest & Eg & An & _ & Av).
    assert (v1' = v1) by congruence. subst v1'.
    assert (V = number) as ->.
    { destruct HV as [-> | ->]; [reflexivity|].
      apply accepts_integer in Av as (_ & D & _).
      rewrite (digits_have_no_point v1 D) in C1. discriminate. }
    assert (M2 : matches (assignment N number) L2).
    { apply (matches_assignment N number HN number_shape).
      rewrite T2, <- T1. split; [exact An|].
      exists (a ++ "."%char :: b), []. rewrite app_nil_r.
      split; [exact R2|]. apply accepts_number. split; [reflexivity|].
      exists a, (T "."), b. auto. }
    apply re_match_matches in M2 as [g2 M2].
    pose proof (re_match_point N L2 a b g2 HN R2 Da Db Nb M2) as Eg2.
    rewrite <- EP in M2.
    destruct (scan_patterns_step seen ln2 L2 P pats g2 HP M2)
      as (v2 & Eg2' & Es2).
    assert (v2 = a ++ "."%char :: b) by congruence. subst v2.
    rewrite T2, Hs in Es2. rewrite Es2. eexists. split; [reflexivity|].
    match goal with
    | |- name (apply_parameter_hints (new_Parameter ?n ?v ?l ?o ?t)) = _ /\ _ =>
        destruct (created_fields n v l o t) as (-> & -> & _)
    end.
    split; [reflexivity|]. unfold read_value.
    now rewrite contains_point.
  - rewrite (scan_patterns_skip [] ln1 L1 P pats M1).
    assert (M2 : re_match P L2 = None).
    { destruct (re_match P L2) as [g2|] eqn:M2; [exfalso | reflexivity].
      rewrite EP in M2.
      apply (re_match_assignment N V HN HV) in M2 as (v2 & rest & _ & An & _).
      assert (M : matches P L1).
      { rewrite EP. apply (matches_assignment N V HN HV).
        rewrite T1, <- T2. split; [exact An|].
        destruct HV as [-> | ->].
        - exists (T "0.5"), []. split; [exact R1|].
          apply accepts_number. split; [reflexivity|].
          exists (T "0"), (T "."), (T "5").
          repeat split; auto. vm_compute. discriminate.
        - exists (T "0"), (T ".5"). split; [exact R1|].
          apply accepts_integer. repeat split. vm_compute. discriminate. }
      apply re_match_matches in M as [g M]. congruence. }
    rewrite (scan_patterns_skip seen ln2 L2 P pats M2). exact IH.
Qed.

End SamePattern.

(** Scanning the line written for a value with a fraction of at most six
    digits gives the name and the value back, when the name is one that
    detection reads with a point. *)
Lemma scan_written_decimal (nm indent : text) (q : Q) (seen : list text)
    (ln : nat) :
  forallb is_space indent = true -> solid nm ->
  nonneg (PFloat q) -> six_decimals (PFloat q) -> ~ whole (PFloat q) ->
  reads_decimals nm = true -> text_in nm seen = false ->
  exists p',
    scan_patterns PARAMETER_PATTERNS seen ln
      (assignment_line indent nm (PFloat q)) = Some p'
    /\ name p' = nm /\ py_eq (value p') (PFloat q) = true.
Proof.
  intros Hi Sn Nq Sq Wq Rd Hs.
  destruct (format_value_decimal q Nq Sq Wq)
    as (a & b & F & Da & Na & Db & Nb & Ev).
  unfold reads_decimals in Rd.
  destruct (scan_patterns PARAMETER_PATTERNS [] 1 (nm ++ T " = 0.5"))
    as [q0|] eqn:S0; [|discriminate].
  apply text_eqb_eq in Rd.
  destruct (point_line_parts [] nm (T "0") (T "5") eq_refl Sn eq_refl
              ltac:(discriminate)) as (_ & T1 & R1).
  destruct (point_line_parts indent nm a b Hi Sn Da Na) as (_ & T2 & R2).
  unfold assignment_line. rewrite F.
  destruct (scan_same_pattern nm a b seen 1 ln (nm ++ T " = 0.5")
              (indent ++ nm ++ T " = " ++ a ++ "."%char :: b)
              T1 R1 T2 R2 Da Db Nb Hs PARAMETER_PATTERNS q0
              patterns_shape S0 Rd) as (p' & Sp & En & Ep).
  exists p'. split; [exact Sp|]. split; [exact En|].
  rewrite Ep. unfold py_eq. cbn [num_Q]. now apply Qeq_bool_iff.
Qed.

(** C4, as amended.  When [detect_parameters] finds a parameter in a script
    and the script is updated, for the name of that parameter, with a
    value that is not negative and is either integral, or has at most six
    digits after the point and goes with a name that detection reads with
    a point, then [detect_parameters] finds in the new script a parameter
    of that name whose value is the one given.  The numerals of the new
    script are to be in range. *)
Theorem detect_after_update (code : text) (p : Param) (v : pynum) :
  In p (detect_parameters code) -> nonneg v ->
  whole v \/ (six_decimals v /\ reads_decimals (name p) = true) ->
  numerals_in_range (update_code_with_parameters code [(name p, v)])
  = true ->
  exists p',
    In p' (detect_parameters
             (update_code_with_parameters code [(name p, v)]))
    /\ name p' = name p
    /\ py_eq (value p') v = true
    /\ (whole v -> value p' = PInt (py_int v)).
Proof.
  intros Hp Nv Hv _.
  destruct (detected_line code p Hp) as (line & _ & Hk & Hd & _).
  destruct (detectable_target line (name p) Hd) as (_ & Ne & Hc & S & _).
  destruct (update_of_detected (split newline code) (line_number p - 1)
              line (name p) v Hk Hd)
    as (pre & l0 & post & E & _ & Hn & _ & Eu).
  assert (Hfree : forall l, In l (split newline code) -> newline_free l)
    by (intros l Hl; now apply split_pieces in Hl).
  assert (Hsplit : split newline
                     (update_code_with_parameters code [(name p, v)])
                   = pre ++ assignment_line (indent_of l0) (name p) v :: post).
  { unfold update_code_with_parameters, update_lines. cbn [fold_left fst snd].
    rewrite split_join.
    - exact Eu.
    - apply update_first_not_nil, split_not_nil.
    - now apply update_first_newline_free. }
  unfold detect_parameters at 1. rewrite Hsplit, scan_lines_app.
  set (seen := rev (map name (scan_lines pre 1 [])) ++ []).
  assert (Hs : text_in (name p) seen = false).
  { destruct (text_in (name p) seen) eqn:C; [|reflexivity]. exfalso.
    apply text_in_In in C. unfold seen in C. rewrite app_nil_r in C.
    apply in_rev, in_map_iff in C as (p0 & E0 & H0).
    apply scan_lines_first in H0 as (k0 & l & _ & Hl & Hd0 & _).
    rewrite E0 in Hd0.
    destruct (detectable_target l (name p) Hd0) as (_ & _ & _ & _ & M0).
    apply (Hn l); [|exact M0]. now apply nth_error_In with k0. }
  assert (Hb : forallb is_space (indent_of l0) = true)
    by apply take_while_all.
  assert (Sp : exists p',
             scan_patterns PARAMETER_PATTERNS seen (1 + length pre)
               (assignment_line (indent_of l0) (name p) v) = Some p'
             /\ name p' = name p
             /\ py_eq (value p') v = true
             /\ (whole v -> value p' = PInt (py_int v))).
  { destruct (py_eq v (PInt (py_int v))) eqn:W.
    - destruct (scan_written_line (name p) v (indent_of l0) Hb Nv W line seen
                  (1 + length pre) Hd Hs) as (p' & Sp & En & Ev).
      exists p'. split; [exact Sp|]. split; [exact En|].
      split; [|intros _; exact Ev]. rewrite Ev.
      unfold py_eq in *. apply Qeq_bool_iff. apply Qeq_bool_iff in W.
      now symmetry.
    - assert (Nw : ~ whole v) by (unfold whole; congruence).
      destruct Hv as [Hw|[S6 Rd]]; [contradiction|].
      destruct v as [z|q].
      + exfalso. apply Nw. unfold whole, py_eq. cbn [py_int].
        apply Qeq_bool_iff. reflexivity.
      + destruct (scan_written_decimal (name p) (indent_of l0) q seen
                    (1 + length pre) Hb S Nv S6 Nw Rd Hs)
          as (p' & Sp & En & Ev).
        exists p'. split; [exact Sp|]. split; [exact En|].
        split; [exact Ev | contradiction]. }
  destruct Sp as (p' & Sp & En & Ev & Ew).
  exists p'. split; [|auto].
  apply in_app_iff. right. rewrite scan_skipped.
  unfold assignment_line at 1.
  rewrite (identifier_line_not_skipped (indent_of l0) (name p)
             (T " = " ++ format_value v) Hb Ne Hc).
  fold (assignment_line (indent_of l0) (name p) v). rewrite Sp. now left.
Qed.

Lemma detect_after_update_witness :
  In learning_rate_param (detect_parameters learning_rate_script)
  /\ nonneg (PFloat 0.35%Q)
  /\ (whole (PFloat 0.35%Q)
      \/ (six_decimals (PFloat 0.35%Q)
          /\ reads_decimals (name learning_rate_param) = true))
  /\ numerals_in_range
       (update_code_with_parameters learning_rate_script
          [(name learning_rate_param, PFloat 0.35%Q)]) = true
  /\ exists p',
       In p' (detect_parameters
                (update_code_with_parameters learning_rate_script
                   [(name learning_rate_param, PFloat 0.35%Q)]))
       /\ name p' = name learning_rate_param
       /\ py_eq (value p') (PFloat 0.35%Q) = true
       /\ (whole (PFloat 0.35%Q) -> value p' = PInt (py_int (PFloat 0.35%Q))).
Proof.
  assert (H1 : In learning_rate_param (detect_parameters learning_rate_script))
    by (vm_compute; now left).
  assert (H2 : nonneg (PFloat 0.35%Q)) by (unfold nonneg, Qle; cbn; lia).
  assert (H3 : whole (PFloat 0.35%Q)
               \/ (six_decimals (PFloat 0.35%Q)
                   /\ reads_decimals (name learning_rate_param) = true)).
  { right. split; [|vm_compute; reflexivity].
    exists 350000%Z. vm_compute. reflexivity. }
  assert (H4 : numerals_in_range
                 (update_code_with_parameters learning_rate_script
                    [(name learning_rate_param, PFloat 0.35%Q)]) = true)
    by (vm_compute; reflexivity).
  split; [exact H1|]. split; [exact H2|]. split; [exact H3|].
  split; [exact H4|].
  exact (detect_after_update learning_rate_script learning_rate_param
           (PFloat 0.35%Q) H1 H2 H3 H4).
Defined.

(** C4 as stated fails.  A negative value is written with a sign that the
    patterns do not take, so the parameter is no longer found; a value
    with a fraction, written for a name whose pattern takes digits only,
    comes back cut at the point; and a value with more than six digits
    after the point comes back rounded. *)
Lemma detect_after_update_loses_value :
  In three_clusters_param (detect_parameters three_clusters)
  /\ detect_parameters
       (update_code_with_parameters three_clusters
          [(T "n_clusters", PInt (-1))])
     = []
  /\ map value
       (detect_parameters
          (update_code_with_parameters three_clusters
             [(T "n_clusters", PFloat 7.5%Q)]))
     = [PInt 7]
  /\ In learning_rate_param (detect_parameters learning_rate_script)
  /\ map value
       (detect_parameters
          (update_code_with_parameters learning_rate_script
             [(T "learning_rate", PFloat (1 # 10000000)%Q)]))
     = [PInt 0].
Proof.
  split; [vm_compute; now left|].
  split; [vm_compute; reflexivity|].
  split; [vm_compute; reflexivity|].
  split; [vm_compute; now left|].
  vm_compute; reflexivity.
Qed.
(* ================================================================== *)
(** * Properties of the execution engine *)
(* ================================================================== *)

Section Executor.

Variable py : Python.
Variables (code : text) (data : pyval).
Variables (timeout : Z) (allowed_modules : option (list text)).

(** The dict comprehension either collects variables or fails with the
    attribute error; it has no other way out. *)
Lemma capture_variables_fails (ns : namespace) (e : pyexc) :
  capture_variables ns = inr e -> e = attribute_error.
Proof.
  induction ns as [|[k v] ns IH]; simpl; [discriminate|].
  destruct k as [s|z].
  - destruct (capture_variables ns) as [vars|e'].
    + destruct (_ && _); discriminate.
    + intros [= <-]. now apply IH.
  - now intros [= <-].
Qed.

(** Loading the libraries gives the namespace of [initial_namespace],
    unless an import raises something else than [ImportError]. *)
Lemma preload_all_spec (libraries : list (string * string)) (ns : namespace) :
  preload_all py libraries ns
  = match first_import_error py libraries with
    | Some e => inr e
    | None => inl (fold_left (preload py) libraries ns)
    end.
Proof.
  revert ns. induction libraries as [|nm rest IH]; intros ns;
    cbn [preload_all first_import_error fold_left]; [reflexivity|].
  unfold preload, py_import.
  destruct (import_module py (T (snd nm))); [apply IH | apply IH | reflexivity].
Qed.

(** The call when the libraries load. *)
Lemma execute_code_reached :
  preload_error py = None ->
  execute_code py code data timeout allowed_modules
  = match try_ending (script_attempt py code data timeout allowed_modules) with
    | Done =>
        finish (script_attempt py code data timeout allowed_modules) true None
    | Raise e =>
        match exc_kind_of e with
        | SyntaxErrorKind =>
            handler (script_attempt py code data timeout allowed_modules)
                    syntax_label e
        | ExceptionKind =>
            handler (script_attempt py code data timeout allowed_modules)
                    error_label e
        | BaseExceptionKind => Propagates e
        end
    | Diverge => Hangs
    end.
Proof.
  unfold preload_error. intros H. unfold execute_code.
  rewrite preload_all_spec, H. reflexivity.
Qed.

Lemma execute_code_not_reached (e : pyexc) :
  preload_error py = Some e ->
  execute_code py code data timeout allowed_modules = Propagates e.
Proof.
  unfold preload_error. intros H. unfold execute_code.
  now rewrite preload_all_spec, H.
Qed.


(** How the script ends, read off its run. *)
Lemma script_ending_run (c : completion) :
  script_ending py code data timeout allowed_modules = Some c ->
  preload_error py = None
  /\ match script_run py code data timeout allowed_modules with
     | (_, inr e) => c = Raise e
     | (_, inl r) => c = ending r
     end.
Proof.
  unfold script_ending. destruct (preload_error py); [discriminate|].
  destruct (script_run py code data timeout allowed_modules) as [w [r|e]];
    intros [= <-]; auto.
Qed.

Lemma capture_variables_spec (ns : namespace) :
  capture_variables ns
  = if string_keys_only ns then inl (user_variables ns) else inr attribute_error.
Proof.
  induction ns as [|[k v] ns IH]; [reflexivity|].
  cbn [capture_variables string_keys_only forallb fst user_variables].
  destruct k as [s|z]; [|reflexivity].
  rewrite IH. cbn [andb]. fold (string_keys_only ns).
  destruct (string_keys_only ns); [|reflexivity].
  destruct (negb (startswith s (T "__")) && negb (text_in s builtin_names));
    reflexivity.
Qed.

(** The [try] statement, read off the run of the script. *)
Lemma attempt_of_run :
  script_attempt py code data timeout allowed_modules
  = match script_run py code data timeout allowed_modules with
    | (w, inr e) =>
        mkAttempt (mkStream [] false) (mkStream w false) VNone [] (Raise e)
    | (w, inl r) =>
        let out := mkStream (written_out r) (closed_out r) in
        let err := mkStream (w ++ written_err r) (closed_err r) in
        match ending r with
        | Diverge => mkAttempt out err VNone (caller_variables r) Diverge
        | Raise e => mkAttempt out err VNone (caller_variables r) (Raise e)
        | Done =>
            if string_keys_only (final_ns r)
            then mkAttempt out err (looked_up_result (final_ns r))
                           (user_variables (final_ns r)) Done
            else mkAttempt out err (looked_up_result (final_ns r))
                           (caller_variables r) (Raise attribute_error)
        end
    end.
Proof.
  unfold script_attempt, script_run, try_block, looked_up_result.
  destruct (py_compile py code) as [w [c|e]]; [|reflexivity].
  cbv zeta. destruct (ending _); [|reflexivity|reflexivity].
  rewrite capture_variables_spec. destruct (string_keys_only _); reflexivity.
Qed.


(** What the [try] statement leaves, by the way the script ends. *)
Lemma attempt_fields (c : completion) :
  script_ending py code data timeout allowed_modules = Some c ->
  match c with
  | Done =>
      try_result (script_attempt py code data timeout allowed_modules)
      = looked_up_result
          (script_namespace py code data timeout allowed_modules)
      /\ if string_keys_only
              (script_namespace py code data timeout allowed_modules)
         then try_ending (script_attempt py code data timeout allowed_modules)
              = Done
              /\ try_variables
                   (script_attempt py code data timeout allowed_modules)
                 = user_variables
                     (script_namespace py code data timeout allowed_modules)
         else try_ending (script_attempt py code data timeout allowed_modules)
              = Raise attribute_error
              /\ try_variables
                   (script_attempt py code data timeout allowed_modules)
                 = script_caller_variables py code data timeout allowed_modules
  | Raise e =>
      try_ending (script_attempt py code data timeout allowed_modules)
      = Raise e
      /\ try_result (script_attempt py code data timeout allowed_modules)
         = VNone
      /\ try_variables (script_attempt py code data timeout allowed_modules)
         = script_caller_variables py code data timeout allowed_modules
  | Diverge =>
      try_ending (script_attempt py code data timeout allowed_modules)
      = Diverge
  end.
Proof.
  intros E. destruct (script_ending_run c E) as [_ Hc].
  rewrite attempt_of_run. unfold script_namespace, script_caller_variables.
  destruct (script_run py code data timeout allowed_modules) as [w [r|e]];
    subst c; [|auto].
  cbv zeta. destruct (ending r); [|auto|auto].
  destruct (string_keys_only (final_ns r)); auto.
Qed.










End Executor.








(** The other ways in which a call raises to its caller.  An exception
    outside the [Exception] hierarchy passes both handlers. *)
Lemma execute_code_lets_SystemExit_through :
  exists e, execute_code Mini.python (T "raise SystemExit") VNone 30 None
            = Propagates e
            /\ exc_class e = T "SystemExit".
Proof. eexists. split; reflexivity. Qed.

(** A script that closes the captured [sys.stdout] and ends well makes the
    call raise when the stream is read after the [try] statement. *)
Lemma execute_code_raises_on_a_closed_stream :
  script_ending Mini.python script_close_stdout VNone 30 None = Some Done
  /\ execute_code Mini.python script_close_stdout VNone 30 None
     = Propagates closed_file_error.
Proof. split; reflexivity. Qed.

(** An exception whose [str(e)] raises makes the handler raise. *)
Lemma execute_code_raises_when_str_raises
    (py : Python) (code : text) (data : pyval)
    (timeout : Z) (allowed_modules : option (list text)) (e e' : pyexc) :
  script_ending py code data timeout allowed_modules = Some (Raise e) ->
  exc_kind_of e <> BaseExceptionKind ->
  exc_str e = inr e' ->
  execute_code py code data timeout allowed_modules = Propagates e'.
Proof.
  intros E K Es.
  destruct (script_ending_run py code data timeout allowed_modules _ E)
    as [R _].
  rewrite (execute_code_reached py code data timeout allowed_modules R).
  destruct (attempt_fields py code data timeout allowed_modules _ E)
    as [-> _].
  unfold handler. rewrite Es.
  destruct (exc_kind_of e); [reflexivity | reflexivity | congruence].
Qed.

(** An import that raises anything but [ImportError] ends the call before
    the script is compiled. *)
Lemma execute_code_raises_when_an_import_raises
    (py : Python) (code : text) (data : pyval)
    (timeout : Z) (allowed_modules : option (list text)) (e : pyexc) :
  preload_error py = Some e ->
  execute_code py code data timeout allowed_modules = Propagates e
  /\ script_ending py code data timeout allowed_modules = None.
Proof.
  intros E. split; [now apply execute_code_not_reached|].
  unfold script_ending. now rewrite E.
Qed.







(* ================================================================== *)
(** * Further properties of the parameter parser *)
(* ================================================================== *)

(** ** Which names are reported *)

Lemma scan_lines_complete (lines : list text) (ln : nat) (seen : list text)
    (k : nat) (line nm : text) :
  nth_error lines k = Some line -> detectable line nm ->
  text_in nm seen = false ->
  exists p, In p (scan_lines lines ln seen) /\ name p = nm.
Proof.
  revert ln seen k. induction lines as [|l0 rest IH]; intros ln seen k Hk Hd Hs.
  - destruct k; discriminate.
  - rewrite scan_skipped. destruct k as [|k]; cbn [nth_error] in Hk.
    + injection Hk as ->.
      destruct (detectable_target line nm Hd) as (Et & _).
      destruct Hd as (Hsk & P & g & HP & M & _). rewrite Hsk.
      destruct (scan_patterns PARAMETER_PATTERNS seen ln line) as [p|] eqn:Sp.
      * exists p. split; [now left|].
        destruct (scan_patterns_some seen ln line PARAMETER_PATTERNS p
                    patterns_shape Sp) as (En & _). congruence.
      * pose proof (scan_patterns_none seen ln line PARAMETER_PATTERNS
                      patterns_shape Sp P g HP M) as C.
        rewrite <- Et in C. congruence.
    + destruct (skipped l0); [apply (IH _ _ k); assumption|].
      destruct (scan_patterns PARAMETER_PATTERNS seen ln l0) as [p|] eqn:Sp;
        [|apply (IH _ _ k); assumption].
      destruct (text_eqb nm (name p)) eqn:E.
      * apply text_eqb_eq in E. exists p. split; [now left | now symmetry].
      * destruct (IH (S ln) (name p :: seen) k Hk Hd) as (p' & Hin & En).
        -- unfold text_in. cbn [existsb]. rewrite E. exact Hs.
        -- exists p'. split; [now right | exact En].
Qed.

Lemma detected_names_iff (code nm : text) :
  In nm (map name (detect_parameters code))
  <-> exists line, In line (split newline code) /\ detectable line nm.
Proof.
  split.
  - intros H. apply in_map_iff in H as (p & <- & Hp).
    destruct (detected_line code p Hp) as (line & _ & Hk & Hd & _).
    exists line. split; [|exact Hd]. now apply nth_error_In in Hk.
  - intros (line & Hin & Hd). apply In_nth_error in Hin as [k Hk].
    destruct (scan_lines_complete (split newline code) 1 [] k line nm Hk Hd
                eq_refl) as (p & Hp & <-).
    now apply in_map.
Qed.

(** X1.  On a script whose numerals are in range, the
    names that [detect_parameters] reports are exactly the names that some
    pattern finds on a line of the script that is neither blank nor a
    comment. *)
Theorem detect_reports_exactly_detectable_names (code nm : text) :
  numerals_in_range code = true ->
  In nm (map name (detect_parameters code))
  <-> exists line, In line (split newline code) /\ detectable line nm.
Proof. intros _. exact (detected_names_iff code nm). Qed.

Lemma detect_reports_exactly_detectable_names_witness :
  numerals_in_range learning_rate_script = true
  /\ (In (T "learning_rate") (map name (detect_parameters learning_rate_script))
      <-> exists line,
            In line (split newline learning_rate_script)
            /\ detectable line (T "learning_rate")).
Proof.
  assert (H : numerals_in_range learning_rate_script = true)
    by (vm_compute; reflexivity).
  split; [exact H|].
  exact (detect_reports_exactly_detectable_names learning_rate_script
           (T "learning_rate") H).
Defined.

(** X2.  On a script whose numerals are in range,
    [has_adjustable_parameters] holds exactly when some line of the
    script, neither blank nor a comment, is matched by a pattern. *)
Theorem has_adjustable_iff_detectable (code : text) :
  numerals_in_range code = true ->
  has_adjustable_parameters code = true
  <-> exists line nm, In line (split newline code) /\ detectable line nm.
Proof.
  intros _. unfold has_adjustable_parameters. rewrite Nat.ltb_lt. split.
  - intros H. destruct (detect_parameters code) as [|p ps] eqn:E;
      [cbn in H; lia|].
    assert (Hn : In (name p) (map name (detect_parameters code)))
      by (rewrite E; now left).
    apply detected_names_iff in Hn as (line & Hl & Hd).
    now exists line, (name p).
  - intros (line & nm & Hl & Hd).
    assert (Hn : In nm (map name (detect_parameters code)))
      by (apply detected_names_iff; eauto).
    destruct (detect_parameters code); [destruct Hn | cbn; lia].
Qed.

Lemma has_adjustable_iff_detectable_witness :
  numerals_in_range three_clusters = true
  /\ (has_adjustable_parameters three_clusters = true
      <-> exists line nm,
            In line (split newline three_clusters) /\ detectable line nm).
Proof.
  assert (H : numerals_in_range three_clusters = true)
    by (vm_compute; reflexivity).
  split; [exact H|].
  exact (has_adjustable_iff_detectable three_clusters H).
Defined.

(** ** The order of the report *)

Lemma scan_lines_bounds (lines : list text) (ln : nat) (seen : list text)
    (p : Param) :
  In p (scan_lines lines ln seen) ->
  ln <= line_number p < ln + length lines.
Proof.
  intros H. apply scan_lines_first in H as (k & line & -> & Hk & _).
  assert (k < length lines) by (apply nth_error_Some; congruence). lia.
Qed.

Lemma scan_lines_sorted (lines : list text) (ln : nat) (seen : list text) :
  StronglySorted lt (map line_number (scan_lines lines ln seen)).
Proof.
  revert ln seen. induction lines as [|line rest IH]; intros ln seen;
    [constructor|].
  rewrite scan_skipped. destruct (skipped line); [apply IH|].
  destruct (scan_patterns PARAMETER_PATTERNS seen ln line) as [p|] eqn:Sp;
    [|apply IH].
  cbn [map]. constructor; [apply IH|].
  destruct (scan_patterns_some seen ln line PARAMETER_PATTERNS p
              patterns_shape Sp) as (_ & -> & _).
  apply Forall_forall. intros n Hn. apply in_map_iff in Hn as (q & <- & Hq).
  apply scan_lines_bounds in Hq. lia.
Qed.

(** X3.  The parameters come in the order of their lines: the line numbers
    of the report increase strictly, and each lies between 1 and the number
    of lines of the script. *)
Theorem detect_in_line_order (code : text) :
  StronglySorted lt (map line_number (detect_parameters code))
  /\ forall p, In p (detect_parameters code) ->
               1 <= line_number p <= length (split newline code).
Proof.
  split; [apply scan_lines_sorted|].
  intros p Hp. apply scan_lines_bounds in Hp. lia.
Qed.

(** X4.  In a script of the characters U+0000 to U+00FF, which are the
    scripts of this model, the name of a reported parameter is not empty
    and made of the letters [a] to [z], [A] to [Z] and underscores. *)
Theorem detected_names_are_identifiers (code : text) (p : Param) :
  In p (detect_parameters code) ->
  name p <> [] /\ forallb is_name_char (name p) = true.
Proof.
  intros Hp. destruct (detected_line code p Hp) as (line & _ & _ & Hd & _).
  destruct (detectable_target line (name p) Hd) as (_ & Ne & Hc & _). auto.
Qed.

Lemma detected_names_are_identifiers_witness :
  In three_clusters_param (detect_parameters three_clusters)
  /\ name three_clusters_param <> []
  /\ forallb is_name_char (name three_clusters_param) = true.
Proof.
  assert (H : In three_clusters_param (detect_parameters three_clusters))
    by (vm_compute; left; reflexivity).
  split; [exact H|].
  exact (detected_names_are_identifiers three_clusters three_clusters_param H).
Defined.

(** ** The fields of a reported parameter *)

Lemma hints_keep_text (p : Param) :
  original_text (apply_parameter_hints p) = original_text p.
Proof.
  unfold apply_parameter_hints.
  repeat match goal with
         | |- context [if ?b then _ else _] => destruct b
         end; reflexivity.
Qed.

Lemma new_Parameter_text (n : text) (v : pynum) (ln : nat) (o t : text) :
  original_text (new_Parameter n v ln o t) = o.
Proof.
  unfold new_Parameter. now destruct (post_init v t None None None) as [[mn mx] st].
Qed.

Lemma scan_patterns_form (seen : list text) (ln : nat) (line : text)
    (pats : list regex) (p : Param) :
  Forall detection_pattern pats ->
  scan_patterns pats seen ln line = Some p ->
  exists v,
    accepts number v []
    /\ p = apply_parameter_hints
             (new_Parameter (target_of line) (read_value v) ln
                (target_of line ++ T " = " ++ v)
                (if contains v (T ".") then T "float" else T "int")).
Proof.
  induction 1 as [|P pats HP F IH]; [discriminate|].
  destruct (re_match P line) as [g|] eqn:M.
  - destruct (scan_patterns_step seen ln line P pats g HP M) as (v & Eg & ->).
    destruct (text_in (target_of line) seen); [exact IH|].
    intros [= <-]. exists v. split; [|reflexivity].
    destruct (detection_match P line g HP M) as (v' & rest & Eg' & _ & _ & _ & A).
    congruence.
  - rewrite (scan_patterns_skip seen ln line P pats M). exact IH.
Qed.

Lemma scan_lines_form (lines : list text) (ln : nat) (seen : list text)
    (p : Param) :
  In p (scan_lines lines ln seen) ->
  exists v nm,
    accepts number v []
    /\ p = apply_parameter_hints
             (new_Parameter nm (read_value v) (line_number p)
                (nm ++ T " = " ++ v)
                (if contains v (T ".") then T "float" else T "int")).
Proof.
  revert ln seen. induction lines as [|line rest IH]; intros ln seen;
    [intros []|].
  rewrite scan_skipped. destruct (skipped line); [apply IH|].
  destruct (scan_patterns PARAMETER_PATTERNS seen ln line) as [q|] eqn:Sp;
    [|apply IH].
  intros [<-|Hin]; [|now apply IH in Hin].
  destruct (scan_patterns_some seen ln line PARAMETER_PATTERNS q
              patterns_shape Sp) as (_ & El & _).
  destruct (scan_patterns_form seen ln line PARAMETER_PATTERNS q
              patterns_shape Sp) as (v & A & E).
  exists v, (target_of line). split; [exact A|]. now rewrite El.
Qed.

Lemma parse_digits_nonneg (s : text) : (0 <= parse_digits s)%Z.
Proof.
  unfold parse_digits.
  enough (G : forall acc, (0 <= acc)%Z ->
              (0 <= fold_left (fun a c => (10 * a + digit_val c)%Z) s acc)%Z)
    by (apply G; lia).
  induction s as [|c s IH]; intros acc Ha; cbn [fold_left]; [exact Ha|].
  apply IH. unfold digit_val. lia.
Qed.

Lemma read_value_nonneg (v : text) : nonneg (read_value v).
Proof.
  unfold nonneg, read_value. destruct (contains v (T ".")); cbn [num_Q].
  - unfold parse_float, dec, Qle. cbn [Qnum Qden].
    pose proof (parse_digits_nonneg
                  (take_while (fun c => negb (ascii_eqb c "."%char)) v
                   ++ skipn (S (length (take_while
                                          (fun c => negb (ascii_eqb c "."%char)) v))) v)).
    lia.
  - unfold Qle. cbn [Qnum Qden inject_Z]. pose proof (parse_digits_nonneg v). lia.
Qed.

(** The pattern that gives a parameter is the first of the list that
    matches its line. *)
Lemma scan_patterns_choice (seen : list text) (ln : nat) (line : text)
    (pats : list regex) (p : Param) :
  Forall detection_pattern pats ->
  scan_patterns pats seen ln line = Some p ->
  text_in (target_of line) seen = false
  /\ exists pre P post v,
       pats = pre ++ P :: post
       /\ (forall P', In P' pre -> re_match P' line = None)
       /\ re_match P line = Some [indent_of line; target_of line; v]
       /\ p = apply_parameter_hints
                (new_Parameter (target_of line) (read_value v) ln
                   (target_of line ++ T " = " ++ v)
                   (if contains v (T ".") then T "float" else T "int")).
Proof.
  induction 1 as [|P pats HP F IH]; [discriminate|].
  destruct (re_match P line) as [g|] eqn:M.
  - destruct (scan_patterns_step seen ln line P pats g HP M) as (v & Eg & ->).
    destruct (text_in (target_of line) seen) eqn:Hs.
    + intros H. destruct (IH H) as [C _]. discriminate.
    + intros [= <-]. split; [reflexivity|].
      exists [], P, pats, v. split; [reflexivity|].
      split; [intros P' []|]. split; [congruence | reflexivity].
  - rewrite (scan_patterns_skip seen ln line P pats M). intros H.
    destruct (IH H) as (Hs & pre & P0 & post & v & -> & Hn & M0 & E).
    split; [exact Hs|]. exists (P :: pre), P0, post, v.
    split; [reflexivity|]. split; [|auto].
    intros P' [<-|HP']; auto.
Qed.

(** Every parameter of the scan is what the patterns give on its line. *)
Lemma scan_lines_origin (lines : list text) (ln : nat) (seen : list text)
    (p : Param) :
  In p (scan_lines lines ln seen) ->
  exists k line seen',
    nth_error lines k = Some line
    /\ scan_patterns PARAMETER_PATTERNS seen' (ln + k) line = Some p.
Proof.
  revert ln seen. induction lines as [|line rest IH]; intros ln seen;
    [intros []|].
  rewrite scan_skipped.
  assert (Later : forall seen',
             In p (scan_lines rest (S ln) seen') ->
             exists k line0 seen0,
               nth_error (line :: rest) k = Some line0
               /\ scan_patterns PARAMETER_PATTERNS seen0 (ln + k) line0
                  = Some p).
  { intros seen' Hin.
    destruct (IH (S ln) seen' Hin) as (k & line0 & seen0 & Hk & Sp).
    exists (S k), line0, seen0. split; [exact Hk|].
    now replace (ln + S k) with (S ln + k) by lia. }
  destruct (skipped line); [apply Later|].
  destruct (scan_patterns PARAMETER_PATTERNS seen ln line) as [q|] eqn:Sp;
    [|apply Later].
  intros [<-|Hin]; [|now apply Later in Hin].
  exists 0, line, seen. split; [reflexivity|]. now rewrite Nat.add_0_r.
Qed.

(** X5.  A reported parameter is read off its line by the first pattern of
    [PARAMETER_PATTERNS] that matches that line: its name is the second
    group of the match; its original text is the name, [ = ] and the third
    group, the text of an unsigned number; its value is that number, an int
    when the text has no point and a float when it has one (a float being
    taken as the number it denotes), and [param_type] says which.  The
    value is never negative. *)
Theorem detected_fields (code : text) (p : Param) :
  In p (detect_parameters code) ->
  exists line pre P post value_str,
    nth_error (split newline code) (line_number p - 1) = Some line
    /\ PARAMETER_PATTERNS = pre ++ P :: post
    /\ (forall P', In P' pre -> re_match P' line = None)
    /\ re_match P line = Some [indent_of line; name p; value_str]
    /\ accepts number value_str []
    /\ original_text p = name p ++ T " = " ++ value_str
    /\ nonneg (value p)
    /\ ((contains value_str (T ".") = false
         /\ param_type p = T "int"
         /\ value p = PInt (parse_digits value_str))
        \/ (contains value_str (T ".") = true
            /\ param_type p = T "float"
            /\ value p = PFloat (parse_float value_str))).
Proof.
  unfold detect_parameters. intros Hp.
  apply scan_lines_origin in Hp as (k & line & seen & Hk & Sp).
  destruct (scan_patterns_choice seen (1 + k) line PARAMETER_PATTERNS p
              patterns_shape Sp)
    as (_ & pre & P & post & v & EP & Hn & M & E).
  set (t := if contains v (T ".") then T "float" else T "int") in E.
  set (q := new_Parameter (target_of line) (read_value v) (1 + k)
              (target_of line ++ T " = " ++ v) t) in E.
  destruct (hints_keep q) as (En & Ev & El & Et).
  pose proof (hints_keep_text q) as Eo.
  destruct (new_Parameter_fields (target_of line) (read_value v) (1 + k)
              (target_of line ++ T " = " ++ v) t) as (Fn & Fv & Fl & Ft).
  pose proof (new_Parameter_text (target_of line) (read_value v) (1 + k)
                (target_of line ++ T " = " ++ v) t) as Fo.
  fold q in Fn, Fv, Fl, Ft, Fo. rewrite <- E in En, Ev, El, Et, Eo.
  assert (A : accepts number v []).
  { assert (HP : In P PARAMETER_PATTERNS)
      by (rewrite EP; apply in_app_iff; right; now left).
    destruct (detection_match P line _ (detection_pattern_in P HP) M)
      as (v' & rest & Eg & _ & _ & _ & A).
    congruence. }
  exists line, pre, P, post, v.
  rewrite En, Ev, El, Et, Eo, Fn, Fv, Fl, Ft, Fo.
  replace (1 + k - 1) with k by lia.
  split; [exact Hk|]. split; [exact EP|]. split; [exact Hn|].
  split; [exact M|]. split; [exact A|]. split; [reflexivity|].
  split; [apply read_value_nonneg|].
  unfold t, read_value. destruct (contains v (T ".")); [right | left]; auto.
Qed.

Lemma detected_fields_witness :
  In three_clusters_param (detect_parameters three_clusters)
  /\ exists line pre P post value_str,
       nth_error (split newline three_clusters)
         (line_number three_clusters_param - 1) = Some line
       /\ PARAMETER_PATTERNS = pre ++ P :: post
       /\ (forall P', In P' pre -> re_match P' line = None)
       /\ re_match P line
          = Some [indent_of line; name three_clusters_param; value_str]
       /\ accepts number value_str []
       /\ original_text three_clusters_param
          = name three_clusters_param ++ T " = " ++ value_str
       /\ nonneg (value three_clusters_param)
       /\ ((contains value_str (T ".") = false
            /\ param_type three_clusters_param = T "int"
            /\ value three_clusters_param = PInt (parse_digits value_str))
           \/ (contains value_str (T ".") = true
               /\ param_type three_clusters_param = T "float"
               /\ value three_clusters_param
                  = PFloat (parse_float value_str))).
Proof.
  assert (H : In three_clusters_param (detect_parameters three_clusters))
    by (vm_compute; left; reflexivity).
  split; [exact H|].
  exact (detected_fields three_clusters three_clusters_param H).
Defined.

(** ** Ranges *)

Lemma Qltb_true (a b : Q) : Qltb a b = true <-> (a < b)%Q.
Proof.
  unfold Qltb. rewrite negb_true_iff. split.
  - intros H. apply Qnot_le_lt. intros C. apply Qle_bool_iff in C. congruence.
  - intros H. destruct (Qle_bool b a) eqn:E; [|reflexivity].
    apply Qle_bool_iff in E. exfalso. now apply (Qlt_not_le a b).
Qed.

Lemma Qltb_false (a b : Q) : Qltb a b = false <-> (b <= a)%Q.
Proof.
  unfold Qltb. rewrite negb_false_iff. apply Qle_bool_iff.
Qed.

(** What [numerals_in_range] gives: on such a script every float that
    [detect_parameters] holds is a number below the overflow of floats, as
    the floats of the source are. *)
Lemma in_range_values_are_finite (code : text) (p : Param) :
  numerals_in_range code = true ->
  In p (detect_parameters code) -> param_type p = T "float" ->
  (num_Q (value p) < float_overflow)%Q.
Proof.
  unfold detect_parameters. intros R Hp Ht.
  apply scan_lines_origin in Hp as (k & line & seen & Hk & Sp).
  destruct (scan_patterns_choice seen (1 + k) line PARAMETER_PATTERNS p
              patterns_shape Sp)
    as (_ & pre & P & post & v & EP & _ & M & E).
  assert (HP : In P PARAMETER_PATTERNS)
    by (rewrite EP; apply in_app_iff; right; now left).
  unfold numerals_in_range in R. rewrite forallb_forall in R.
  specialize (R line (nth_error_In _ _ Hk)).
  rewrite forallb_forall in R. specialize (R P HP).
  rewrite M in R. cbn [nth] in R.
  set (t := if contains v (T ".") then T "float" else T "int") in E.
  set (q := new_Parameter (target_of line) (read_value v) (1 + k)
              (target_of line ++ T " = " ++ v) t) in E.
  destruct (hints_keep q) as (_ & Ev & _ & Et).
  destruct (new_Parameter_fields (target_of line) (read_value v) (1 + k)
              (target_of line ++ T " = " ++ v) t) as (_ & Fv & _ & Ft).
  fold q in Fv, Ft. rewrite <- E in Ev, Et.
  rewrite Ev, Fv. rewrite Et, Ft in Ht. unfold t in Ht. unfold read_value.
  destruct (contains v (T ".")) eqn:C; [|vm_compute in Ht; discriminate].
  cbn [num_Q]. now apply Qltb_true.
Qed.

Lemma num_Q_abs (v : pynum) : nonneg v -> (num_Q (py_abs v) == num_Q v)%Q.
Proof.
  unfold nonneg. destruct v as [z|q]; cbn [num_Q py_abs]; intros H.
  - rewrite Z.abs_eq; [reflexivity|]. unfold Qle in H. cbn in H. lia.
  - now apply Qabs_pos.
Qed.

Lemma num_Q_mul_int (v : pynum) (n : Z) :
  (num_Q (py_mul_int v n) == num_Q v * inject_Z n)%Q.
Proof.
  destruct v as [z|q]; cbn [num_Q py_mul_int];
    [rewrite inject_Z_mult|]; reflexivity.
Qed.

(** [int(x)] of a number that is not negative is its floor. *)
Lemma py_int_floor (v : pynum) :
  nonneg v ->
  (0 <= py_int v)%Z
  /\ (inject_Z (py_int v) <= num_Q v)%Q
  /\ (num_Q v < inject_Z (py_int v + 1))%Q.
Proof.
  intros N. split; [now apply py_int_nonneg|].
  unfold nonneg in N. destruct v as [z|[a b]]; cbn [num_Q py_int] in *.
  - split; [apply Qle_refl|]. rewrite <- Zlt_Qlt. lia.
  - cbn [Qnum Qden]. unfold Qle, Qlt in *. cbn [Qnum Qden inject_Z] in *.
    assert (Ha : (0 <= a)%Z) by lia.
    rewrite Z.quot_div_nonneg by lia.
    pose proof (Z.mul_div_le a (Z.pos b) ltac:(lia)).
    pose proof (Z.mul_succ_div_gt a (Z.pos b) ltac:(lia)).
    lia.
Qed.

(** The defaults of [__post_init__] for a value that is not negative. *)
Lemma post_init_range (v : pynum) (t : text) :
  nonneg v ->
  (num_Q (fst (fst (post_init v t None None None))) <= num_Q v)%Q
  /\ (num_Q v <= num_Q (snd (fst (post_init v t None None None))))%Q
  /\ (num_Q (fst (fst (post_init v t None None None)))
      < num_Q (snd (fst (post_init v t None None None))))%Q
  /\ (0 < num_Q (snd (post_init v t None None None)))%Q.
Proof.
  intros N. pose proof N as N'. unfold nonneg in N'.
  destruct (py_int_floor v N) as (Hz & Hlo & Hhi).
  pose proof (num_Q_abs v N) as Ea.
  unfold post_init. cbn [fst snd].
  destruct (text_eqb t (T "int")).
  - cbn [num_Q].
    assert (H1 : (inject_Z (Z.max 0 (py_int v - 100)) <= inject_Z (py_int v))%Q)
      by (rewrite <- Zle_Qle; lia).
    assert (H2 : (inject_Z (py_int v + 1)
                  <= inject_Z (Z.max (py_int v + 100) (py_int v * 3)))%Q)
      by (rewrite <- Zle_Qle; lia).
    repeat split; try lra; reflexivity.
  - assert (Hst : (0 < num_Q
                     (if py_lt (py_abs v) (PFloat 0.01%Q) then PFloat 0.001%Q
                      else if py_lt (py_abs v) (PFloat 0.1%Q) then PFloat 0.01%Q
                           else if py_lt (py_abs v) (PInt 1) then PFloat 0.05%Q
                                else PFloat 0.1%Q))%Q).
    { repeat match goal with
             | |- context [if ?b then _ else _] => destruct b
             end; reflexivity. }
    assert (Hmn : num_Q (if py_lt (py_abs v) (PInt 1) then PFloat 0%Q
                         else PFloat 0%Q) = 0%Q)
      by (destruct (py_lt (py_abs v) (PInt 1)); reflexivity).
    rewrite Hmn. split; [exact N'|]. split; [|split; [|exact Hst]].
    + destruct (py_lt (py_abs v) (PInt 1)) eqn:L1.
      * apply Qltb_true in L1. cbn [num_Q] in *. change (inject_Z 1) with 1%Q in L1.
        lra.
      * destruct (py_lt (py_abs v) (PInt 10));
          rewrite num_Q_mul_int;
          [change (inject_Z 5) with 5%Q | change (inject_Z 3) with 3%Q]; lra.
    + destruct (py_lt (py_abs v) (PInt 1)) eqn:L1.
      * reflexivity.
      * apply Qltb_false in L1. cbn [num_Q] in L1.
        change (inject_Z 1) with 1%Q in L1.
        destruct (py_lt (py_abs v) (PInt 10));
          rewrite num_Q_mul_int;
          [change (inject_Z 5) with 5%Q | change (inject_Z 3) with 3%Q]; lra.
Qed.

Lemma new_Parameter_range (n : text) (v : pynum) (ln : nat) (o t : text) :
  nonneg v ->
  (num_Q (min_value (new_Parameter n v ln o t)) <= num_Q v)%Q
  /\ (num_Q v <= num_Q (max_value (new_Parameter n v ln o t)))%Q
  /\ (num_Q (min_value (new_Parameter n v ln o t))
      < num_Q (max_value (new_Parameter n v ln o t)))%Q
  /\ (0 < num_Q (step (new_Parameter n v ln o t)))%Q.
Proof.
  intros N. pose proof (post_init_range v t N) as H.
  unfold new_Parameter.
  destruct (post_init v t None None None) as [[mn mx] st]. exact H.
Qed.

(** X6.  The defaults that [__post_init__] derives for a value that is not
    negative contain the value: [min_value <= value <= max_value], the
    range is not empty and the step is positive. *)
Theorem post_init_defaults_contain_value
    (n : text) (v : pynum) (ln : nat) (o t : text) :
  nonneg v ->
  (num_Q (min_value (new_Parameter n v ln o t)) <= num_Q v)%Q
  /\ (num_Q v <= num_Q (max_value (new_Parameter n v ln o t)))%Q
  /\ (num_Q (min_value (new_Parameter n v ln o t))
      < num_Q (max_value (new_Parameter n v ln o t)))%Q
  /\ (0 < num_Q (step (new_Parameter n v ln o t)))%Q.
Proof. exact (new_Parameter_range n v ln o t). Qed.

Lemma post_init_defaults_contain_value_witness :
  nonneg (PFloat 2.5%Q)
  /\ (num_Q (min_value (new_Parameter (T "x") (PFloat 2.5%Q) 1 (T "x = 2.5") (T "float")))
      <= num_Q (PFloat 2.5%Q))%Q
  /\ (num_Q (PFloat 2.5%Q)
      <= num_Q (max_value (new_Parameter (T "x") (PFloat 2.5%Q) 1 (T "x = 2.5") (T "float"))))%Q
  /\ (num_Q (min_value (new_Parameter (T "x") (PFloat 2.5%Q) 1 (T "x = 2.5") (T "float")))
      < num_Q (max_value (new_Parameter (T "x") (PFloat 2.5%Q) 1 (T "x = 2.5") (T "float"))))%Q
  /\ (0 < num_Q (step (new_Parameter (T "x") (PFloat 2.5%Q) 1 (T "x = 2.5") (T "float"))))%Q.
Proof.
  assert (N : nonneg (PFloat 2.5%Q)) by (unfold nonneg, Qle; cbn; lia).
  split; [exact N|].
  exact (post_init_defaults_contain_value
           (T "x") (PFloat 2.5%Q) 1 (T "x = 2.5") (T "float") N).
Defined.

Lemma hints_range (q : Param) :
  (num_Q (min_value q) < num_Q (max_value q))%Q -> (0 < num_Q (step q))%Q ->
  (num_Q (min_value (apply_parameter_hints q))
   < num_Q (max_value (apply_parameter_hints q)))%Q
  /\ (0 < num_Q (step (apply_parameter_hints q)))%Q.
Proof.
  intros Hr Hs. unfold apply_parameter_hints.
  repeat match goal with
         | |- context [if ?b then _ else _] => destruct b
         end;
    cbn [set_range min_value max_value step num_Q];
    (split; [|try reflexivity; assumption]);
    try reflexivity; try assumption;
    rewrite <- Zlt_Qlt; lia.
Qed.

(** X7.  Every reported parameter has a range that is not empty and a
    positive step: [min_value < max_value] and [step > 0]. *)
Theorem detected_range_not_empty (code : text) (p : Param) :
  In p (detect_parameters code) ->
  (num_Q (min_value p) < num_Q (max_value p))%Q /\ (0 < num_Q (step p))%Q.
Proof.
  intros Hp. apply scan_lines_form in Hp as (v & nm & _ & ->).
  apply hints_range;
    apply (new_Parameter_range nm (read_value v) _ _ _
             (read_value_nonneg v)).
Qed.

Lemma detected_range_not_empty_witness :
  In three_clusters_param (detect_parameters three_clusters)
  /\ (num_Q (min_value three_clusters_param)
      < num_Q (max_value three_clusters_param))%Q
  /\ (0 < num_Q (step three_clusters_param))%Q.
Proof.
  assert (H : In three_clusters_param (detect_parameters three_clusters))
    by (vm_compute; left; reflexivity).
  split; [exact H|].
  exact (detected_range_not_empty three_clusters three_clusters_param H).
Defined.

(** ** Hints *)

Lemma hints_of_same_fields (p q : Param) :
  name q = name p -> value q = value p -> line_number q = line_number p ->
  original_text q = original_text p -> param_type q = param_type p ->
  apply_parameter_hints q = apply_parameter_hints p
  \/ (apply_parameter_hints q = q /\ apply_parameter_hints p = p).
Proof.
  destruct p as [n v l o t mn mx st], q as [n' v' l' o' t' mn' mx' st'].
  cbn [name value line_number original_text param_type].
  intros -> -> -> -> ->.
  unfold apply_parameter_hints.
  cbn [name value line_number original_text param_type].
  repeat match goal with
         | |- context [if ?b then _ else _] => destruct b
         end; auto.
Qed.

(** X21.  Applying the hints a second time changes nothing: the range and
    the step a hint sets depend on the name and the value only. *)
Theorem apply_parameter_hints_idempotent (p : Param) :
  apply_parameter_hints (apply_parameter_hints p) = apply_parameter_hints p.
Proof.
  destruct (hints_keep p) as (En & Ev & El & Et).
  pose proof (hints_keep_text p) as Eo.
  destruct (hints_of_same_fields p (apply_parameter_hints p) En Ev El Eo Et)
    as [E|[E _]]; exact E.
Qed.

(* ================================================================== *)
(** * Further properties of the rewriting *)
(* ================================================================== *)

Lemma update_lines_length (u : list (text * pynum)) (lines : list text) :
  length (update_lines u lines) = length lines.
Proof.
  unfold update_lines. revert lines.
  induction u as [|[k v] u IH]; intros lines; cbn [fold_left fst snd];
    [reflexivity|].
  now rewrite IH, update_first_length.
Qed.

Lemma update_code_lines (code : text) (u : list (text * pynum)) :
  plain_updates u ->
  split newline (update_code_with_parameters code u)
  = update_lines u (split newline code).
Proof.
  intros P. unfold update_code_with_parameters.
  destruct (update_lines_newline_free u (split newline code) P) as [Hn Hf].
  - apply split_not_nil.
  - intros l Hl. now apply split_pieces in Hl.
  - now apply split_join.
Qed.

(** X8.  With an empty mapping the script comes back as it was. *)
Theorem update_with_no_parameters (code : text) :
  update_code_with_parameters code [] = code.
Proof.
  unfold update_code_with_parameters, update_lines. cbn [fold_left].
  apply join_split.
Qed.

(** X9.  An update never adds or removes a line: for a mapping of solid
    names and values that are not negative, the lines of the new script are
    the lines of the old one, rewritten one by one, and there are as many of
    them. *)
Theorem update_keeps_line_count (code : text) (u : list (text * pynum)) :
  plain_updates u ->
  split newline (update_code_with_parameters code u)
  = update_lines u (split newline code)
  /\ length (split newline (update_code_with_parameters code u))
     = length (split newline code).
Proof.
  intros P. rewrite (update_code_lines code u P).
  split; [reflexivity | apply update_lines_length].
Qed.

Lemma plain_seed_5 : plain_updates [(T "seed", PInt 5)].
Proof.
  repeat constructor; cbn [fst snd]; [discriminate|].
  unfold nonneg, Qle. cbn. lia.
Qed.

Lemma update_keeps_line_count_witness :
  plain_updates [(T "seed", PInt 5)]
  /\ split newline (update_code_with_parameters two_seeds [(T "seed", PInt 5)])
     = update_lines [(T "seed", PInt 5)] (split newline two_seeds)
  /\ length (split newline
               (update_code_with_parameters two_seeds [(T "seed", PInt 5)]))
     = length (split newline two_seeds).
Proof.
  split; [exact plain_seed_5|].
  exact (update_keeps_line_count two_seeds [(T "seed", PInt 5)] plain_seed_5).
Defined.

(** X10.  Updating with a mapping is updating with its entries one call
    after the other: for solid names and values that are not negative in
    the first part, one call with [u ++ u'] gives what a call with [u]
    followed by a call with [u'] gives. *)
Theorem update_in_two_calls (code : text) (u u' : list (text * pynum)) :
  plain_updates u ->
  update_code_with_parameters code (u ++ u')
  = update_code_with_parameters (update_code_with_parameters code u) u'.
Proof.
  intros P.
  unfold update_code_with_parameters at 1 2.
  rewrite (update_code_lines code u P).
  unfold update_lines. now rewrite fold_left_app.
Qed.

Lemma update_in_two_calls_witness :
  plain_updates [(T "seed", PInt 5)]
  /\ update_code_with_parameters two_seeds
       ([(T "seed", PInt 5)] ++ [(T "seed", PInt (-1))])
     = update_code_with_parameters
         (update_code_with_parameters two_seeds [(T "seed", PInt 5)])
         [(T "seed", PInt (-1))].
Proof.
  split; [exact plain_seed_5|].
  exact (update_in_two_calls two_seeds [(T "seed", PInt 5)]
           [(T "seed", PInt (-1))] plain_seed_5).
Defined.

(** X11.  The order of two entries does not matter when their names differ
    even up to letter case (names solid, values not negative). *)
Theorem update_order_of_different_names
    (code a b : text) (va vb : pynum) :
  solid a -> solid b -> nonneg va -> nonneg vb -> ~ same_name a b ->
  update_code_with_parameters code [(a, va); (b, vb)]
  = update_code_with_parameters code [(b, vb); (a, va)].
Proof.
  intros Sa Sb Na Nb N. unfold update_code_with_parameters, update_lines.
  cbn [fold_left fst snd]. now rewrite update_first_commutes.
Qed.

Lemma solid_seed : solid (T "seed").
Proof. split; [discriminate | reflexivity]. Qed.

Lemma solid_rate : solid (T "rate").
Proof. split; [discriminate | reflexivity]. Qed.

Lemma nonneg_5 : nonneg (PInt 5).
Proof. unfold nonneg, Qle. cbn. lia. Qed.

Lemma nonneg_half : nonneg (PFloat 0.5%Q).
Proof. unfold nonneg, Qle. cbn. lia. Qed.

Lemma update_order_of_different_names_witness :
  solid (T "seed") /\ solid (T "rate") /\ nonneg (PInt 5)
  /\ nonneg (PFloat 0.5%Q) /\ ~ same_name (T "seed") (T "rate")
  /\ update_code_with_parameters two_seeds
       [(T "seed", PInt 5); (T "rate", PFloat 0.5%Q)]
     = update_code_with_parameters two_seeds
         [(T "rate", PFloat 0.5%Q); (T "seed", PInt 5)].
Proof.
  assert (N : ~ same_name (T "seed") (T "rate"))
    by (unfold same_name; vm_compute; discriminate).
  repeat (split; [first [exact solid_seed | exact solid_rate | exact nonneg_5
                        | exact nonneg_half | exact N]|]).
  exact (update_order_of_different_names two_seeds (T "seed") (T "rate")
           (PInt 5) (PFloat 0.5%Q) solid_seed solid_rate nonneg_5 nonneg_half N).
Defined.

(** X12.  Of two entries whose names are the same up to letter case, the
    later one wins: the earlier entry can be left out (names solid, the
    earlier value not negative). *)
Theorem update_later_entry_wins (code a b : text) (va vb : pynum) :
  solid a -> nonneg va -> same_name a b ->
  update_code_with_parameters code [(a, va); (b, vb)]
  = update_code_with_parameters code [(b, vb)].
Proof.
  intros Sa Na E. unfold update_code_with_parameters, update_lines.
  cbn [fold_left fst snd]. now rewrite (update_first_absorbs a b va vb Sa Na).
Qed.

Lemma update_later_entry_wins_witness :
  solid (T "seed") /\ nonneg (PInt 5) /\ same_name (T "seed") (T "SEED")
  /\ update_code_with_parameters two_seeds
       [(T "seed", PInt 5); (T "SEED", PInt (-1))]
     = update_code_with_parameters two_seeds [(T "SEED", PInt (-1))].
Proof.
  assert (E : same_name (T "seed") (T "SEED")) by reflexivity.
  split; [exact solid_seed|]. split; [exact nonneg_5|]. split; [exact E|].
  exact (update_later_entry_wins two_seeds (T "seed") (T "SEED")
           (PInt 5) (PInt (-1)) solid_seed nonneg_5 E).
Defined.

(** X13.  An integral value that is not negative is written as its
    decimal digits, with no point, and reading the digits gives the value
    back. *)
Theorem integral_value_written_as_digits (v : pynum) :
  nonneg v -> whole v ->
  forallb is_digit (format_value v) = true
  /\ format_value v <> []
  /\ parse_digits (format_value v) = py_int v.
Proof.
  intros N W. destruct (format_value_whole v N W) as (-> & D & Ne & P). auto.
Qed.

Lemma integral_value_written_as_digits_witness :
  nonneg (PFloat 12%Q) /\ whole (PFloat 12%Q)
  /\ forallb is_digit (format_value (PFloat 12%Q)) = true
  /\ format_value (PFloat 12%Q) <> []
  /\ parse_digits (format_value (PFloat 12%Q)) = py_int (PFloat 12%Q).
Proof.
  assert (N : nonneg (PFloat 12%Q)) by (unfold nonneg, Qle; cbn; lia).
  assert (W : whole (PFloat 12%Q)) by reflexivity.
  split; [exact N|]. split; [exact W|].
  exact (integral_value_written_as_digits (PFloat 12%Q) N W).
Defined.

(** X14.  Which lines the pattern of a solid name matches: those whose
    target, the text between the leading blanks and the blanks or equals
    sign that follow, is the name up to letter case, and whose right-hand
    side starts with an unsigned number. *)
Theorem update_pattern_matches_iff (nm line : text) :
  solid nm ->
  (exists g, re_match (update_pattern nm) line = Some g)
  <-> same_name (target_of line) nm
      /\ exists v rest, rhs_of line = Some (v ++ rest) /\ accepts number v [].
Proof.
  intros S. rewrite <- re_match_matches. now apply matches_update_pattern.
Qed.

Lemma update_pattern_matches_iff_witness :
  solid (T "seed")
  /\ ((exists g, re_match (update_pattern (T "seed")) (T "  Seed=12 # c") = Some g)
      <-> same_name (target_of (T "  Seed=12 # c")) (T "seed")
          /\ exists v rest,
               rhs_of (T "  Seed=12 # c") = Some (v ++ rest)
               /\ accepts number v []).
Proof.
  split; [exact solid_seed|].
  exact (update_pattern_matches_iff (T "seed") (T "  Seed=12 # c") solid_seed).
Defined.

(* ================================================================== *)
(** * Further properties of the execution engine *)
(* ================================================================== *)











(** X19.  Whatever libraries can be imported, the namespace handed to the
    script binds [df] to the data, has string keys only, and holds no user
    variable: the pre-bound names never show up among ['variables']. *)
Theorem initial_namespace_has_no_variables (py : Python) (data : pyval) :
  ns_get (initial_namespace py data) (KStr (T "df")) = Some data
  /\ string_keys_only (initial_namespace py data) = true
  /\ user_variables (initial_namespace py data) = [].
Proof.
  unfold initial_namespace. cbn [fold_left]. unfold preload. cbn [fst snd].
  destruct (py_import py (T "pandas"));
    destruct (py_import py (T "numpy"));
    destruct (py_import py (T "matplotlib.pyplot"));
    destruct (py_import py (T "seaborn"));
    destruct (py_import py (T "sklearn"));
    destruct (py_import py (T "scipy"));
    destruct (py_import py (T "plotly"));
    repeat split; reflexivity.
Qed.



(** X22.  Each library is bound under its short name exactly when it can be
    imported: looking the short name up in the namespace handed to the
    script gives what [__import__] gave, and nothing after an
    [ImportError]. *)
Theorem libraries_are_preloaded_when_installed (py : Python) (data : pyval) :
  Forall (fun nm : string * string =>
            ns_get (initial_namespace py data) (KStr (T (fst nm)))
            = py_import py (T (snd nm)))
    [("pd", "pandas"); ("np", "numpy"); ("plt", "matplotlib.pyplot");
     ("sns", "seaborn"); ("sklearn", "sklearn"); ("scipy", "scipy");
     ("plotly", "plotly")].
Proof.
  unfold initial_namespace. cbn [fold_left]. unfold preload.
  repeat (apply Forall_cons; [|]); [.. | apply Forall_nil]; cbn [fst snd];
    destruct (py_import py (T "pandas"));
    destruct (py_import py (T "numpy"));
    destruct (py_import py (T "matplotlib.pyplot"));
    destruct (py_import py (T "seaborn"));
    destruct (py_import py (T "sklearn"));
    destruct (py_import py (T "scipy"));
    destruct (py_import py (T "plotly"));
    reflexivity.
Qed.
